(** * Audio-reactive particle visualizer: shape generation, morphing, integration

    A shallow embedding of [utils/mathShapes.ts] ([getShapePositions], both
    revisions kept in the repository) and of the per-frame callback of
    [components/VisualizerScene.tsx] (both revisions), followed by the
    properties proved about them.

    Numbers.  JavaScript numbers are IEEE-754 binary64 values.  Two models are
    used, each where it is the meaningful one:
    - the shape generator, the morph controller and the particle integrator
      are modelled over the real numbers [R] (exact arithmetic, no rounding,
      no overflow), which is the model in which distances, bounds and
      convergence are stated;
    - the audio feature extraction is modelled on Rocq's primitive binary64
      floats, the very format of a JavaScript number, because what it does on
      an empty spectrum is a question about IEEE division; the one case of
      the generator that draws no random number (the first revision's Lorenz
      case) is given in binary64 as well.

    Randomness.  [Math.random()] is an ambient stream.  It is modelled by an
    oracle [rnd : nat -> R] (the k-th value the stream returns) and a counter
    threaded through every function that draws from it. *)

From Stdlib Require Import Reals Lra Lia ZArith.
From Stdlib Require Floats.
From Stdlib Require Import Strings.Byte.
From stdpp Require Import base list strings.

Open Scope R_scope.

(** ** State-passing for the random stream *)

Definition State (S A : Type) : Type := S -> A * S.

Definition ret {S A} (a : A) : State S A := fun s => (a, s).

Definition bind {S A B} (m : State S A) (k : A -> State S B) : State S B :=
  fun s => let (a, s') := m s in k a s'.

Notation "'let*' x ':=' m 'in' k" := (bind m (fun x => k))
  (at level 10, x name, m at level 100, k at level 200).

(** Strict equality of two strings. *)
Notation "a === b" := (String.eqb a b) (at level 70, no associativity).

(** ** The parts of the JavaScript library the code uses *)

Module Math.
(** [Math.floor], as the integer it denotes. *)
Definition floor (v : R) : Z := Int_part v.
(** [Math.round]: the nearest integer, halves rounded up. *)
Definition round (v : R) : Z := Int_part (v + / 2).
(** [Math.min]. *)
Definition min (a b : R) : R := Rmin a b.
(** [a > b] on numbers. *)
Definition gt (a b : R) : bool := if Rlt_dec b a then true else false.
(** [a < b] on numbers. *)
Definition lt (a b : R) : bool := if Rlt_dec a b then true else false.

Section Random.
Variable rnd : nat -> R.
(** [Math.random()]: returns the next value of the stream. *)
Definition random : State nat R := fun k => (rnd k, S k).
End Random.
End Math.

(** ** The parts of three.js the code uses *)

Module THREE.
Record Vector3 : Type := mkVector3 { x : R; y : R; z : R }.

(** [v.set(x, y, z)]. *)
Definition set (x y z : R) : Vector3 := mkVector3 x y z.

(** [v.multiplyScalar(s)]. *)
Definition multiplyScalar (v : Vector3) (s : R) : Vector3 :=
  mkVector3 (x v * s) (y v * s) (z v * s).

(** [v.setFromSphericalCoords(radius, phi, theta)]. *)
Definition setFromSphericalCoords (radius phi theta : R) : Vector3 :=
  let sinPhiRadius := sin phi * radius in
  mkVector3 (sinPhiRadius * sin theta) (cos phi * radius) (sinPhiRadius * cos theta).

(** [THREE.MathUtils.lerp(x, y, t)]. *)
Definition lerp (x y t : R) : R := (1 - t) * x + t * y.
End THREE.

(** ** types.ts *)

(** [VisualShape] is a string enum: at run time a shape is the string of its
    tag, and a configuration received from outside may carry any string. *)
Definition VisualShape : Type := string.

Definition SPHERE : VisualShape := "SPHERE".
Definition GALAXY_SPIRAL : VisualShape := "GALAXY_SPIRAL".
Definition LORENZ_ATTRACTOR : VisualShape := "LORENZ_ATTRACTOR".
Definition MOBIUS_STRIP : VisualShape := "MOBIUS_STRIP".
Definition MENGER_SPONGE_APPROX : VisualShape := "MENGER_SPONGE_APPROX".
Definition PENROSE_TRIANGLE_APPROX : VisualShape := "PENROSE_TRIANGLE_APPROX".
Definition CARDIOID_HEART : VisualShape := "CARDIOID_HEART".
Definition DNA_HELIX : VisualShape := "DNA_HELIX".
Definition CUBE_GRID : VisualShape := "CUBE_GRID".
Definition TORUS : VisualShape := "TORUS".
Definition KLEIN_BOTTLE : VisualShape := "KLEIN_BOTTLE".
Definition VOXEL_GRID : VisualShape := "VOXEL_GRID".
Definition CYBER_FLOWER : VisualShape := "CYBER_FLOWER".
Definition LIQUID_WAVE : VisualShape := "LIQUID_WAVE".
Definition PULSING_BLACK_HOLE : VisualShape := "PULSING_BLACK_HOLE".
Definition AIZAWA_ATTRACTOR : VisualShape := "AIZAWA_ATTRACTOR".
Definition THOMAS_ATTRACTOR : VisualShape := "THOMAS_ATTRACTOR".
Definition CLIFFORD_ATTRACTOR : VisualShape := "CLIFFORD_ATTRACTOR".

Record VisualConfig : Type := mkVisualConfig {
  shape : VisualShape;
  colors : string * string * string;
  speed : R;
  chaos : R;
  description : string
}.

Record AudioData : Type := mkAudioData {
  frequencyData : list Byte.byte;   (* Uint8Array *)
  averageFrequency : R
}.

(** ** utils/mathShapes.ts *)

Module mathShapes.

(** Helper to map 0..1 to range. *)
Definition map (val min max : R) : R := min + val * (max - min).

Section Generator.
Variable rnd : nat -> R.
Abbreviation random := (Math.random rnd).

(** *** The loop of [getShapePositions]

    [body i locals] is one iteration's [switch]: it returns the value left
    in [dummy] and the variables declared outside the loop ([locals]: the
    attractor state [ax, ay, az] of the second revision, nothing in the
    first).  Every case assigns all three components of [dummy], so no
    value of it survives from one iteration to the next.  [positions] is
    the [Float32Array], written at [idx], [idx + 1], [idx + 2]. *)
Fixpoint fill {L : Type} (body : nat -> L -> State nat (THREE.Vector3 * L))
    (n i : nat) (locals : L) (positions : list R) : State nat (list R) :=
  match n with
  | O => ret positions
  | S n' =>
      let* r := body i locals in
      let dummy := fst r in
      let idx := (i * 3)%nat in
      fill body n' (S i) (snd r)
        (<[(idx + 2)%nat := THREE.z dummy]>
           (<[(idx + 1)%nat := THREE.y dummy]>
              (<[idx := THREE.x dummy]> positions)))
  end.

(** *** The cases both revisions share, word for word *)
Section Cases.
Variables (i count : nat) (chaosLevel : R).
Variables (r1 r2 r3 : R).

(** Normalized index 0..1 *)
Definition t : R := INR i / INR count.

Definition case_SPHERE : THREE.Vector3 :=
  let theta := 2 * PI * r1 in
  let phi := acos (2 * r2 - 1) in
  let radius := 10 + (r3 * chaosLevel * 5) in
  THREE.setFromSphericalCoords radius phi theta.

Definition case_GALAXY_SPIRAL : THREE.Vector3 :=
  let arms := 3 + IZR (Math.floor (chaosLevel * 4)) in
  let spin := t * arms * PI * 2 in
  let distance := sqrt r1 * 20 in          (* Math.pow(r1, 0.5) *)
  let armOffset := (IZR (Math.floor (r2 * arms)) / arms) * PI * 2 in
  THREE.mkVector3
    (cos (spin + armOffset) * distance)
    ((r3 - 0.5) * (distance * 0.2))
    (sin (spin + armOffset) * distance).

Definition case_MOBIUS_STRIP : THREE.Vector3 :=
  let u := r1 * PI * 2 in
  let v := map r2 (-1) 1 in
  let radius := 10 in
  THREE.mkVector3
    ((radius + v / 2 * cos (u / 2)) * cos u)
    ((radius + v / 2 * cos (u / 2)) * sin u)
    (v / 2 * sin (u / 2) * 5).

Definition case_CARDIOID_HEART : THREE.Vector3 :=
  let u := r1 * PI in
  let v := r2 * PI * 2 in
  let scale := 1.5 in
  THREE.mkVector3
    (scale * 16 * (sin v) ^ 3 * sin u)
    (scale * (13 * cos v - 5 * cos (2 * v) - 2 * cos (3 * v) - cos (4 * v)))
    (scale * 16 * (sin v) ^ 3 * cos u).

Definition case_DNA_HELIX : THREE.Vector3 :=
  let turns := 5 in
  let h := map t (-15) 15 in
  let angle := t * PI * 2 * turns in
  let radius := 6 in
  let strand := if (i mod 2 =? 0)%nat then 0 else PI in
  let x := cos (angle + strand) * radius in
  let z := sin (angle + strand) * radius in
  let y := h * 2 in
  THREE.mkVector3 (x + (r3 - 0.5) * chaosLevel * 2) y (z + (r3 - 0.5) * chaosLevel * 2).

Definition case_MENGER_SPONGE_APPROX : State nat THREE.Vector3 :=
  let size := 20 in
  let snap (val : R) : State nat R :=
    let* r := random in
    if Math.gt r chaosLevel then
      let step := size / 3 in
      ret (IZR (Math.round (val / step)) * step)
    else ret val in
  let* x := snap (map r1 (- size) size) in
  let* y := snap (map r2 (- size) size) in
  let* z := snap (map r3 (- size) size) in
  ret (THREE.mkVector3 x y z).

Definition case_PENROSE_TRIANGLE_APPROX : State nat THREE.Vector3 :=
  let leg := (i mod 3)%nat in
  let* r := random in
  let pos := map r (-10) 10 in
  let thickness := 2 + chaosLevel in
  if (leg =? 0)%nat then
    let* rz := random in
    let* ry := random in
    ret (THREE.mkVector3 pos (-10 + (ry - 0.5) * thickness) (0 + (rz - 0.5) * thickness))
  else if (leg =? 1)%nat then
    let* rz := random in
    ret (THREE.mkVector3 (10 - (pos + 10) / 2) (-10 + (pos + 10) * 0.866)
           (0 + (rz - 0.5) * thickness))
  else
    let* rz := random in
    ret (THREE.mkVector3 (-10 + (pos + 10) / 2) (-10 + (pos + 10) * 0.866)
           (0 + (rz - 0.5) * thickness)).

Definition case_TORUS : THREE.Vector3 :=
  let R := 15 in
  let r := 5 + chaosLevel * 3 in
  let u := r1 * PI * 2 in
  let v := r2 * PI * 2 in
  THREE.mkVector3
    ((R + r * cos v) * cos u)
    ((R + r * cos v) * sin u)
    (r * sin v).

Definition case_KLEIN_BOTTLE : THREE.Vector3 :=
  let u := r1 * PI * 2 in
  let v := r2 * PI * 2 in
  let r_tube := 6 in
  let cU2 := cos (u / 2) in
  let sU2 := sin (u / 2) in
  let sV := sin v in
  let s2V := sin (2 * v) in
  let temp := r_tube + cU2 * sV - sU2 * s2V in
  THREE.multiplyScalar
    (THREE.mkVector3 (temp * cos u) (sU2 * sV + cU2 * s2V) (temp * sin u)) 2.0.

Definition case_VOXEL_GRID : State nat THREE.Vector3 :=
  let size := 25 in
  let steps := 6 in
  let stepSize := (size * 2) / steps in
  let snap (v : R) : R := IZR (Math.round (v / stepSize)) * stepSize in
  let x := snap (map r1 (- size) size) in
  let y := snap (map r2 (- size) size) in
  let z := snap (map r3 (- size) size) in
  let* jx := random in
  let* jy := random in
  let* jz := random in
  ret (THREE.mkVector3
         (x + (jx - 0.5) * chaosLevel * 2)
         (y + (jy - 0.5) * chaosLevel * 2)
         (z + (jz - 0.5) * chaosLevel * 2)).

Definition case_CYBER_FLOWER : THREE.Vector3 :=
  let theta := r1 * PI * 2 in
  let phi := r2 * PI in
  let k := 4 + IZR (Math.floor (chaosLevel * 3)) in
  let rBase := 15 in
  let rVar := 10 * sin (k * theta) * sin (k * phi) in
  let r := rBase + rVar in
  let dummy := THREE.setFromSphericalCoords r phi theta in
  if (i mod 10 =? 0)%nat then THREE.multiplyScalar dummy 0.2 else dummy.

(** [cols], [row] and [col] are natural numbers here; the loop only runs
    when [count >= 1], so that [cols >= 1]. *)
Definition case_LIQUID_WAVE : State nat THREE.Vector3 :=
  let size := 40 in
  let cols := Z.to_nat (Math.floor (sqrt (INR count))) in
  let row := (i / cols)%nat in
  let col := (i mod cols)%nat in
  let x := map (INR col / INR cols) (- size) size in
  let z := map (INR row / INR cols) (- size) size in
  let* jx := random in
  let* jz := random in
  ret (THREE.mkVector3 (x + (jx - 0.5) * 2) 0 (z + (jz - 0.5) * 2)).

Definition case_PULSING_BLACK_HOLE : State nat THREE.Vector3 :=
  if Math.lt (INR i) (INR count * 0.2) then
    let* a := random in
    let theta := a * PI * 2 in
    let* b := random in
    let phi := acos (2 * b - 1) in
    let* c := random in
    let r := 5 + c in
    ret (THREE.setFromSphericalCoords r phi theta)
  else
    let angle := r1 * PI * 2 in
    let dist := 8 + (r2 * 25) in
    let heightVar := (1.0 / dist) * 10.0 in
    let x := cos angle * dist in
    let z := sin angle * dist in
    let* c := random in
    let y := (c - 0.5) * heightVar in
    let twist := dist * 0.2 in
    let tx := x * cos twist - z * sin twist in
    let tz := x * sin twist + z * cos twist in
    ret (THREE.mkVector3 tx y tz).

(** Fallback *)
Definition case_default : THREE.Vector3 :=
  let s := 15 in
  THREE.mkVector3 (map r1 (- s) s) (map r2 (- s) s) (map r3 (- s) s).
End Cases.
End Generator.

(** *** First revision *)
Module V1.
Section Generator.
Variable rnd : nat -> R.
Abbreviation random := (Math.random rnd).

(** One pass of the inner [for] loop of the Lorenz case. *)
Definition lorenz_step (p : R * R * R) : R * R * R :=
  let '(x, y, z) := p in
  let dt := 0.005 in
  let sigma := 10 in
  let rho := 28 in
  let beta := 8 / 3 in
  let dx := sigma * (y - x) * dt in
  let dy := (x * (rho - z) - y) * dt in
  let dz := (x * y - beta * z) * dt in
  (x + dx, y + dy, z + dz).

Definition case_LORENZ_ATTRACTOR (i : nat) : THREE.Vector3 :=
  let steps := (100 + i mod 2000)%nat in
  let '(x, y, z) := Nat.iter steps lorenz_step (0.1, 0, 0) in
  THREE.multiplyScalar (THREE.set x y (z - 25)) 0.8.

Definition body (type : VisualShape) (count : nat) (chaosLevel : R)
    (i : nat) (_ : unit) : State nat (THREE.Vector3 * unit) :=
  let* r1 := random in
  let* r2 := random in
  let* r3 := random in
  let* dummy :=
    if type === SPHERE then ret (case_SPHERE chaosLevel r1 r2 r3)
    else if type === GALAXY_SPIRAL then ret (case_GALAXY_SPIRAL i count chaosLevel r1 r2 r3)
    else if type === LORENZ_ATTRACTOR then ret (case_LORENZ_ATTRACTOR i)
    else if type === MOBIUS_STRIP then ret (case_MOBIUS_STRIP r1 r2)
    else if type === CARDIOID_HEART then ret (case_CARDIOID_HEART r1 r2)
    else if type === DNA_HELIX then ret (case_DNA_HELIX i count chaosLevel r3)
    else if type === MENGER_SPONGE_APPROX then case_MENGER_SPONGE_APPROX rnd chaosLevel r1 r2 r3
    else if type === PENROSE_TRIANGLE_APPROX then case_PENROSE_TRIANGLE_APPROX rnd i chaosLevel
    else if type === TORUS then ret (case_TORUS chaosLevel r1 r2)
    else if type === KLEIN_BOTTLE then ret (case_KLEIN_BOTTLE r1 r2)
    else if type === VOXEL_GRID then case_VOXEL_GRID rnd chaosLevel r1 r2 r3
    else if type === CYBER_FLOWER then ret (case_CYBER_FLOWER i chaosLevel r1 r2)
    else if type === LIQUID_WAVE then case_LIQUID_WAVE rnd i count
    else if type === PULSING_BLACK_HOLE then case_PULSING_BLACK_HOLE rnd i count r1 r2
    else ret (case_default r1 r2 r3) in
  ret (dummy, tt).

Definition getShapePositions (type : VisualShape) (count : nat) (chaosLevel : R)
    : State nat (list R) :=
  fill (body type count chaosLevel) count 0 tt (replicate (count * 3) 0).
End Generator.

(** The tags that have a [case] in the [switch] ([CUBE_GRID] has none). *)
Definition cases : list VisualShape :=
  [SPHERE; GALAXY_SPIRAL; LORENZ_ATTRACTOR; MOBIUS_STRIP; CARDIOID_HEART; DNA_HELIX;
   MENGER_SPONGE_APPROX; PENROSE_TRIANGLE_APPROX; TORUS; KLEIN_BOTTLE; VOXEL_GRID;
   CYBER_FLOWER; LIQUID_WAVE; PULSING_BLACK_HOLE].
End V1.

(** *** Second revision *)
Module V2.
Section Generator.
Variable rnd : nat -> R.
Abbreviation random := (Math.random rnd).

(** [ax, ay, az]: "for attractors that need continuous integration". *)
Definition Attractor : Type := R * R * R.

Definition case_LORENZ_ATTRACTOR (i : nat) (a : Attractor)
    : State nat (THREE.Vector3 * Attractor) :=
  let dt := 0.005 in
  let sigma := 10 in
  let rho := 28 in
  let beta := 8 / 3 in
  let* a :=
    if (i mod 500 =? 0)%nat then
      let* r := random in ret (0.1 + (r - 0.5) * 10, 0.1, 0.1)
    else ret a in
  let '(ax, ay, az) := a in
  let dx := sigma * (ay - ax) * dt in
  let dy := (ax * (rho - az) - ay) * dt in
  let dz := (ax * ay - beta * az) * dt in
  let ax := ax + dx in
  let ay := ay + dy in
  let az := az + dz in
  ret (THREE.multiplyScalar (THREE.set ax ay (az - 25)) 0.8, (ax, ay, az)).

Definition case_AIZAWA_ATTRACTOR (i : nat) (s : Attractor)
    : State nat (THREE.Vector3 * Attractor) :=
  let dt := 0.01 in
  let a := 0.95 in
  let b := 0.7 in
  let c := 0.6 in
  let d := 3.5 in
  let e := 0.25 in
  let f := 0.1 in
  let* s :=
    if (i mod 500 =? 0)%nat then
      let* r := random in ret (0.1 + (r - 0.5) * 2, 0, 0)
    else ret s in
  let '(ax, ay, az) := s in
  let dx := (az - b) * ax - d * ay in
  let dy := d * ax + (az - b) * ay in
  let dz := c + a * az - (az ^ 3 / 3) - (ax ^ 2 + ay ^ 2) * (1 + e * az)
            + f * az * ax ^ 3 in
  let ax := ax + dx * dt in
  let ay := ay + dy * dt in
  let az := az + dz * dt in
  ret (THREE.set (ax * 15) (ay * 15) (az * 15), (ax, ay, az)).

Definition case_THOMAS_ATTRACTOR (i : nat) (s : Attractor)
    : State nat (THREE.Vector3 * Attractor) :=
  let b_const := 0.208186 in
  let dt := 0.05 in
  let* s :=
    if (i mod 1000 =? 0)%nat then
      let* r := random in ret (0.1 + (r - 0.5) * 2, 0.1, 0.1)
    else ret s in
  let '(ax, ay, az) := s in
  let dx := sin ay - b_const * ax in
  let dy := sin az - b_const * ay in
  let dz := sin ax - b_const * az in
  let ax := ax + dx * dt in
  let ay := ay + dy * dt in
  let az := az + dz * dt in
  ret (THREE.multiplyScalar (THREE.set (ax * 4) (ay * 4) (az * 4)) 8.0, (ax, ay, az)).

(** "Using 3D Halvorsen actually, as Clifford is 2D map." *)
Definition case_CLIFFORD_ATTRACTOR (i : nat) (s : Attractor)
    : State nat (THREE.Vector3 * Attractor) :=
  let a_const := 1.4 in
  let dt := 0.005 in
  let* s :=
    if (i mod 500 =? 0)%nat then
      let* r := random in ret (1 + (r - 0.5), 0, 0)
    else ret s in
  let '(ax, ay, az) := s in
  let dx := - a_const * ax - 4 * ay - 4 * az - ay * ay in
  let dy := - a_const * ay - 4 * az - 4 * ax - az * az in
  let dz := - a_const * az - 4 * ax - 4 * ay - ax * ax in
  let ax := ax + dx * dt in
  let ay := ay + dy * dt in
  let az := az + dz * dt in
  ret (THREE.multiplyScalar (THREE.set ax ay az) 6.0, (ax, ay, az)).

Definition body (type : VisualShape) (count : nat) (chaosLevel : R)
    (i : nat) (a : Attractor) : State nat (THREE.Vector3 * Attractor) :=
  let keep (m : State nat THREE.Vector3) : State nat (THREE.Vector3 * Attractor) :=
    let* dummy := m in ret (dummy, a) in
  let* r1 := random in
  let* r2 := random in
  let* r3 := random in
  if type === SPHERE then keep (ret (case_SPHERE chaosLevel r1 r2 r3))
  else if type === GALAXY_SPIRAL then keep (ret (case_GALAXY_SPIRAL i count chaosLevel r1 r2 r3))
  else if type === LORENZ_ATTRACTOR then case_LORENZ_ATTRACTOR i a
  else if type === MOBIUS_STRIP then keep (ret (case_MOBIUS_STRIP r1 r2))
  else if type === CARDIOID_HEART then keep (ret (case_CARDIOID_HEART r1 r2))
  else if type === DNA_HELIX then keep (ret (case_DNA_HELIX i count chaosLevel r3))
  else if type === MENGER_SPONGE_APPROX then keep (case_MENGER_SPONGE_APPROX rnd chaosLevel r1 r2 r3)
  else if type === PENROSE_TRIANGLE_APPROX then keep (case_PENROSE_TRIANGLE_APPROX rnd i chaosLevel)
  else if type === TORUS then keep (ret (case_TORUS chaosLevel r1 r2))
  else if type === KLEIN_BOTTLE then keep (ret (case_KLEIN_BOTTLE r1 r2))
  else if type === VOXEL_GRID then keep (case_VOXEL_GRID rnd chaosLevel r1 r2 r3)
  else if type === CYBER_FLOWER then keep (ret (case_CYBER_FLOWER i chaosLevel r1 r2))
  else if type === LIQUID_WAVE then keep (case_LIQUID_WAVE rnd i count)
  else if type === PULSING_BLACK_HOLE then keep (case_PULSING_BLACK_HOLE rnd i count r1 r2)
  else if type === AIZAWA_ATTRACTOR then case_AIZAWA_ATTRACTOR i a
  else if type === THOMAS_ATTRACTOR then case_THOMAS_ATTRACTOR i a
  else if type === CLIFFORD_ATTRACTOR then case_CLIFFORD_ATTRACTOR i a
  else keep (ret (case_default r1 r2 r3)).

Definition getShapePositions (type : VisualShape) (count : nat) (chaosLevel : R)
    : State nat (list R) :=
  fill (body type count chaosLevel) count 0 (0.1, 0, 0) (replicate (count * 3) 0).
End Generator.

(** The tags that have a [case] in the [switch] ([CUBE_GRID] has none). *)
Definition cases : list VisualShape :=
  [SPHERE; GALAXY_SPIRAL; LORENZ_ATTRACTOR; MOBIUS_STRIP; CARDIOID_HEART; DNA_HELIX;
   MENGER_SPONGE_APPROX; PENROSE_TRIANGLE_APPROX; TORUS; KLEIN_BOTTLE; VOXEL_GRID;
   CYBER_FLOWER; LIQUID_WAVE; PULSING_BLACK_HOLE; AIZAWA_ATTRACTOR; THOMAS_ATTRACTOR;
   CLIFFORD_ATTRACTOR].
End V2.
End mathShapes.

(** ** constants.ts *)

Module constants.
#[local] Set Warnings "-abstract-large-number".
Definition PARTICLE_COUNT : nat := 15000.
Definition ANALYSER_FFT_SIZE : nat := 512.
End constants.

(** ** components/VisualizerScene.tsx *)

Module VisualizerScene.

(** Modelled from the spec: the [GestureState] declaration of the second
    revision's [types.ts] is not among the sources; the fields are those the
    frame callback reads, as section 3 of the specification lists them. *)
Record Hand : Type := mkHand {
  active : bool;
  isFist : bool;
  strength : R;
  hx : R;         (* x *)
  hy : R          (* y *)
}.

Record GestureState : Type := mkGestureState {
  leftHand : Hand;
  rightHand : Hand
}.

(** The gesture uniforms of [StarMaterial] (second revision).  The other
    uniforms only feed the shaders and are left out. *)
Record Uniforms : Type := mkUniforms {
  uHandGrip : R;
  uRightHandPos : THREE.Vector3;
  uRightHandActive : R
}.

(** What the component keeps between frames. *)
Record Scene : Type := mkScene {
  positions : list R;             (* [pos] of [useMemo]: the rendered buffer,
                                     the geometry's position attribute *)
  targetPositionsRef : list R;    (* [targetPositionsRef.current] *)
  currentShapeRef : VisualShape;
  lastShapeChangeTime : R;
  pointsRef : bool;               (* is [pointsRef.current] set? *)
  materialRef : option Uniforms;  (* [materialRef.current] *)
  seed : nat                      (* position in the [Math.random] stream *)
}.

Definition with_positions (s : Scene) (p : list R) (k : nat) : Scene :=
  mkScene p (targetPositionsRef s) (currentShapeRef s) (lastShapeChangeTime s)
    (pointsRef s) (materialRef s) k.

Definition with_material (s : Scene) (m : option Uniforms) : Scene :=
  mkScene (positions s) (targetPositionsRef s) (currentShapeRef s)
    (lastShapeChangeTime s) (pointsRef s) m (seed s).

(** Reading a shape array out of range gives [undefined], a value that no
    [case] and no [!==] comparison with a tag matches; it is written as a
    tag outside every enumeration. *)
Definition undefined : VisualShape := "undefined".

(** [a[j]] on a [Float32Array] (indices stay in range, see the invariant
    [length = PARTICLE_COUNT * 3]). *)
Definition get (a : list R) (j : nat) : R := nth j a 0.

(** [a[j] += d]. *)
Definition add_at (a : list R) (j : nat) (d : R) : list R := <[j := get a j + d]> a.

(** [dst.set(src)] for a source no longer than [dst]. *)
Definition typed_set (dst src : list R) : list R := src ++ drop (length src) dst.

(** [candidates[k]] for the integer [k]. *)
Definition item (candidates : list VisualShape) (k : Z) : VisualShape :=
  if (k <? 0)%Z then undefined else nth (Z.to_nat k) candidates undefined.

Section Frame.
Variable rnd : nat -> R.
Variable PARTICLE_COUNT : nat.   (* [constants.PARTICLE_COUNT] in the sources *)
Variable getShapePositions : VisualShape -> nat -> R -> State nat (list R).
Variable allShapes : list VisualShape.   (* [Object.values(VisualShape)] *)
Abbreviation random := (Math.random rnd).

(** "Initialize target positions when config changes (e.g. new song
    load)": the body of the [useEffect].  React runs it after the first
    render and after every render in which [config.shape] or
    [config.chaos] differs from the previous render's; when it runs is
    React's decision and no part of this function. *)
Definition configEffect (config : VisualConfig) (s : Scene) : Scene :=
  let (targets, k) :=
    getShapePositions (shape config) PARTICLE_COUNT (chaos config) (seed s) in
  mkScene (positions s)
    (typed_set (targetPositionsRef s) targets)
    (shape config)
    0                                     (* Reset timer *)
    (pointsRef s) (materialRef s) k.

(** "Dynamic Shape Switching" *)
Definition shapeSwitching (cooldown switchThreshold forceSwitchTime : R)
    (config : VisualConfig) (time volume : R) (s : Scene) : Scene :=
  let timeSinceLastChange := time - lastShapeChangeTime s in
  if Math.gt timeSinceLastChange cooldown then
    if Math.gt volume switchThreshold || Math.gt timeSinceLastChange forceSwitchTime then
      let candidates := filter (fun sh => sh <> currentShapeRef s) allShapes in
      let (r, k) := random (seed s) in
      let nextShape := item candidates (Math.floor (r * INR (length candidates))) in
      let dynamicChaos := chaos config + (volume * 0.2) in
      let (newTargets, k) :=
        getShapePositions nextShape PARTICLE_COUNT (Math.min 1 dynamicChaos) k in
      mkScene (positions s)
        (typed_set (targetPositionsRef s) newTargets)
        nextShape
        time
        (pointsRef s) (materialRef s) k
    else s
  else s.

(** "Update particle positions": the [for] loop over the particles. *)
Fixpoint particles (lerpSpeed volume : R) (targetPos : list R)
    (n i : nat) (currentPos : list R) : State nat (list R) :=
  match n with
  | O => ret currentPos
  | S n' =>
      let i3 := (i * 3)%nat in
      let currentPos :=
        add_at currentPos i3 ((get targetPos i3 - get currentPos i3) * lerpSpeed) in
      let currentPos :=
        add_at currentPos (i3 + 1)
          ((get targetPos (i3 + 1) - get currentPos (i3 + 1)) * lerpSpeed) in
      let currentPos :=
        add_at currentPos (i3 + 2)
          ((get targetPos (i3 + 2) - get currentPos (i3 + 2)) * lerpSpeed) in
      (* Add Audio Reactive Noise/Explosion *)
      if Math.gt volume 0.8 then
        let* r := random in
        let push := (r - 0.5) * volume * 0.5 in
        let currentPos := add_at currentPos i3 push in
        let currentPos := add_at currentPos (i3 + 1) push in
        let currentPos := add_at currentPos (i3 + 2) push in
        particles lerpSpeed volume targetPos n' (S i) currentPos
      else
        particles lerpSpeed volume targetPos n' (S i) currentPos
  end.

(** The particle update of one frame, on the scene. *)
Definition updateParticles (lerpSpeed volume : R) (s : Scene) : Scene :=
  let currentPos := positions s in
  let targetPos := targetPositionsRef s in
  let (currentPos, k) :=
    particles lerpSpeed volume targetPos PARTICLE_COUNT 0 currentPos (seed s) in
  with_positions s currentPos k.

(** "Left Hand (Control)": the instantaneous grip value. *)
Definition gripVal (gesture : GestureState) : R :=
  if active (leftHand gesture) then
    if isFist (leftHand gesture) then strength (leftHand gesture)   (* Positive for Implode *)
    else - strength (leftHand gesture)                              (* Negative for Explode *)
  else 0.0.

(** "GESTURE UPDATES" (second revision). *)
Definition gestureUpdates (gesture : GestureState) (u : Uniforms) : Uniforms :=
  let currentGrip := uHandGrip u in
  let grip := THREE.lerp currentGrip (gripVal gesture) 0.1 in
  (* Right Hand (Interact) *)
  if active (rightHand gesture) then
    let screenScale := 30.0 in
    let currentX := THREE.x (uRightHandPos u) in
    let currentY := THREE.y (uRightHandPos u) in
    mkUniforms grip
      (THREE.set (THREE.lerp currentX (hx (rightHand gesture) * screenScale) 0.2)
                 (THREE.lerp currentY (hy (rightHand gesture) * screenScale) 0.2)
                 0)
      1.0
  else
    mkUniforms grip (uRightHandPos u) 0.0.
End Frame.

(** *** First revision *)
Module V1.
Definition allShapes : list VisualShape :=
  [SPHERE; GALAXY_SPIRAL; LORENZ_ATTRACTOR; MOBIUS_STRIP; MENGER_SPONGE_APPROX;
   PENROSE_TRIANGLE_APPROX; CARDIOID_HEART; DNA_HELIX; CUBE_GRID; TORUS;
   KLEIN_BOTTLE; VOXEL_GRID; CYBER_FLOWER; LIQUID_WAVE; PULSING_BLACK_HOLE].

Definition cooldown : R := 8.0.           (* timeSinceLastChange > 8.0 *)
Definition switchThreshold : R := 0.6.    (* High volume *)
Definition forceSwitchTime : R := 20.0.   (* Max time to stay on one shape *)

Section Frame.
Variable rnd : nat -> R.
Variable PARTICLE_COUNT : nat.

Definition useEffect : VisualConfig -> Scene -> Scene :=
  configEffect PARTICLE_COUNT (mathShapes.V1.getShapePositions rnd).

Definition shapeSwitching : VisualConfig -> R -> R -> Scene -> Scene :=
  VisualizerScene.shapeSwitching rnd PARTICLE_COUNT
    (mathShapes.V1.getShapePositions rnd) allShapes
    cooldown switchThreshold forceSwitchTime.

Definition lerpSpeed (volume : R) : R :=
  let baseLerp := 0.02 in
  let beatLerp := volume * 0.05 in
  baseLerp + beatLerp.

Definition updateParticles (volume : R) (s : Scene) : Scene :=
  if pointsRef s then
    VisualizerScene.updateParticles rnd PARTICLE_COUNT (lerpSpeed volume) volume s
  else s.

(** The callback given to [useFrame]; [time] is
    [clock.getElapsedTime()] and [audio] is [getAudioData()]. *)
Definition useFrame (config : VisualConfig) (time : R) (audio : AudioData)
    (s : Scene) : Scene :=
  let volume := averageFrequency audio / 255.0 in
  let s := shapeSwitching config time volume s in
  updateParticles volume s.
End Frame.
End V1.

(** *** Second revision *)
Module V2.
(** Modelled from the spec: the second revision's [VisualShape]
    declaration is not among the sources; its values are the keys of
    [SHAPE_LABELS] in [constants.ts], the kinds section 3 of the
    specification lists. *)
Definition allShapes : list VisualShape :=
  [SPHERE; GALAXY_SPIRAL; LORENZ_ATTRACTOR; MOBIUS_STRIP; MENGER_SPONGE_APPROX;
   PENROSE_TRIANGLE_APPROX; CARDIOID_HEART; DNA_HELIX; CUBE_GRID; TORUS;
   KLEIN_BOTTLE; VOXEL_GRID; CYBER_FLOWER; LIQUID_WAVE; PULSING_BLACK_HOLE;
   AIZAWA_ATTRACTOR; THOMAS_ATTRACTOR; CLIFFORD_ATTRACTOR].

Definition cooldown : R := 6.0.           (* timeSinceLastChange > 6.0 *)
Definition switchThreshold : R := 0.5.
Definition forceSwitchTime : R := 15.0.

Section Frame.
Variable rnd : nat -> R.
Variable PARTICLE_COUNT : nat.

Definition useEffect : VisualConfig -> Scene -> Scene :=
  configEffect PARTICLE_COUNT (mathShapes.V2.getShapePositions rnd).

Definition shapeSwitching : VisualConfig -> R -> R -> Scene -> Scene :=
  VisualizerScene.shapeSwitching rnd PARTICLE_COUNT
    (mathShapes.V2.getShapePositions rnd) allShapes
    cooldown switchThreshold forceSwitchTime.

Definition gestureUpdates (gesture : GestureState) (s : Scene) : Scene :=
  match materialRef s with
  | Some u => with_material s (Some (VisualizerScene.gestureUpdates gesture u))
  | None => s
  end.

Definition lerpSpeed (volume : R) : R := 0.03 + (volume * 0.08).

(** [materialRef.current?.uniforms.uHandGrip.value || 0] *)
Definition handGrip (s : Scene) : R :=
  match materialRef s with
  | Some u => uHandGrip u
  | None => 0
  end.

Definition updateParticles (volume : R) (s : Scene) : Scene :=
  if pointsRef s then
    (* Only morph if hand is NOT imploding strongly *)
    if Math.lt (handGrip s) 0.5 then
      VisualizerScene.updateParticles rnd PARTICLE_COUNT (lerpSpeed volume) volume s
    else s
  else s.

Definition useFrame (config : VisualConfig) (time : R) (audio : AudioData)
    (gesture : GestureState) (s : Scene) : Scene :=
  let volume := averageFrequency audio / 255.0 in
  let s := shapeSwitching config time volume s in
  let s := gestureUpdates gesture s in
  updateParticles volume s.
End Frame.
End V2.

(** *** Both revisions under one name

    The two revisions differ in their constants, in the shape generator
    they call and in the gesture block; [gesture] is ignored by the first. *)
Inductive Revision : Type := First | Second.

Definition allShapes (rev : Revision) : list VisualShape :=
  match rev with First => V1.allShapes | Second => V2.allShapes end.

(** The kinds the revision's shape generator has a case for. *)
Definition cases (rev : Revision) : list VisualShape :=
  match rev with First => mathShapes.V1.cases | Second => mathShapes.V2.cases end.

Definition cooldown (rev : Revision) : R :=
  match rev with First => V1.cooldown | Second => V2.cooldown end.

Definition switchThreshold (rev : Revision) : R :=
  match rev with First => V1.switchThreshold | Second => V2.switchThreshold end.

Definition forceSwitchTime (rev : Revision) : R :=
  match rev with First => V1.forceSwitchTime | Second => V2.forceSwitchTime end.

Definition lerpSpeed (rev : Revision) (volume : R) : R :=
  match rev with First => V1.lerpSpeed volume | Second => V2.lerpSpeed volume end.

Definition getShapePositions (rev : Revision) (rnd : nat -> R)
    : VisualShape -> nat -> R -> State nat (list R) :=
  match rev with
  | First => mathShapes.V1.getShapePositions rnd
  | Second => mathShapes.V2.getShapePositions rnd
  end.

Definition useEffect (rev : Revision) (rnd : nat -> R) (PARTICLE_COUNT : nat)
    : VisualConfig -> Scene -> Scene :=
  match rev with
  | First => V1.useEffect rnd PARTICLE_COUNT
  | Second => V2.useEffect rnd PARTICLE_COUNT
  end.

Definition morphStep (rev : Revision) (rnd : nat -> R) (PARTICLE_COUNT : nat)
    : VisualConfig -> R -> R -> Scene -> Scene :=
  match rev with
  | First => V1.shapeSwitching rnd PARTICLE_COUNT
  | Second => V2.shapeSwitching rnd PARTICLE_COUNT
  end.

Definition integrationStep (rev : Revision) (rnd : nat -> R) (PARTICLE_COUNT : nat)
    : R -> Scene -> Scene :=
  match rev with
  | First => V1.updateParticles rnd PARTICLE_COUNT
  | Second => V2.updateParticles rnd PARTICLE_COUNT
  end.

Definition useFrame (rev : Revision) (rnd : nat -> R) (PARTICLE_COUNT : nat)
    (config : VisualConfig) (time : R) (audio : AudioData) (gesture : GestureState)
    : Scene -> Scene :=
  match rev with
  | First => V1.useFrame rnd PARTICLE_COUNT config time audio
  | Second => V2.useFrame rnd PARTICLE_COUNT config time audio gesture
  end.

(** *** Vocabulary of the statements *)

(** [timeSinceLastChange], as the frame computes it: the clock minus the
    stored [lastShapeChangeTime], which is the clock of the last transition
    a frame fired, or 0 from the mount on and once the configuration effect
    has run.  It is the time since the last transition only when a frame
    fired that one. *)
Definition timeSinceLastChange (time : R) (s : Scene) : R :=
  time - lastShapeChangeTime s.

(** Audio energy of a frame. *)
Definition volume (audio : AudioData) : R := averageFrequency audio / 255.0.

(** Euclidean distance of particle [i] to its target. *)
Definition distance (currentPos targetPos : list R) (i : nat) : R :=
  sqrt ((get targetPos (i * 3) - get currentPos (i * 3)) ^ 2
        + (get targetPos (i * 3 + 1) - get currentPos (i * 3 + 1)) ^ 2
        + (get targetPos (i * 3 + 2) - get currentPos (i * 3 + 2)) ^ 2).

(** The smoothed grip value the material holds ([0] without a material). *)
Definition smoothedGrip (s : Scene) : R := V2.handGrip s.

(** What one frame reads from outside: the configuration prop, the scene
    clock, the audio snapshot and the gesture snapshot. *)
Record Tick : Type := mkTick {
  tick_config : VisualConfig;
  tick_time : R;
  tick_audio : AudioData;
  tick_gesture : GestureState
}.

(** A run of frames, first tick first.  A run holds frames only: the
    configuration effect is not part of it, so it describes the component
    for as long as the effect does not run, that is while [config.shape]
    and [config.chaos] are not reassigned.  The gesture uniforms are
    written by the frames alone and from the gesture snapshot alone: the
    effect does not touch the material. *)
Definition run (rev : Revision) (rnd : nat -> R) (PARTICLE_COUNT : nat)
    (ticks : list Tick) (s : Scene) : Scene :=
  fold_left
    (fun s t => useFrame rev rnd PARTICLE_COUNT (tick_config t) (tick_time t)
                  (tick_audio t) (tick_gesture t) s)
    ticks s.

(** Both buffers hold three coordinates for each of the [count] particles. *)
Definition well_formed (count : nat) (s : Scene) : Prop :=
  length (positions s) = (count * 3)%nat /\
  length (targetPositionsRef s) = (count * 3)%nat.
End VisualizerScene.

(** ** Audio feature extraction, on binary64 floats

    The lines "Beat Detection Logic" and "Extract High Freq (Treble)" of the
    frame callbacks (the same text in both revisions and in
    [BackgroundParticles]), with every number a binary64 float as in the
    sources. *)

Module AudioFeatures.
Import Floats.
#[local] Set Warnings "-inexact-float".
#[local] Open Scope float_scope.

(** The number a length or an index denotes (exact below [2^53]). *)
Definition of_nat (n : nat) : float :=
  PrimFloat.of_uint63 (Uint63.of_Z (Z.of_nat n)).

(** The number an element of a [Uint8Array] denotes. *)
Definition of_byte (b : Byte.byte) : float :=
  PrimFloat.of_uint63 (Uint63.of_Z (Z.of_N (Byte.to_N b))).

(** [Math.floor] of a finite float, as the integer it denotes. *)
Definition floor (f : float) : Z :=
  match Prim2SF f with
  | S754_finite s m e =>
      let v := if s then Z.neg m else Z.pos m in
      if (0 <=? e)%Z then (v * 2 ^ e)%Z else (v / 2 ^ (- e))%Z
  | _ => 0%Z
  end.

(** [for (let i = lowerBound; i < dataArray.length; i++) trebleSum += dataArray[i]],
    with [n] the number of indices left. *)
Fixpoint sum (dataArray : list Byte.byte) (n i : nat) (trebleSum : float) : float :=
  match n with
  | O => trebleSum
  | S n' => sum dataArray n' (S i) (trebleSum + of_byte (nth i dataArray Byte.x00))
  end.

Definition treble (dataArray : list Byte.byte) : float :=
  let lowerBound := Z.to_nat (floor (of_nat (length dataArray) * 0.7)) in
  let trebleSum := sum dataArray (length dataArray - lowerBound) lowerBound 0 in
  (trebleSum / (of_nat (length dataArray) - of_nat lowerBound)) / 255.0.

Definition volume (averageFrequency : float) : float := averageFrequency / 255.0.

(** A number lies in [0, 1]; false of [NaN]. *)
Definition in_unit (f : float) : bool := PrimFloat.leb 0 f && PrimFloat.leb f 1.
End AudioFeatures.

(** ** The Lorenz case of the first revision, on binary64 floats

    The same lines as [mathShapes.V1.case_LORENZ_ATTRACTOR], with every
    number a binary64 float and every operation rounded as in the sources.
    The case draws nothing, so it can be evaluated as it stands. *)

Module Binary64.
Import Floats.
#[local] Set Warnings "-inexact-float".
#[local] Open Scope float_scope.

Definition lorenz_step (p : float * float * float) : float * float * float :=
  let '(x, y, z) := p in
  let dt := 0.005 in
  let sigma := 10 in
  let rho := 28 in
  let beta := 8 / 3 in
  let dx := sigma * (y - x) * dt in
  let dy := (x * (rho - z) - y) * dt in
  let dz := (x * y - beta * z) * dt in
  (x + dx, y + dy, z + dz).

(** The components of [dummy] after [dummy.set(x, y, z - 25)] and
    [dummy.multiplyScalar(0.8)]. *)
Definition case_LORENZ_ATTRACTOR (i : nat) : float * float * float :=
  let steps := (100 + i mod 2000)%nat in
  let '(x, y, z) := Nat.iter steps lorenz_step (0.1, 0, 0) in
  (x * 0.8, y * 0.8, (z - 25) * 0.8).

(** A number of magnitude at most 64: finite, and finite once stored in a
    [Float32Array].  False of [NaN] and of the infinities. *)
Definition small (f : float) : bool := PrimFloat.leb (PrimFloat.abs f) 64.

Definition all_small (p : float * float * float) : bool :=
  let '(x, y, z) := p in andb (small x) (andb (small y) (small z)).
End Binary64.

(** ** Vocabulary of the statements *)

Import VisualizerScene.

(** Component [c] (0, 1 or 2) of a vector. *)
Definition component (v : THREE.Vector3) (c : nat) : R :=
  match c with O => THREE.x v | S O => THREE.y v | _ => THREE.z v end.

(** The value the fallback case leaves in [dummy] when the three draws of the
    iteration start at position [k] of the stream. *)
Definition fallback (rnd : nat -> R) (i k : nat) : THREE.Vector3 :=
  mathShapes.case_default (rnd k) (rnd (k + 1)%nat) (rnd (k + 2)%nat).

(** Explicit Euler integration of the Lorenz system, [n] steps of size 0.005
    from (0.1, 0, 0), with sigma = 10, rho = 28, beta = 8/3. *)
Fixpoint lorenz_euler (n : nat) : R * R * R :=
  match n with
  | O => (0.1, 0, 0)
  | S n' =>
      let '(x, y, z) := lorenz_euler n' in
      (x + 10 * (y - x) * 0.005,
       y + (x * (28 - z) - y) * 0.005,
       z + (x * y - 8 / 3 * z) * 0.005)
  end.

(** The point of particle [i]: the trajectory after [100 + i mod 2000] steps,
    shifted down by 25 and scaled by 0.8. *)
Definition lorenz_point (i : nat) : THREE.Vector3 :=
  let '(x, y, z) := lorenz_euler (100 + i mod 2000) in
  THREE.mkVector3 (x * 0.8) (y * 0.8) ((z - 25) * 0.8).

(** The shape the morph step picks when it fires. *)
Definition picked (rev : Revision) (rnd : nat -> R) (s : Scene) : VisualShape :=
  let candidates := filter (fun sh => sh <> currentShapeRef s) (allShapes rev) in
  item candidates (Math.floor (rnd (seed s) * INR (length candidates))).

(** One interpolation step on one coordinate. *)
Definition approach (lerpSpeed c t : R) : R := c + (t - c) * lerpSpeed.

(** Whether the frame interpolates at all: the geometry is mounted and, in the
    second revision, the hand is not imploding strongly. *)
Definition stepping (rev : Revision) (s : Scene) : bool :=
  pointsRef s &&
  match rev with First => true | Second => Math.lt (V2.handGrip s) 0.5 end.

(** *** Concrete inputs *)

(** No audio: an empty spectrum. *)
Definition quiet_audio : AudioData := mkAudioData [] 0.
(** A loud frame: 256 bins, half at 229 and half at 230. *)
Definition loud_audio : AudioData :=
  mkAudioData (repeat "229"%byte 128 ++ repeat "230"%byte 128) 229.5.

(** [DEFAULT_VISUAL_CONFIG] of [constants.ts]. *)
Definition DEFAULT_VISUAL_CONFIG : VisualConfig :=
  mkVisualConfig SPHERE ("#ffffff", "#88ccff", "#ff00aa")%string 1.0 0.5
    "Waiting for music...".

Definition resting_hand : Hand := mkHand false false 0 0 0.
Definition fist : Hand := mkHand true true 1 0 0.

(** One particle at the origin whose target is (1, 0, 0), with a mounted
    material holding the smoothed grip [grip]. *)
Definition one_particle (grip : R) : Scene :=
  mkScene [0; 0; 0] [1; 0; 0] SPHERE 0 true
    (Some (mkUniforms grip (THREE.mkVector3 0 0 0) 0)) 0.

(** A stream that always returns 0. *)
Definition zeros : nat -> R := fun _ => 0.

(** The gesture uniforms within their nominal ranges: grip in [-1, 1] (the
    material's comment: "1.0 = Max grip (implode), -1.0 = Max open
    (explode)"), hand position within [bound] times the screen scale. *)
Definition uniforms_in_range (bound : R) (u : Uniforms) : Prop :=
  -1 <= uHandGrip u <= 1 /\
  - (30 * bound) <= THREE.x (uRightHandPos u) <= 30 * bound /\
  - (30 * bound) <= THREE.y (uRightHandPos u) <= 30 * bound.

(** A gesture snapshot within its nominal ranges: strength in [0, 1], hand
    coordinates within [bound]. *)
Definition gesture_in_range (bound : R) (g : GestureState) : Prop :=
  0 <= strength (leftHand g) <= 1 /\
  - bound <= hx (rightHand g) <= bound /\
  - bound <= hy (rightHand g) <= bound.

(** ** Checking a property of the numbers of a range by evaluation *)

Module Table.
Import Floats Uint63.
#[local] Set Warnings "-inexact-float".
#[local] Open Scope float_scope.

(** Two floats are the same datum (the same class, sign, mantissa and
    exponent). *)
Definition same (x y : float) : bool :=
  match Prim2SF x, Prim2SF y with
  | S754_zero s, S754_zero s' => Bool.eqb s s'
  | S754_infinity s, S754_infinity s' => Bool.eqb s s'
  | S754_nan, S754_nan => true
  | S754_finite s m e, S754_finite s' m' e' =>
      (Bool.eqb s s' && Pos.eqb m m' && Z.eqb e e')%bool
  | _, _ => false
  end.

(** The same test, decided by the primitive comparisons when [x] is
    positive. *)
Definition equal (x y : float) : bool :=
  if (PrimFloat.ltb 0 x && PrimFloat.eqb x y)%bool then true else same x y.

(** [p] holds of [z], [z + 1], ..., [z + n - 1]. *)
Fixpoint all_from (n : nat) (z : Uint63.int) (p : Uint63.int -> bool) : bool :=
  match n with
  | O => true
  | S n' => (p z && all_from n' (z + 1)%uint63 p)%bool
  end.

(** The largest number of bins above the lower bound, for at most 256 bins,
    and the largest sum the treble loop reaches on them. *)
Definition max_bins : Z := 77.
Definition max_sum : Z := 255 * max_bins.

(** Adding the byte [b] to the partial sum [a] is exact. *)
Definition add_is_exact (a b : int) : bool :=
  equal (PrimFloat.of_uint63 a + PrimFloat.of_uint63 b) (PrimFloat.of_uint63 (a + b)%uint63).

(** For [n] bins: the lower bound is below the length, at most 77 bins lie
    above it, and every sum they can have gives a treble that is a number
    of [0, 1]. *)
Definition treble_ok (n : int) : bool :=
  let lowerBound := AudioFeatures.floor (PrimFloat.of_uint63 n * 0.7) in
  let bins := (Uint63.to_Z n - lowerBound)%Z in
  let divisor := PrimFloat.of_uint63 n - PrimFloat.of_uint63 (Uint63.of_Z lowerBound) in
  ((0 <=? lowerBound)%Z && (1 <=? bins)%Z && (bins <=? max_bins)%Z &&
   all_from (Z.to_nat (255 * bins) + 1) 0 (fun s =>
     let treble := (PrimFloat.of_uint63 s / divisor) / 255.0 in
     AudioFeatures.in_unit treble && negb (PrimFloat.is_nan treble)))%bool.
End Table.

(** The sum of the [n] bins from index [i] on, as an integer. *)
Fixpoint byte_sum (dataArray : list Byte.byte) (n i : nat) : Z :=
  match n with
  | O => 0%Z
  | S n' => (Z.of_N (Byte.to_N (nth i dataArray Byte.x00)) + byte_sum dataArray n' (S i))%Z
  end.

(** The kinds whose case integrates a differential equation along the
    loop, from one particle to the next, in the second revision. *)
Definition integrated : list VisualShape :=
  [LORENZ_ATTRACTOR; AIZAWA_ATTRACTOR; THOMAS_ATTRACTOR; CLIFFORD_ATTRACTOR].

(** The three coordinates of particle [i] in a buffer are those of [v]. *)
Definition particle_at (buf : list R) (i : nat) (v : THREE.Vector3) : Prop :=
  buf !! (i * 3)%nat = Some (THREE.x v) /\
  buf !! (i * 3 + 1)%nat = Some (THREE.y v) /\
  buf !! (i * 3 + 2)%nat = Some (THREE.z v).

(** Euclidean norm of a vector. *)
Definition norm (v : THREE.Vector3) : R :=
  sqrt (THREE.x v ^ 2 + THREE.y v ^ 2 + THREE.z v ^ 2).

(** The three coordinates of [v] are at most [bound] in magnitude. *)
Definition within (bound : R) (v : THREE.Vector3) : Prop :=
  Rabs (THREE.x v) <= bound /\ Rabs (THREE.y v) <= bound /\ Rabs (THREE.z v) <= bound.

(** [c] is within [tolerance] of one of the grid values [m * step],
    [-levels <= m <= levels]. *)
Definition near_grid (step : R) (levels : Z) (tolerance c : R) : Prop :=
  exists m : Z, (- levels <= m <= levels)%Z /\ Rabs (c - IZR m * step) <= tolerance.

(** The kinds whose trajectories are given no bound here: the Lorenz case
    and the two other attractors the second revision integrates without a
    restoring term. *)
Definition without_bound : list VisualShape :=
  [LORENZ_ATTRACTOR; AIZAWA_ATTRACTOR; CLIFFORD_ATTRACTOR].

(** ** The attribute buffers of the main shape

    "Create Buffers for MAIN shape": the [useMemo] of [VisualizerScene]
    (the same text in both revisions). *)

Module MainBuffers.
Record Buffers : Type := mkBuffers {
  positions : list R;      (* [pos]: Current *)
  randoms : list R;        (* [rnd]: Scale variation *)
  colorMix : list R;       (* [col]: Mix factors *)
  flashSpeeds : list R     (* [spd]: Flash speeds *)
}.

Section Create.
Variable rnd : nat -> R.
Abbreviation random := (Math.random rnd).

(** The [for] loop; [randoms], [colorMix] and [flashSpeeds] are the arrays
    [rnd], [col] and [spd] of the source. *)
Fixpoint loop (n i : nat) (randoms colorMix flashSpeeds : list R)
    : State nat (list R * list R * list R) :=
  match n with
  | O => ret (randoms, colorMix, flashSpeeds)
  | S n' =>
      let* r := random in
      let randoms := <[i := r * 0.5 + 0.5]> randoms in
      let* r := random in
      let colorMix := <[(i * 3)%nat := r]> colorMix in             (* Mix 1-2 *)
      let* r := random in
      let colorMix := <[(i * 3 + 1)%nat := r * 0.5]> colorMix in   (* Mix result-3 *)
      let colorMix := <[(i * 3 + 2)%nat := 0]> colorMix in
      let* r := random in
      let flashSpeeds := <[i := 0.5 + r * 2.0]> flashSpeeds in
      loop n' (S i) randoms colorMix flashSpeeds
  end.

Definition useMemo (PARTICLE_COUNT : nat) : State nat Buffers :=
  let pos := replicate (PARTICLE_COUNT * 3) 0 in
  let rnd := replicate PARTICLE_COUNT 0 in
  let col := replicate (PARTICLE_COUNT * 3) 0 in
  let spd := replicate PARTICLE_COUNT 0 in
  let* r := loop PARTICLE_COUNT 0 rnd col spd in
  ret (mkBuffers pos (fst (fst r)) (snd (fst r)) (snd r)).
End Create.
End MainBuffers.

(** ** The background star field

    The [useMemo] of [BackgroundParticles], in its two revisions. *)

Module BackgroundParticles.
Record Buffers : Type := mkBuffers {
  positions : list R;   (* [pos] *)
  sizes : list R;       (* [sz] *)
  offsets : list R      (* [off] *)
}.

(** What one iteration computes: the three coordinates, the size and the
    offset of a star. *)
Record Star : Type := mkStar {
  star_x : R; star_y : R; star_z : R; star_size : R; star_offset : R
}.

Section Loop.
(** The [for] loop, given the body that computes a star. *)
Fixpoint loop (star : State nat Star) (n i : nat) (pos sz off : list R)
    : State nat (list R * list R * list R) :=
  match n with
  | O => ret (pos, sz, off)
  | S n' =>
      let* s := star in
      let pos := <[(i * 3)%nat := star_x s]> pos in
      let pos := <[(i * 3 + 1)%nat := star_y s]> pos in
      let pos := <[(i * 3 + 2)%nat := star_z s]> pos in
      let sz := <[i := star_size s]> sz in
      let off := <[i := star_offset s]> off in
      loop star n' (S i) pos sz off
  end.

Definition create (star : State nat Star) (COUNT : nat) : State nat Buffers :=
  let pos := replicate (COUNT * 3) 0 in
  let sz := replicate COUNT 0 in
  let off := replicate COUNT 0 in
  let* r := loop star COUNT 0 pos sz off in
  ret (mkBuffers (fst (fst r)) (snd (fst r)) (snd r)).
End Loop.

(** First revision. *)
Module V1.
#[local] Set Warnings "-abstract-large-number".
Definition COUNT : nat := 6000.

Section Create.
Variable rnd : nat -> R.
Abbreviation random := (Math.random rnd).

(** "Spherical distribution, far away" *)
Definition star : State nat Star :=
  let* a := random in
  let r := 80 + a * 220 in            (* 80 to 300 distance *)
  let* b := random in
  let theta := b * PI * 2 in
  let* c := random in
  let phi := acos (2 * c - 1) in
  let* d := random in
  let* e := random in
  ret (mkStar (r * sin phi * cos theta) (r * sin phi * sin theta) (r * cos phi)
         (d * 4.0 + 1.0) (e * 100.0)).

Definition useMemo : State nat Buffers := create star COUNT.
End Create.
End V1.

(** Second revision. *)
Module V2.
#[local] Set Warnings "-abstract-large-number".
Definition COUNT : nat := 8000.

(** [Math.pow(v, 1.5)] for [v >= 0]. *)
Definition pow15 (v : R) : R := v * sqrt v.

Section Create.
Variable rnd : nat -> R.
Abbreviation random := (Math.random rnd).

Definition star : State nat Star :=
  let* a := random in
  let r := 40 + pow15 a * 260 in
  let* b := random in
  let theta := b * PI * 2 in
  let* c := random in
  let phi := acos (2 * c - 1) in
  let* m := random in
  let yMult := 0.6 + m * 0.4 in
  let* d := random in
  let* e := random in
  ret (mkStar (r * sin phi * cos theta) (r * sin phi * sin theta * yMult) (r * cos phi)
         (d * 3.0 + 0.5) (e * 100.0)).

Definition useMemo : State nat Buffers := create star COUNT.
End Create.
End V2.

Definition COUNT (rev : VisualizerScene.Revision) : nat :=
  match rev with VisualizerScene.First => V1.COUNT | VisualizerScene.Second => V2.COUNT end.

Definition useMemo (rev : VisualizerScene.Revision) (rnd : nat -> R) : State nat Buffers :=
  match rev with
  | VisualizerScene.First => V1.useMemo rnd
  | VisualizerScene.Second => V2.useMemo rnd
  end.
End BackgroundParticles.

(** ** App.tsx and UIOverlay.tsx

    The configuration the application holds after the mood analysis of a
    song, and what the overlay prints of it. *)

Module App.
Section App.
Variable rnd : nat -> R.
Variable allShapes : list VisualShape.   (* [Object.values(VisualShape)] *)
Abbreviation random := (Math.random rnd).

(** "Fallback if API fails or no key": the argument of [setVisualConfig]. *)
Definition fallback : State nat VisualConfig :=
  let* r := random in
  ret (mkVisualConfig
         (item allShapes (Math.floor (r * INR (length allShapes))))
         (colors DEFAULT_VISUAL_CONFIG) (speed DEFAULT_VISUAL_CONFIG)
         (chaos DEFAULT_VISUAL_CONFIG)
         "AI Offline - Random Gen").

(** The [then] callback of [analyzeSongMood]: the next [visualConfig], for
    the answer [config] of the service ([None] for its [null]). *)
Definition setVisualConfig (config : option VisualConfig) : State nat VisualConfig :=
  match config with
  | Some config => ret config
  | None => fallback
  end.
End App.

(** The [visualConfig] prop handed to [UIOverlay]. *)
Definition overlayConfig (isAnalysing : bool) (visualConfig : VisualConfig)
    : VisualConfig :=
  mkVisualConfig (shape visualConfig) (colors visualConfig) (speed visualConfig)
    (chaos visualConfig)
    (if isAnalysing then "Consulting the stars..." else description visualConfig).
End App.

Module UIOverlay.
Import Strings.Ascii.

(** [s.replace(/_/g, ' ')] *)
Fixpoint formatShapeName (s : string) : string :=
  match s with
  | EmptyString => EmptyString
  | String c s' =>
      String (if Ascii.eqb c "_"%char then " "%char else c) (formatShapeName s')
  end.

(** The text of the line [MODE: {formatShapeName(visualConfig.shape)}]. *)
Definition mode (visualConfig : VisualConfig) : string :=
  ("MODE: " ++ formatShapeName (shape visualConfig))%string.
End UIOverlay.

(** A string holds the character [c]. *)
Fixpoint occurs (c : Ascii.ascii) (s : string) : bool :=
  match s with
  | EmptyString => false
  | String d s' => if Ascii.eqb d c then true else occurs c s'
  end.

(** *** The clock of the last transition

    The code stores the time of the last transition in
    [lastShapeChangeTime]: a frame that fires one stores its clock, the
    configuration effect stores 0.  To state the time that has really
    elapsed since the shape was last set, the scene is paired with the
    clock at which that happened, by the effect or by a frame. *)
Record Timed : Type := mkTimed {
  scene : Scene;
  lastTransition : R
}.

(** The configuration effect, run at clock [time]. *)
Definition assign (rev : Revision) (rnd : nat -> R) (PARTICLE_COUNT : nat)
    (time : R) (config : VisualConfig) (c : Timed) : Timed :=
  mkTimed (useEffect rev rnd PARTICLE_COUNT config (scene c)) time.

(** A frame at clock [time]; it is a transition when it changes the shape. *)
Definition frame (rev : Revision) (rnd : nat -> R) (PARTICLE_COUNT : nat)
    (config : VisualConfig) (time : R) (audio : AudioData) (gesture : GestureState)
    (c : Timed) : Timed :=
  let s' := useFrame rev rnd PARTICLE_COUNT config time audio gesture (scene c) in
  mkTimed s'
    (if currentShapeRef s' === currentShapeRef (scene c) then lastTransition c else time).

(** Time elapsed at clock [time] since the last transition. *)
Definition sinceLastTransition (time : R) (c : Timed) : R := time - lastTransition c.

(** ** Proof automation *)

(** [type === tag] is false when [H] says that [type] is none of the tags of
    a list that holds [tag]. *)
Ltac not_a_tag H :=
  apply String.eqb_neq; intros ->; apply H; apply list_elem_of_In; simpl; tauto.

(** Takes the [else] branch of the first comparison of the [switch]. *)
Ltac skip_case H :=
  match goal with
  | |- context [?t === ?c] =>
      let E := fresh "E" in
      assert (E : (t === c) = false) by not_a_tag H; rewrite E; clear E
  end.

(** * Properties *)

(** ** The loop of [getShapePositions] *)

Section FillLemmas.
Context {L : Type}.
Variable body : nat -> L -> State nat (THREE.Vector3 * L).

Lemma fill_length n : forall i l ps k,
  length (fst (mathShapes.fill body n i l ps k)) = length ps.
Proof.
  induction n as [|n IH]; intros i l ps k; simpl; [reflexivity|].
  unfold bind. destruct (body i l k) as [[d l'] k'] eqn:E. simpl.
  rewrite IH. rewrite !length_insert. reflexivity.
Qed.

(** A body that draws exactly three numbers, keeps the loop's variables and
    leaves in [dummy] a value [g i k] that depends on the index and on the
    position in the stream only. *)
Variable g : nat -> nat -> THREE.Vector3.
Hypothesis body_g : forall i l k, body i l k = ((g i k, l), (k + 3)%nat).

Lemma fill_below n : forall i l ps k j,
  (j < i * 3)%nat ->
  fst (mathShapes.fill body n i l ps k) !! j = ps !! j.
Proof.
  induction n as [|n IH]; intros i l ps k j Hj; simpl; [reflexivity|].
  unfold bind. rewrite body_g. simpl.
  rewrite IH by lia.
  rewrite !list_lookup_insert_ne by lia. reflexivity.
Qed.

Lemma fill_lookup n : forall i l ps k j,
  ((i + n) * 3 <= length ps)%nat -> (i <= j < i + n)%nat ->
  let r := fst (mathShapes.fill body n i l ps k) in
  let d := g j (k + (j - i) * 3)%nat in
  r !! (j * 3)%nat = Some (THREE.x d) /\
  r !! (j * 3 + 1)%nat = Some (THREE.y d) /\
  r !! (j * 3 + 2)%nat = Some (THREE.z d).
Proof.
  induction n as [|n IH]; intros i l ps k j Hlen Hj; [lia|].
  simpl. unfold bind. rewrite body_g. simpl.
  destruct (decide (j = i)) as [->|Hne].
  - replace (k + (i - i) * 3)%nat with k by lia.
    rewrite !fill_below by lia.
    rewrite list_lookup_insert_ne by lia.
    rewrite list_lookup_insert_ne by lia.
    rewrite list_lookup_insert_eq by lia.
    rewrite list_lookup_insert_ne by lia.
    rewrite list_lookup_insert_eq by (rewrite length_insert; lia).
    rewrite list_lookup_insert_eq by (rewrite !length_insert; lia).
    auto.
  - specialize (IH (S i) l
      (<[(i * 3 + 2)%nat:=THREE.z (g i k)]>
         (<[(i * 3 + 1)%nat:=THREE.y (g i k)]> (<[(i * 3)%nat:=THREE.x (g i k)]> ps)))
      (k + 3)%nat j).
    replace (k + 3 + (j - S i) * 3)%nat with (k + (j - i) * 3)%nat in IH by lia.
    apply IH; [rewrite !length_insert; lia | lia].
Qed.

Lemma fill_lookup_flat count l k q c :
  (q < count)%nat -> (c < 3)%nat ->
  fst (mathShapes.fill body count 0 l (replicate (count * 3) 0) k) !! (q * 3 + c)%nat
  = Some (component (g q (k + q * 3)%nat) c).
Proof.
  intros Hq Hc.
  assert (Hlen : ((0 + count) * 3 <= length (replicate (count * 3) 0%R))%nat)
    by (rewrite length_replicate; lia).
  destruct (fill_lookup count 0%nat l _ k q Hlen ltac:(lia)) as (Hx & Hy & Hz).
  replace (k + (q - 0) * 3)%nat with (k + q * 3)%nat in * by lia.
  destruct c as [|[|[|?]]]; [| | |lia]; cbn [component].
  - rewrite Nat.add_0_r. exact Hx.
  - exact Hy.
  - exact Hz.
Qed.
End FillLemmas.

Lemma getShapePositions_length rev rnd type count chaosLevel k :
  length (fst (getShapePositions rev rnd type count chaosLevel k)) = (count * 3)%nat.
Proof.
  destruct rev; simpl;
    [unfold mathShapes.V1.getShapePositions | unfold mathShapes.V2.getShapePositions];
    rewrite fill_length, length_replicate; reflexivity.
Qed.

(** The buffer has three entries per particle, whatever the kind (a tag of
    the enumeration or any other string), the count and the chaos level, in
    both revisions; for a count of 0 it is empty. *)
Theorem buffer_has_three_entries_per_particle rev rnd type count chaosLevel k :
  length (fst (getShapePositions rev rnd type count chaosLevel k)) = (count * 3)%nat /\
  fst (getShapePositions rev rnd type 0 chaosLevel k) = [].
Proof.
  split; [apply getShapePositions_length|].
  apply length_zero_iff_nil. apply (getShapePositions_length rev rnd type 0).
Qed.

(** Splitting a flat index into particle and component. *)
Lemma flat_index j count :
  (j < count * 3)%nat ->
  exists q c, j = (q * 3 + c)%nat /\ (q < count)%nat /\ (c < 3)%nat.
Proof.
  intros Hj. exists (j / 3)%nat, (j mod 3)%nat.
  pose proof (Nat.div_mod_eq j 3). pose proof (Nat.mod_upper_bound j 3 ltac:(lia)).
  split; [lia|]. split; [apply Nat.Div0.div_lt_upper_bound; lia | assumption].
Qed.

(** ** Unrecognized kinds *)

Lemma V1_body_default rnd type count chaosLevel :
  type ∉ mathShapes.V1.cases ->
  forall i l k, mathShapes.V1.body rnd type count chaosLevel i l k
                = ((fallback rnd i k, l), (k + 3)%nat).
Proof.
  intros H i [] k.
  unfold mathShapes.V1.body, bind, Math.random, ret, fallback.
  repeat skip_case H.
  replace (S k) with (k + 1)%nat by lia.
  replace (S (k + 1)) with (k + 2)%nat by lia.
  replace (S (k + 2)) with (k + 3)%nat by lia.
  reflexivity.
Qed.

Lemma V2_body_default rnd type count chaosLevel :
  type ∉ mathShapes.V2.cases ->
  forall i l k, mathShapes.V2.body rnd type count chaosLevel i l k
                = ((fallback rnd i k, l), (k + 3)%nat).
Proof.
  intros H i l k.
  unfold mathShapes.V2.body, bind, Math.random, ret, fallback.
  repeat skip_case H.
  replace (S k) with (k + 1)%nat by lia.
  replace (S (k + 1)) with (k + 2)%nat by lia.
  replace (S (k + 2)) with (k + 3)%nat by lia.
  reflexivity.
Qed.

(** Every kind with a case is a kind of the enumeration. *)
Lemma cases_enumerated rev type : type ∈ cases rev -> type ∈ allShapes rev.
Proof.
  rewrite !list_elem_of_In. destruct rev; simpl; intuition.
Qed.

Lemma map_unit_range r : 0 <= r < 1 -> -15 <= mathShapes.map r (-15) 15 < 15.
Proof. unfold mathShapes.map. lra. Qed.

Lemma fallback_component rnd q k c :
  (c < 3)%nat ->
  component (fallback rnd q (k + q * 3)) c
  = mathShapes.map (rnd (k + (q * 3 + c))%nat) (-15) 15.
Proof.
  intros Hc. unfold fallback, mathShapes.case_default.
  destruct c as [|[|[|?]]]; [| | |lia]; cbn [component THREE.x THREE.y THREE.z];
    f_equal; try lra; f_equal; lia.
Qed.

Lemma fallback_lookup rev rnd type count chaosLevel k j :
  type ∉ cases rev -> (j < count * 3)%nat ->
  fst (getShapePositions rev rnd type count chaosLevel k) !! j
  = Some (mathShapes.map (rnd (k + j)%nat) (-15) 15).
Proof.
  intros Htype Hj.
  destruct (flat_index j count Hj) as (q & c & -> & Hq & Hc).
  rewrite <- fallback_component by assumption.
  destruct rev; cbn [getShapePositions cases] in *.
  - apply fill_lookup_flat; [apply V1_body_default; assumption | lia | lia].
  - apply fill_lookup_flat; [apply V2_body_default; assumption | lia | lia].
Qed.

(** Entry [j] of the buffer of a kind without a case is the affine image
    [-15 + 30 * r] of [r], the [j]-th value drawn during the call. *)
Lemma fallback_entry rev rnd type count chaosLevel k j :
  type ∉ cases rev -> (j < count * 3)%nat ->
  fst (getShapePositions rev rnd type count chaosLevel k) !! j
  = Some (-15 + 30 * rnd (k + j)%nat).
Proof.
  intros Htype Hj. rewrite (fallback_lookup rev rnd type count chaosLevel k j Htype Hj).
  f_equal. unfold mathShapes.map. lra.
Qed.

(** C9.  A kind outside the enumeration is not an error: in either revision
    the generator returns a buffer of [count * 3] entries, and entry [j] is
    [-15 + 30 * r] for [r] the [j]-th value drawn from the random stream
    during the call, a draw used for no other entry; with draws in [0, 1)
    every coordinate lies in [-15, 15), and it is uniform there when the
    draws are uniform. *)
Theorem unknown_kind_cube_fill rev rnd type count chaosLevel k :
  (forall n, 0 <= rnd n < 1) ->
  type ∉ allShapes rev ->
  let buf := fst (getShapePositions rev rnd type count chaosLevel k) in
  length buf = (count * 3)%nat /\
  forall j, (j < count * 3)%nat ->
    buf !! j = Some (-15 + 30 * rnd (k + j)%nat) /\
    -15 <= -15 + 30 * rnd (k + j)%nat < 15.
Proof.
  intros Hrnd Htype buf. split.
  - apply getShapePositions_length.
  - intros j Hj. split.
    + apply fallback_entry; [|assumption].
      intros Hcase. apply Htype, cases_enumerated, Hcase.
    + pose proof (Hrnd (k + j)%nat). lra.
Qed.

Lemma unknown_kind_cube_fill_witness :
  (forall n, 0 <= zeros n < 1) /\
  ("HYPERCUBE" ∉ allShapes Second) /\
  (let buf := fst (getShapePositions Second zeros "HYPERCUBE" 2 0.5 0%nat) in
   length buf = 6%nat /\
   forall j, (j < 6)%nat ->
     buf !! j = Some (-15 + 30 * zeros (0 + j)%nat) /\
     -15 <= -15 + 30 * zeros (0 + j)%nat < 15).
Proof.
  assert (Hz : forall n, 0 <= zeros n < 1) by (intros n; unfold zeros; lra).
  assert (Ht : "HYPERCUBE" ∉ allShapes Second).
  { rewrite list_elem_of_In. simpl. intuition discriminate. }
  split; [exact Hz|]. split; [exact Ht|].
  exact (unknown_kind_cube_fill Second zeros "HYPERCUBE" 2 0.5 0%nat Hz Ht).
Defined.

(** ** The Lorenz case of the first revision *)

Lemma V1_body_lorenz rnd count chaosLevel i l k :
  mathShapes.V1.body rnd LORENZ_ATTRACTOR count chaosLevel i l k
  = ((mathShapes.V1.case_LORENZ_ATTRACTOR i, l), (k + 3)%nat).
Proof.
  destruct l. unfold mathShapes.V1.body, bind, Math.random, ret. simpl.
  repeat f_equal. lia.
Qed.

Lemma lorenz_euler_iter n :
  Nat.iter n mathShapes.V1.lorenz_step (0.1, 0, 0) = lorenz_euler n.
Proof.
  induction n as [|n IH]; [reflexivity|].
  rewrite Nat.iter_succ, IH. cbn [lorenz_euler]. unfold mathShapes.V1.lorenz_step.
  destruct (lorenz_euler n) as [[x y] z]. reflexivity.
Qed.

Lemma case_LORENZ_point i : mathShapes.V1.case_LORENZ_ATTRACTOR i = lorenz_point i.
Proof.
  unfold mathShapes.V1.case_LORENZ_ATTRACTOR, lorenz_point.
  rewrite lorenz_euler_iter.
  destruct (lorenz_euler (100 + i mod 2000)) as [[x y] z]. reflexivity.
Qed.

Lemma lorenz_lookup rnd count chaosLevel k i c :
  (i < count)%nat -> (c < 3)%nat ->
  fst (mathShapes.V1.getShapePositions rnd LORENZ_ATTRACTOR count chaosLevel k)
    !! (i * 3 + c)%nat
  = Some (component (lorenz_point i) c).
Proof.
  intros Hi Hc. unfold mathShapes.V1.getShapePositions.
  rewrite (fill_lookup_flat _ (fun i _ => mathShapes.V1.case_LORENZ_ATTRACTOR i))
    by (try apply V1_body_lorenz; lia).
  rewrite case_LORENZ_point. reflexivity.
Qed.

Lemma lorenz_point_period i : lorenz_point (i + 2000) = lorenz_point i.
Proof.
  unfold lorenz_point.
  replace ((i + 2000) mod 2000)%nat with (i mod 2000)%nat; [reflexivity|].
  rewrite Nat.Div0.add_mod, Nat.Div0.mod_same, Nat.add_0_r, Nat.Div0.mod_mod.
  reflexivity.
Qed.

(** C10.  In the first revision the Lorenz buffer depends neither on the
    random stream (its values or the position reached in it) nor on the chaos
    level: two calls with the same count return the same buffer; the point of
    particle [i] is the Euler trajectory from (0.1, 0, 0) after
    [100 + i mod 2000] steps, shifted and scaled; and particles 2000 apart
    get the same position. *)
Theorem lorenz_first_revision_deterministic rnd rnd' count chaosLevel chaosLevel' k k' :
  let buf :=
    fst (mathShapes.V1.getShapePositions rnd LORENZ_ATTRACTOR count chaosLevel k) in
  buf = fst (mathShapes.V1.getShapePositions rnd' LORENZ_ATTRACTOR count chaosLevel' k')
  /\ (forall i c, (i < count)%nat -> (c < 3)%nat ->
        buf !! (i * 3 + c)%nat = Some (component (lorenz_point i) c))
  /\ (forall i c, (i + 2000 < count)%nat -> (c < 3)%nat ->
        buf !! ((i + 2000) * 3 + c)%nat = buf !! (i * 3 + c)%nat).
Proof.
  intros buf. subst buf. split; [|split].
  - apply list_eq. intros j.
    destruct (decide (j < count * 3)%nat) as [Hj|Hj].
    + destruct (flat_index j count Hj) as (q & c & -> & Hq & Hc).
      rewrite !lorenz_lookup by assumption. reflexivity.
    + rewrite !lookup_ge_None_2
        by (pose proof (getShapePositions_length First) as E; simpl in E; rewrite E; lia).
      reflexivity.
  - intros i c Hi Hc. apply lorenz_lookup; assumption.
  - intros i c Hi Hc. rewrite !lorenz_lookup by lia.
    rewrite lorenz_point_period. reflexivity.
Qed.

(** ** Comparisons *)

Lemma gt_true a b : b < a -> Math.gt a b = true.
Proof. intros H. unfold Math.gt. destruct (Rlt_dec b a); [reflexivity|contradiction]. Qed.

Lemma gt_false a b : a <= b -> Math.gt a b = false.
Proof. intros H. unfold Math.gt. destruct (Rlt_dec b a); [lra|reflexivity]. Qed.

Lemma lt_true a b : a < b -> Math.lt a b = true.
Proof. intros H. unfold Math.lt. destruct (Rlt_dec a b); [reflexivity|contradiction]. Qed.

Lemma lt_false a b : b <= a -> Math.lt a b = false.
Proof. intros H. unfold Math.lt. destruct (Rlt_dec a b); [lra|reflexivity]. Qed.

(** ** Picking the next shape *)

Lemma floor_index r n :
  0 <= r < 1 -> (0 < n)%nat ->
  (0 <= Math.floor (r * INR n))%Z /\ (Z.to_nat (Math.floor (r * INR n)) < n)%nat.
Proof.
  intros Hr Hn. unfold Math.floor.
  assert (Hn' : 0 < INR n) by (apply lt_0_INR; lia).
  assert (H0 : 0 <= r * INR n) by nra.
  assert (H1 : r * INR n < INR n) by nra.
  destruct (base_Int_part (r * INR n)) as [Hlo Hhi].
  assert (Hz : (0 <= Int_part (r * INR n))%Z).
  { destruct (Z_le_gt_dec 0 (Int_part (r * INR n))) as [|Hneg]; [assumption|].
    assert (Hm : (Int_part (r * INR n) <= -1)%Z) by lia.
    apply IZR_le in Hm. simpl in Hm. lra. }
  split; [assumption|].
  apply Nat2Z.inj_lt. rewrite Z2Nat.id by assumption.
  apply lt_IZR. rewrite <- INR_IZR_INZ. lra.
Qed.

Lemma filter_keeps_others (cur : VisualShape) (l : list VisualShape) :
  cur ∉ l -> filter (fun sh => sh <> cur) l = l.
Proof.
  induction l as [|b l IH]; intros Hnotin; [reflexivity|].
  rewrite filter_cons. destruct (decide (b <> cur)) as [|Hb].
  - f_equal. apply IH. intros Hin. apply Hnotin. right. assumption.
  - exfalso. apply Hnotin.
    destruct (decide (b = cur)) as [->|]; [left|contradiction].
Qed.

(** Filtering the current shape out of a duplicate-free list removes at most
    one element. *)
Lemma filter_other_length (cur : VisualShape) (l : list VisualShape) :
  NoDup l -> (length l <= S (length (filter (fun sh => sh <> cur) l)))%nat.
Proof.
  induction 1 as [|a l Hnotin Hnd IH]; simpl; [lia|].
  rewrite filter_cons. destruct (decide (a <> cur)) as [Hne|Heq]; simpl; [lia|].
  assert (a = cur) by (destruct (decide (a = cur)); [assumption|contradiction]).
  subst a. rewrite filter_keeps_others by assumption. lia.
Qed.

Lemma item_picks (cur : VisualShape) (l : list VisualShape) r :
  NoDup l -> (2 <= length l)%nat -> 0 <= r < 1 ->
  let candidates := filter (fun sh => sh <> cur) l in
  let nextShape := item candidates (Math.floor (r * INR (length candidates))) in
  nextShape <> cur /\ nextShape ∈ l.
Proof.
  intros Hnd Hlen Hr candidates nextShape.
  pose proof (filter_other_length cur l Hnd) as Hc. fold candidates in Hc.
  destruct (floor_index r (length candidates) Hr ltac:(lia)) as [H0 Hlt].
  assert (Hin : nextShape ∈ candidates).
  { unfold nextShape, item.
    destruct (Z.ltb_spec (Math.floor (r * INR (length candidates))) 0) as [|_]; [lia|].
    apply list_elem_of_In, nth_In. assumption. }
  apply list_elem_of_filter in Hin. tauto.
Qed.

Lemma NoDup_allShapes rev : NoDup (allShapes rev) /\ (2 <= length (allShapes rev))%nat.
Proof.
  destruct rev; (split; [|simpl; lia]); cbn [allShapes].
  - apply (bool_decide_unpack (NoDup V1.allShapes)). vm_compute. exact I.
  - apply (bool_decide_unpack (NoDup V2.allShapes)). vm_compute. exact I.
Qed.

Lemma picked_other rev rnd s :
  0 <= rnd (seed s) < 1 ->
  picked rev rnd s <> currentShapeRef s /\ picked rev rnd s ∈ allShapes rev.
Proof.
  intros Hr. destruct (NoDup_allShapes rev) as [Hnd Hlen].
  apply (item_picks (currentShapeRef s) (allShapes rev) (rnd (seed s)) Hnd Hlen Hr).
Qed.

(** ** What each block of the frame leaves alone *)

Lemma shared_updateParticles_frame rnd count ls vol s :
  let s' := VisualizerScene.updateParticles rnd count ls vol s in
  targetPositionsRef s' = targetPositionsRef s /\
  currentShapeRef s' = currentShapeRef s /\
  lastShapeChangeTime s' = lastShapeChangeTime s /\
  pointsRef s' = pointsRef s /\
  materialRef s' = materialRef s.
Proof.
  unfold VisualizerScene.updateParticles.
  destruct (particles _ _ _ _ _ _ _ _) as [c k]. simpl. auto.
Qed.

Lemma integrationStep_frame rev rnd count vol s :
  let s' := integrationStep rev rnd count vol s in
  targetPositionsRef s' = targetPositionsRef s /\
  currentShapeRef s' = currentShapeRef s /\
  lastShapeChangeTime s' = lastShapeChangeTime s /\
  pointsRef s' = pointsRef s /\
  materialRef s' = materialRef s.
Proof.
  destruct rev; cbn [integrationStep];
    [unfold V1.updateParticles | unfold V2.updateParticles];
    (destruct (pointsRef s) eqn:E; [|auto]);
    try (destruct (Math.lt _ _); [|auto]);
    rewrite <- E; apply shared_updateParticles_frame.
Qed.

Lemma shared_shapeSwitching_frame rnd count G A cd thr force config time vol s :
  let s' := VisualizerScene.shapeSwitching rnd count G A cd thr force config time vol s in
  positions s' = positions s /\ pointsRef s' = pointsRef s /\ materialRef s' = materialRef s.
Proof.
  unfold VisualizerScene.shapeSwitching.
  destruct (Math.gt _ cd); auto.
  destruct (_ || _); auto.
  unfold Math.random. destruct (G _ _ _ _) as [t k]. simpl. auto.
Qed.

Lemma morphStep_frame rev rnd count config time vol s :
  let s' := morphStep rev rnd count config time vol s in
  positions s' = positions s /\ pointsRef s' = pointsRef s /\ materialRef s' = materialRef s.
Proof. destruct rev; apply shared_shapeSwitching_frame. Qed.

Lemma useEffect_frame rev rnd count config s :
  let s' := useEffect rev rnd count config s in
  positions s' = positions s /\ pointsRef s' = pointsRef s /\ materialRef s' = materialRef s
  /\ currentShapeRef s' = shape config /\ lastShapeChangeTime s' = 0
  /\ targetPositionsRef s' =
       typed_set (targetPositionsRef s)
         (fst (getShapePositions rev rnd (shape config) count (chaos config) (seed s))).
Proof.
  destruct rev; cbn [useEffect getShapePositions];
    [unfold V1.useEffect | unfold V2.useEffect]; unfold configEffect;
    destruct (_ rnd (shape config) count (chaos config) (seed s)) as [t k];
    simpl; auto 10.
Qed.

Lemma gestureUpdates_frame gesture s :
  let s' := V2.gestureUpdates gesture s in
  positions s' = positions s /\ targetPositionsRef s' = targetPositionsRef s /\
  currentShapeRef s' = currentShapeRef s /\
  lastShapeChangeTime s' = lastShapeChangeTime s /\ pointsRef s' = pointsRef s.
Proof. unfold V2.gestureUpdates. destruct (materialRef s); simpl; auto. Qed.

(** C5.  The two buffers are written by different blocks: the morph step
    and the configuration effect (the two places a transition happens) leave
    the rendered buffer as it is, neither unmounts anything; the particle
    update (interpolation and, above 0.8, the random burst; any energy) leaves
    the target buffer, the current shape and the transition time as they are. *)
Theorem buffers_write_separation rev rnd count config time vol s :
  (positions (morphStep rev rnd count config time vol s) = positions s /\
   pointsRef (morphStep rev rnd count config time vol s) = pointsRef s /\
   materialRef (morphStep rev rnd count config time vol s) = materialRef s) /\
  positions (useEffect rev rnd count config s) = positions s /\
  (targetPositionsRef (integrationStep rev rnd count vol s) = targetPositionsRef s /\
   currentShapeRef (integrationStep rev rnd count vol s) = currentShapeRef s /\
   lastShapeChangeTime (integrationStep rev rnd count vol s) = lastShapeChangeTime s).
Proof.
  split; [apply morphStep_frame|]. split; [apply useEffect_frame|].
  destruct (integrationStep_frame rev rnd count vol s) as (H1 & H2 & H3 & _). auto.
Qed.

(** ** When the morph step fires *)

Lemma revision_constants rev :
  0 < cooldown rev < forceSwitchTime rev /\ 0 < switchThreshold rev.
Proof.
  destruct rev; cbn; unfold V1.cooldown, V1.forceSwitchTime, V1.switchThreshold,
    V2.cooldown, V2.forceSwitchTime, V2.switchThreshold; lra.
Qed.

Lemma morphStep_idle rev rnd count config time vol s :
  vol <= switchThreshold rev ->
  timeSinceLastChange time s <= forceSwitchTime rev ->
  morphStep rev rnd count config time vol s = s.
Proof.
  unfold timeSinceLastChange. intros Hv Ht.
  destruct rev; cbn [morphStep switchThreshold forceSwitchTime] in *;
    [unfold V1.shapeSwitching | unfold V2.shapeSwitching];
    unfold VisualizerScene.shapeSwitching;
    rewrite (gt_false vol _ Hv), (gt_false _ _ Ht); simpl;
    destruct (Math.gt _ _); reflexivity.
Qed.

Lemma morphStep_forced rev rnd count config time vol s :
  forceSwitchTime rev < timeSinceLastChange time s ->
  let s' := morphStep rev rnd count config time vol s in
  currentShapeRef s' = picked rev rnd s /\
  lastShapeChangeTime s' = time /\
  targetPositionsRef s' =
    typed_set (targetPositionsRef s)
      (fst (getShapePositions rev rnd (picked rev rnd s) count
              (Math.min 1 (chaos config + vol * 0.2)) (S (seed s)))).
Proof.
  unfold timeSinceLastChange. intros Ht.
  pose proof (revision_constants rev) as [Hc _].
  assert (Hcd : cooldown rev < time - lastShapeChangeTime s) by lra.
  destruct rev; cbn [morphStep forceSwitchTime cooldown getShapePositions] in *;
    [unfold V1.shapeSwitching | unfold V2.shapeSwitching];
    unfold VisualizerScene.shapeSwitching;
    rewrite (gt_true _ _ Ht), (gt_true _ _ Hcd), orb_true_r;
    unfold Math.random, picked; cbn [allShapes];
    destruct (_ rnd _ count _ (S (seed s))) as [t k] eqn:E; simpl; auto.
Qed.

(** The frame's shape, transition time and target are the morph step's. *)
Lemma useFrame_morph rev rnd count config time audio gesture s :
  let s1 := morphStep rev rnd count config time (volume audio) s in
  let s' := useFrame rev rnd count config time audio gesture s in
  currentShapeRef s' = currentShapeRef s1 /\
  lastShapeChangeTime s' = lastShapeChangeTime s1 /\
  targetPositionsRef s' = targetPositionsRef s1.
Proof.
  destruct rev; cbn [useFrame morphStep]; [unfold V1.useFrame | unfold V2.useFrame];
    fold (volume audio).
  - destruct (integrationStep_frame First rnd count (volume audio)
                (V1.shapeSwitching rnd count config time (volume audio) s))
      as (H1 & H2 & H3 & _). cbn [integrationStep] in *. auto.
  - destruct (integrationStep_frame Second rnd count (volume audio)
                (V2.gestureUpdates gesture
                   (V2.shapeSwitching rnd count config time (volume audio) s)))
      as (H1 & H2 & H3 & _). cbn [integrationStep] in *.
    destruct (gestureUpdates_frame gesture
                (V2.shapeSwitching rnd count config time (volume audio) s))
      as (_ & G1 & G2 & G3 & _).
    rewrite H1, H2, H3, G1, G2, G3. auto.
Qed.

Lemma volume_silent audio : averageFrequency audio = 0 -> volume audio = 0.
Proof. intros H. unfold volume. rewrite H. lra. Qed.

Lemma zeros_range : forall k, 0 <= zeros k < 1.
Proof. intros k. unfold zeros. lra. Qed.

(** C2.  When the time since the last transition exceeds the forced-switch
    maximum and the audio energy is 0, the frame fires a transition: the new
    current shape differs from the previous one and is a kind of the
    enumeration, the transition time becomes the frame's time, and the target
    buffer receives the positions generated for the new shape. *)
Theorem forced_switch_changes_shape rev rnd count config time audio gesture s :
  (forall k, 0 <= rnd k < 1) ->
  averageFrequency audio = 0 ->
  forceSwitchTime rev < timeSinceLastChange time s ->
  let s' := useFrame rev rnd count config time audio gesture s in
  currentShapeRef s' <> currentShapeRef s /\
  currentShapeRef s' ∈ allShapes rev /\
  lastShapeChangeTime s' = time /\
  targetPositionsRef s' =
    typed_set (targetPositionsRef s)
      (fst (getShapePositions rev rnd (currentShapeRef s') count
              (Math.min 1 (chaos config)) (S (seed s)))).
Proof.
  intros Hrnd Hsilent Hforce s'.
  destruct (useFrame_morph rev rnd count config time audio gesture s) as (E1 & E2 & E3).
  destruct (morphStep_forced rev rnd count config time (volume audio) s Hforce)
    as (F1 & F2 & F3).
  destruct (picked_other rev rnd s (Hrnd _)) as [P1 P2].
  subst s'. rewrite E1, E2, E3, F1, F2, F3.
  rewrite (volume_silent audio Hsilent).
  replace (chaos config + 0 * 0.2) with (chaos config) by lra.
  auto.
Qed.

Lemma forced_switch_changes_shape_witness :
  forceSwitchTime First < timeSinceLastChange 21 (one_particle 0) /\
  (let s' := useFrame First zeros 1 DEFAULT_VISUAL_CONFIG 21 quiet_audio
               (mkGestureState resting_hand resting_hand) (one_particle 0) in
   currentShapeRef s' <> currentShapeRef (one_particle 0) /\
   currentShapeRef s' ∈ allShapes First /\
   lastShapeChangeTime s' = 21 /\
   targetPositionsRef s' =
     typed_set (targetPositionsRef (one_particle 0))
       (fst (getShapePositions First zeros (currentShapeRef s') 1
               (Math.min 1 (chaos DEFAULT_VISUAL_CONFIG)) (S (seed (one_particle 0)))))).
Proof.
  assert (Ht : forceSwitchTime First < timeSinceLastChange 21 (one_particle 0)).
  { unfold timeSinceLastChange. cbn. unfold V1.forceSwitchTime. lra. }
  split; [exact Ht|].
  exact (forced_switch_changes_shape First zeros 1 DEFAULT_VISUAL_CONFIG 21 quiet_audio
           (mkGestureState resting_hand resting_hand) (one_particle 0)
           zeros_range eq_refl Ht).
Defined.

Lemma useFrame_quiet rev rnd count config time audio gesture s :
  volume audio < switchThreshold rev ->
  timeSinceLastChange time s < forceSwitchTime rev ->
  let s' := useFrame rev rnd count config time audio gesture s in
  currentShapeRef s' = currentShapeRef s /\
  lastShapeChangeTime s' = lastShapeChangeTime s /\
  targetPositionsRef s' = targetPositionsRef s.
Proof.
  intros Hv Ht s'.
  destruct (useFrame_morph rev rnd count config time audio gesture s) as (E1 & E2 & E3).
  subst s'. rewrite E1, E2, E3.
  rewrite morphStep_idle by lra. auto.
Qed.

(** C3.  A frame whose audio energy is below the switch threshold and which
    comes less than the forced-switch maximum after the last transition can
    change the shape all the same.  The configuration effect sets the shape
    and stores 0 as the transition time, whatever the clock; the frame
    measures elapsed time from the stored value.  So after an assignment at
    clock [assigned], a frame whose clock is past the forced-switch maximum
    switches to another shape, however short the time since the
    assignment. *)
Theorem quiet_frame_after_assignment_switches
    rev rnd count config assigned time audio gesture c :
  (forall k, 0 <= rnd k < 1) ->
  volume audio < switchThreshold rev ->
  let c1 := assign rev rnd count assigned config c in
  0 <= sinceLastTransition time c1 < forceSwitchTime rev ->
  forceSwitchTime rev < time ->
  let c2 := frame rev rnd count config time audio gesture c1 in
  currentShapeRef (scene c1) = shape config /\
  lastTransition c1 = assigned /\
  currentShapeRef (scene c2) <> currentShapeRef (scene c1) /\
  lastTransition c2 = time.
Proof.
  intros Hrnd Hv c1 Hel Ht c2.
  destruct (useEffect_frame rev rnd count config (scene c)) as (_ & _ & _ & U1 & U2 & _).
  set (s1 := useEffect rev rnd count config (scene c)) in *.
  assert (Hts : forceSwitchTime rev < timeSinceLastChange time s1)
    by (unfold timeSinceLastChange; rewrite U2; lra).
  destruct (useFrame_morph rev rnd count config time audio gesture s1) as (E1 & _).
  destruct (morphStep_forced rev rnd count config time (volume audio) s1 Hts) as (F1 & _).
  destruct (picked_other rev rnd s1 (Hrnd _)) as [P1 _].
  assert (Hne : currentShapeRef (useFrame rev rnd count config time audio gesture s1)
                <> currentShapeRef s1) by (rewrite E1, F1; exact P1).
  subst c2 c1. unfold frame, assign. cbn [scene lastTransition]. fold s1.
  split; [exact U1|]. split; [reflexivity|]. split; [exact Hne|].
  apply String.eqb_neq in Hne. rewrite Hne. reflexivity.
Qed.

Lemma quiet_frame_after_assignment_switches_witness :
  let gesture := mkGestureState resting_hand resting_hand in
  let config := mkVisualConfig TORUS ("#ffffff", "#88ccff", "#ff00aa")%string 1.0 0.5
                  "Flux Torus" in
  let c1 := assign Second zeros 1 100 config (mkTimed (one_particle 0) 0) in
  let c2 := frame Second zeros 1 config 100 quiet_audio gesture c1 in
  (forall k, 0 <= zeros k < 1) /\
  volume quiet_audio < switchThreshold Second /\
  0 <= sinceLastTransition 100 c1 < forceSwitchTime Second /\
  forceSwitchTime Second < 100 /\
  sinceLastTransition 100 c1 = 0 /\
  currentShapeRef (scene c1) = TORUS /\
  currentShapeRef (scene c2) <> TORUS.
Proof.
  cbn zeta.
  set (config := mkVisualConfig TORUS ("#ffffff", "#88ccff", "#ff00aa")%string 1.0 0.5
                   "Flux Torus").
  assert (Hv : volume quiet_audio < switchThreshold Second)
    by (unfold volume; cbn; unfold V2.switchThreshold; lra).
  assert (Hel : 0 <= sinceLastTransition 100
                       (assign Second zeros 1 100 config (mkTimed (one_particle 0) 0))
                  < forceSwitchTime Second)
    by (unfold sinceLastTransition; cbn; unfold V2.forceSwitchTime; lra).
  assert (Ht : forceSwitchTime Second < 100) by (cbn; unfold V2.forceSwitchTime; lra).
  destruct (quiet_frame_after_assignment_switches Second zeros 1 config 100
              100 quiet_audio (mkGestureState resting_hand resting_hand)
              (mkTimed (one_particle 0) 0) zeros_range Hv Hel Ht) as (A & _ & B & _).
  split; [exact zeros_range|]. split; [exact Hv|]. split; [exact Hel|].
  split; [exact Ht|].
  split; [unfold sinceLastTransition; cbn; lra|].
  split; [exact A|]. rewrite A in B. exact B.
Defined.

(** C7.  The configuration effect sets the current shape to the configured
    one and the transition time to 0, while the frame measures elapsed time
    against the scene clock: once the clock is past the forced-switch
    maximum, the very next frame after an assignment switches away from the
    configured shape. *)
Theorem config_shape_replaced_on_next_frame rev rnd count config time audio gesture s :
  (forall k, 0 <= rnd k < 1) ->
  forceSwitchTime rev < time ->
  let s1 := useEffect rev rnd count config s in
  let s2 := useFrame rev rnd count config time audio gesture s1 in
  currentShapeRef s1 = shape config /\
  lastShapeChangeTime s1 = 0 /\
  timeSinceLastChange time s1 = time /\
  currentShapeRef s2 <> shape config.
Proof.
  intros Hrnd Ht s1 s2.
  destruct (useEffect_frame rev rnd count config s) as (_ & _ & _ & U1 & U2 & _).
  fold s1 in U1, U2.
  assert (Hts : timeSinceLastChange time s1 = time)
    by (unfold timeSinceLastChange; rewrite U2; lra).
  repeat split; try assumption.
  destruct (useFrame_morph rev rnd count config time audio gesture s1) as (E1 & _).
  destruct (morphStep_forced rev rnd count config time (volume audio) s1
              ltac:(rewrite Hts; exact Ht)) as (F1 & _).
  destruct (picked_other rev rnd s1 (Hrnd _)) as [P1 _].
  subst s2. rewrite E1, F1, <- U1. exact P1.
Qed.

Lemma config_shape_replaced_on_next_frame_witness :
  forceSwitchTime First < 100 /\
  (let s1 := useEffect First zeros 1 DEFAULT_VISUAL_CONFIG (one_particle 0) in
   let s2 := useFrame First zeros 1 DEFAULT_VISUAL_CONFIG 100 quiet_audio
               (mkGestureState resting_hand resting_hand) s1 in
   currentShapeRef s1 = shape DEFAULT_VISUAL_CONFIG /\
   lastShapeChangeTime s1 = 0 /\
   timeSinceLastChange 100 s1 = 100 /\
   currentShapeRef s2 <> shape DEFAULT_VISUAL_CONFIG).
Proof.
  assert (Ht : forceSwitchTime First < 100) by (cbn; unfold V1.forceSwitchTime; lra).
  split; [exact Ht|].
  exact (config_shape_replaced_on_next_frame First zeros 1 DEFAULT_VISUAL_CONFIG 100
           quiet_audio (mkGestureState resting_hand resting_hand) (one_particle 0)
           zeros_range Ht).
Defined.

(** ** Typed-array reads and writes *)

Lemma get_add_at_eq a j d : (j < length a)%nat -> get (add_at a j d) j = get a j + d.
Proof.
  intros H. unfold add_at. unfold get at 1.
  rewrite nth_lookup, list_lookup_insert_eq by assumption. reflexivity.
Qed.

Lemma get_add_at_ne a j j' d : j <> j' -> get (add_at a j d) j' = get a j'.
Proof.
  intros H. unfold add_at, get.
  rewrite !nth_lookup, list_lookup_insert_ne by assumption. reflexivity.
Qed.

Lemma length_add_at a j d : length (add_at a j d) = length a.
Proof. apply length_insert. Qed.

(** ** The particle loop without burst *)

(** Up to energy 0.8 the loop draws nothing and moves every coordinate of the
    particles it visits one interpolation step towards its target. *)
Lemma particles_quiet rnd lerpSpeed volume targetPos :
  volume <= 0.8 ->
  forall n i currentPos k,
    ((i + n) * 3 <= length currentPos)%nat ->
    let r := particles rnd lerpSpeed volume targetPos n i currentPos k in
    snd r = k /\ length (fst r) = length currentPos /\
    forall j, get (fst r) j =
              if bool_decide (i * 3 <= j < (i + n) * 3)%nat
              then approach lerpSpeed (get currentPos j) (get targetPos j)
              else get currentPos j.
Proof.
  intros Hv. induction n as [|n IH]; intros i currentPos k Hlen.
  - simpl. repeat split. intros j. rewrite bool_decide_eq_false_2 by lia. reflexivity.
  - cbn [particles]. rewrite (gt_false volume 0.8 Hv).
    set (c1 := add_at currentPos (i * 3) _).
    set (c2 := add_at c1 (i * 3 + 1) _).
    set (c3 := add_at c2 (i * 3 + 2) _).
    assert (L1 : length c1 = length currentPos) by apply length_add_at.
    assert (L2 : length c2 = length currentPos) by (unfold c2; rewrite length_add_at; exact L1).
    assert (L3 : length c3 = length currentPos) by (unfold c3; rewrite length_add_at; exact L2).
    destruct (IH (S i) c3 k ltac:(lia)) as (Hk & Hl & Hget).
    split; [exact Hk|]. split; [lia|].
    intros j. rewrite Hget.
    assert (G3 : forall j', get c3 j' =
                  if bool_decide (i * 3 <= j' < i * 3 + 3)%nat
                  then approach lerpSpeed (get currentPos j') (get targetPos j')
                  else get currentPos j').
    { intros j'. unfold c3, c2, c1, approach.
      destruct (decide (j' = i * 3 + 2)%nat) as [->|N2].
      { rewrite get_add_at_eq by (rewrite !length_add_at; lia).
        rewrite !get_add_at_ne by lia.
        rewrite bool_decide_eq_true_2 by lia. reflexivity. }
      rewrite get_add_at_ne by lia.
      destruct (decide (j' = i * 3 + 1)%nat) as [->|N1].
      { rewrite get_add_at_eq by (rewrite !length_add_at; lia).
        rewrite !get_add_at_ne by lia.
        rewrite bool_decide_eq_true_2 by lia. reflexivity. }
      rewrite get_add_at_ne by lia.
      destruct (decide (j' = i * 3)%nat) as [->|N0].
      { rewrite get_add_at_eq by lia.
        rewrite bool_decide_eq_true_2 by lia. reflexivity. }
      rewrite get_add_at_ne by lia.
      rewrite bool_decide_eq_false_2 by lia. reflexivity. }
    rewrite !G3.
    repeat case_bool_decide; try lia; reflexivity.
Qed.

Lemma lerpSpeed_range rev vol : 0 <= vol <= 0.8 -> 0 < lerpSpeed rev vol < 1.
Proof. destruct rev; cbn; unfold V1.lerpSpeed, V2.lerpSpeed; lra. Qed.

Lemma shared_updateParticles_quiet rnd count ls vol s :
  vol <= 0.8 -> length (positions s) = (count * 3)%nat ->
  let s' := VisualizerScene.updateParticles rnd count ls vol s in
  length (positions s') = (count * 3)%nat /\
  forall j, get (positions s') j =
            if bool_decide (j < count * 3)%nat
            then approach ls (get (positions s) j) (get (targetPositionsRef s) j)
            else get (positions s) j.
Proof.
  intros Hv Hlen. unfold VisualizerScene.updateParticles.
  destruct (particles_quiet rnd ls vol (targetPositionsRef s) Hv count 0%nat
              (positions s) (seed s) ltac:(simpl; lia)) as (_ & Hl & Hg).
  destruct (particles _ _ _ _ _ _ _ _) as [c k]. simpl in *.
  split; [lia|]. intros j. rewrite Hg.
  repeat case_bool_decide; try lia; reflexivity.
Qed.

Lemma integrationStep_quiet rev rnd count vol s :
  vol <= 0.8 -> length (positions s) = (count * 3)%nat ->
  let s' := integrationStep rev rnd count vol s in
  length (positions s') = (count * 3)%nat /\
  forall j, get (positions s') j =
            if stepping rev s && bool_decide (j < count * 3)%nat
            then approach (lerpSpeed rev vol) (get (positions s) j)
                   (get (targetPositionsRef s) j)
            else get (positions s) j.
Proof.
  intros Hv Hlen. unfold stepping.
  destruct rev; cbn [integrationStep lerpSpeed];
    [unfold V1.updateParticles | unfold V2.updateParticles];
    destruct (pointsRef s); cbn [andb]; auto;
    try (destruct (Math.lt _ _); cbn [andb]; auto);
    apply shared_updateParticles_quiet; assumption.
Qed.

Lemma stepping_preserved rev rnd count vol s :
  stepping rev (integrationStep rev rnd count vol s) = stepping rev s.
Proof.
  destruct (integrationStep_frame rev rnd count vol s) as (_ & _ & _ & Hp & Hm).
  unfold stepping, V2.handGrip. rewrite Hp, Hm. reflexivity.
Qed.

(** Scaling the three differences by [q >= 0] scales the distance by [q]. *)
Lemma distance_scaled (a b c a' b' c' q : R) :
  0 <= q -> a' = q * a -> b' = q * b -> c' = q * c ->
  sqrt (a' ^ 2 + b' ^ 2 + c' ^ 2) = q * sqrt (a ^ 2 + b ^ 2 + c ^ 2).
Proof.
  intros Hq -> -> ->.
  assert (HS : 0 <= a ^ 2 + b ^ 2 + c ^ 2) by nra.
  apply sqrt_lem_1.
  - nra.
  - apply Rmult_le_pos; [assumption | apply sqrt_pos].
  - replace (q * sqrt (a ^ 2 + b ^ 2 + c ^ 2) * (q * sqrt (a ^ 2 + b ^ 2 + c ^ 2)))
      with (q * q * (sqrt (a ^ 2 + b ^ 2 + c ^ 2) * sqrt (a ^ 2 + b ^ 2 + c ^ 2))) by ring.
    rewrite sqrt_sqrt by assumption. ring.
Qed.

Lemma distance_step rev rnd count vol s i :
  0 <= vol <= 0.8 -> length (positions s) = (count * 3)%nat -> (i < count)%nat ->
  distance (positions (integrationStep rev rnd count vol s)) (targetPositionsRef s) i
  = (if stepping rev s then 1 - lerpSpeed rev vol else 1)
    * distance (positions s) (targetPositionsRef s) i.
Proof.
  intros Hv Hlen Hi.
  destruct (integrationStep_quiet rev rnd count vol s ltac:(lra) Hlen) as [_ Hg].
  pose proof (lerpSpeed_range rev vol Hv) as Hls.
  unfold distance. apply distance_scaled.
  - destruct (stepping rev s); lra.
  - rewrite Hg. rewrite (bool_decide_eq_true_2 (i * 3 < count * 3)%nat) by lia.
    unfold approach. destruct (stepping rev s); cbn [andb]; ring.
  - rewrite Hg. rewrite (bool_decide_eq_true_2 (i * 3 + 1 < count * 3)%nat) by lia.
    unfold approach. destruct (stepping rev s); cbn [andb]; ring.
  - rewrite Hg. rewrite (bool_decide_eq_true_2 (i * 3 + 2 < count * 3)%nat) by lia.
    unfold approach. destruct (stepping rev s); cbn [andb]; ring.
Qed.

Lemma distance_nonneg c t i : 0 <= distance c t i.
Proof. apply sqrt_pos. Qed.

Lemma ticks_invariant rev rnd count vol s n :
  vol <= 0.8 -> length (positions s) = (count * 3)%nat ->
  let sn := Nat.iter n (integrationStep rev rnd count vol) s in
  length (positions sn) = (count * 3)%nat /\
  targetPositionsRef sn = targetPositionsRef s /\
  stepping rev sn = stepping rev s.
Proof.
  intros Hv Hlen. induction n as [|n (IH1 & IH2 & IH3)]; [simpl; auto|].
  cbn zeta. rewrite Nat.iter_succ.
  destruct (integrationStep_quiet rev rnd count vol _ Hv IH1) as [L _].
  destruct (integrationStep_frame rev rnd count vol
              (Nat.iter n (integrationStep rev rnd count vol) s)) as (T & _).
  rewrite stepping_preserved. split; [exact L|]. split; congruence.
Qed.

(** C4 (amended).  With the audio energy held at a value in [0, 0.8] (so
    that the rate lies strictly between 0 and 1 and no burst is added) and the
    target buffer fixed, every tick of the particle update multiplies each
    particle's Euclidean distance to its target by [1 - lerpSpeed] when the
    frame interpolates, and leaves it unchanged when it does not; so the
    distance never grows from one tick to the next and never exceeds the
    initial distance.  This holds from any current buffer of the field's
    size, the all-zero buffer included. *)
Theorem quiet_integration_monotone rev rnd count vol s i n :
  0 <= vol <= 0.8 ->
  length (positions s) = (count * 3)%nat ->
  (i < count)%nat ->
  let tick := integrationStep rev rnd count vol in
  let d m := distance (positions (Nat.iter m tick s)) (targetPositionsRef s) i in
  d (S n) = (if stepping rev s then 1 - lerpSpeed rev vol else 1) * d n /\
  d (S n) <= d n /\
  d n <= d 0%nat /\
  targetPositionsRef (Nat.iter n tick s) = targetPositionsRef s.
Proof.
  intros Hv Hlen Hi tick d.
  pose proof (lerpSpeed_range rev vol Hv) as Hls.
  assert (Hstep : forall m,
    d (S m) = (if stepping rev s then 1 - lerpSpeed rev vol else 1) * d m).
  { intros m. unfold d, tick. rewrite Nat.iter_succ.
    destruct (ticks_invariant rev rnd count vol s m ltac:(lra) Hlen) as (L & T & S).
    rewrite <- T at 1. rewrite distance_step by assumption.
    rewrite S, T. reflexivity. }
  assert (Hle : forall m, d (S m) <= d m).
  { intros m. rewrite Hstep. pose proof (distance_nonneg
      (positions (Nat.iter m tick s)) (targetPositionsRef s) i) as Hd. fold (d m) in Hd.
    destruct (stepping rev s); nra. }
  split; [apply Hstep|]. split; [apply Hle|]. split.
  - induction n as [|n IH]; [lra|]. specialize (Hle n). lra.
  - apply (ticks_invariant rev rnd count vol s n); [lra | assumption].
Qed.

Lemma quiet_integration_monotone_witness :
  0 <= 0.5 <= 0.8 /\
  positions (one_particle 0) = replicate (1 * 3) 0 /\
  (let tick := integrationStep First zeros 1 0.5 in
   let d m := distance (positions (Nat.iter m tick (one_particle 0)))
                (targetPositionsRef (one_particle 0)) 0 in
   d 4%nat = (if stepping First (one_particle 0) then 1 - lerpSpeed First 0.5 else 1)
             * d 3%nat /\
   d 4%nat <= d 3%nat /\
   d 3%nat <= d 0%nat /\
   targetPositionsRef (Nat.iter 3 tick (one_particle 0))
   = targetPositionsRef (one_particle 0)).
Proof.
  assert (Hv : 0 <= 0.5 <= 0.8) by lra.
  split; [exact Hv|]. split; [reflexivity|].
  exact (quiet_integration_monotone First zeros 1 0.5 (one_particle 0) 0 3
           Hv eq_refl (Nat.lt_0_succ 0)).
Defined.

(** C4, as stated, fails above the burst threshold.  At energy 0.9 the rate
    is the fixed nonzero value 0.065; with the stream returning 0 one tick
    takes the particle at the origin, whose target (1, 0, 0) is at distance
    1, to (-0.16, -0.225, -0.225): farther from the target than it started. *)
Lemma loud_burst_moves_away :
  let s := one_particle 0 in
  let s' := integrationStep First zeros 1 (volume loud_audio) s in
  volume loud_audio = 0.9 /\
  lerpSpeed First (volume loud_audio) = 0.065 /\
  targetPositionsRef s' = targetPositionsRef s /\
  positions s = [0; 0; 0] /\
  positions s' = [-0.16; -0.225; -0.225] /\
  distance (positions s) (targetPositionsRef s) 0 = 1 /\
  1 < distance (positions s') (targetPositionsRef s') 0.
Proof.
  cbn zeta.
  assert (Hvol : volume loud_audio = 0.9) by (unfold volume; cbn; lra).
  rewrite Hvol.
  assert (Hpos : positions (integrationStep First zeros 1 0.9 (one_particle 0))
                 = [-0.16; -0.225; -0.225]).
  { cbn [integrationStep]. unfold V1.updateParticles.
    cbn [one_particle pointsRef]. unfold VisualizerScene.updateParticles.
    cbn [positions targetPositionsRef seed particles Nat.mul Nat.add].
    rewrite gt_true by lra. unfold bind, Math.random, ret, zeros. cbn.
    unfold V1.lerpSpeed. repeat f_equal; lra. }
  destruct (integrationStep_frame First zeros 1 0.9 (one_particle 0)) as (Ht & _).
  split; [reflexivity|].
  split; [cbn; unfold V1.lerpSpeed; lra|].
  split; [exact Ht|]. split; [reflexivity|]. split; [exact Hpos|]. split.
  - unfold distance, get. cbn.
    replace ((1 - 0) * ((1 - 0) * 1) + (0 - 0) * ((0 - 0) * 1) + (0 - 0) * ((0 - 0) * 1))
      with 1 by lra.
    apply sqrt_1.
  - rewrite Ht, Hpos. unfold distance, get. cbn.
    rewrite <- sqrt_1 at 1. apply sqrt_lt_1; lra.
Qed.

(** ** The grip test of the second revision *)





(** ** Audio feature extraction *)

(** C8.  On a spectrum with no bins the treble computed by the frame is
    [0 / 0 / 255], which is NaN: it is not 0 and not within [0, 1].  The
    energy of a silent frame is 0. *)
Theorem empty_spectrum_treble_is_nan :
  frequencyData quiet_audio = [] /\
  AudioFeatures.treble (frequencyData quiet_audio) = PrimFloat.nan /\
  PrimFloat.is_nan (AudioFeatures.treble (frequencyData quiet_audio)) = true /\
  AudioFeatures.in_unit (AudioFeatures.treble (frequencyData quiet_audio)) = false /\
  AudioFeatures.volume PrimFloat.zero = PrimFloat.zero.
Proof. vm_compute. auto 6. Qed.

(** On a spectrum with bins the same computation is in range: 256 bins at 0
    give 0, 256 bins at 255 give 1, and the loud frame gives 230 / 255. *)
Lemma full_spectrum_treble_in_range :
  AudioFeatures.treble (repeat Byte.x00 256) = PrimFloat.zero /\
  AudioFeatures.treble (repeat Byte.xff 256) = PrimFloat.one /\
  AudioFeatures.in_unit (AudioFeatures.treble (frequencyData loud_audio)) = true.
Proof. vm_compute. auto. Qed.

(** ** Further properties of the generator and of the gesture smoothing *)

(** [CUBE_GRID] is a kind of the enumeration of both revisions, yet no
    revision's [switch] has a case for it: it is generated by the fallback,
    as a cube fill, entry [j] being [-15 + 30 * r] for [r] the [j]-th value
    drawn during the call, in [-15, 15) for draws in [0, 1). *)
Theorem cube_grid_is_cube_fill rev rnd count chaosLevel k :
  (forall n, 0 <= rnd n < 1) ->
  (CUBE_GRID ∈ allShapes rev) /\
  (CUBE_GRID ∉ cases rev) /\
  (forall j, (j < count * 3)%nat ->
     fst (getShapePositions rev rnd CUBE_GRID count chaosLevel k) !! j
     = Some (-15 + 30 * rnd (k + j)%nat) /\
     -15 <= -15 + 30 * rnd (k + j)%nat < 15).
Proof.
  intros Hrnd.
  assert (Hin : CUBE_GRID ∈ allShapes rev)
    by (apply list_elem_of_In; destruct rev; simpl; tauto).
  assert (Hno : CUBE_GRID ∉ cases rev)
    by (rewrite list_elem_of_In; destruct rev; simpl; intuition discriminate).
  split; [exact Hin|]. split; [exact Hno|].
  intros j Hj. split; [apply fallback_entry; assumption|].
  pose proof (Hrnd (k + j)%nat). lra.
Qed.

Lemma cube_grid_is_cube_fill_witness :
  (forall n, 0 <= zeros n < 1) /\
  (CUBE_GRID ∈ allShapes First) /\
  (CUBE_GRID ∉ cases First) /\
  (forall j, (j < 2 * 3)%nat ->
     fst (getShapePositions First zeros CUBE_GRID 2 0.5 0%nat) !! j
     = Some (-15 + 30 * zeros (0 + j)%nat) /\
     -15 <= -15 + 30 * zeros (0 + j)%nat < 15).
Proof.
  split; [exact zeros_range|].
  exact (cube_grid_is_cube_fill First zeros 2 0.5 0%nat zeros_range).
Defined.

Lemma body_sphere rev rnd count chaosLevel i k :
  match rev with
  | First => fst (fst (mathShapes.V1.body rnd SPHERE count chaosLevel i tt k))
  | Second => fst (fst (mathShapes.V2.body rnd SPHERE count chaosLevel i (0.1, 0, 0) k))
  end = mathShapes.case_SPHERE chaosLevel (rnd k) (rnd (S k)) (rnd (S (S k))).
Proof. destruct rev; reflexivity. Qed.

Lemma sphere_lookup rev rnd count chaosLevel k i c :
  (i < count)%nat -> (c < 3)%nat ->
  fst (getShapePositions rev rnd SPHERE count chaosLevel k) !! (i * 3 + c)%nat
  = Some (component
            (mathShapes.case_SPHERE chaosLevel (rnd (k + i * 3)%nat)
               (rnd (k + i * 3 + 1)%nat) (rnd (k + i * 3 + 2)%nat)) c).
Proof.
  intros Hi Hc.
  set (g := fun (_ n : nat) =>
              mathShapes.case_SPHERE chaosLevel (rnd n) (rnd (n + 1)%nat) (rnd (n + 2)%nat)).
  change (Some (component (mathShapes.case_SPHERE chaosLevel (rnd (k + i * 3)%nat)
               (rnd (k + i * 3 + 1)%nat) (rnd (k + i * 3 + 2)%nat)) c))
    with (Some (component (g i (k + i * 3)%nat) c)).
  destruct rev; cbn [getShapePositions];
    [unfold mathShapes.V1.getShapePositions | unfold mathShapes.V2.getShapePositions];
    apply fill_lookup_flat; try assumption; intros j l n.
  - destruct l. unfold mathShapes.V1.body, bind, Math.random, ret, g. simpl.
    replace (S n) with (n + 1)%nat by lia. replace (S (n + 1)) with (n + 2)%nat by lia.
    replace (S (n + 2)) with (n + 3)%nat by lia. reflexivity.
  - unfold mathShapes.V2.body, bind, Math.random, ret, g. simpl.
    replace (S n) with (n + 1)%nat by lia. replace (S (n + 1)) with (n + 2)%nat by lia.
    replace (S (n + 2)) with (n + 3)%nat by lia. reflexivity.
Qed.

(** A point set from spherical coordinates lies at distance [radius] from
    the origin. *)
Lemma spherical_norm radius phi theta :
  0 <= radius ->
  let v := THREE.setFromSphericalCoords radius phi theta in
  sqrt (THREE.x v ^ 2 + THREE.y v ^ 2 + THREE.z v ^ 2) = radius.
Proof.
  intros Hr v. apply sqrt_lem_1; [|assumption|].
  - unfold v, THREE.setFromSphericalCoords. cbn [THREE.x THREE.y THREE.z]. nra.
  - unfold v, THREE.setFromSphericalCoords. cbn [THREE.x THREE.y THREE.z].
    pose proof (sin2_cos2 phi) as Hp. pose proof (sin2_cos2 theta) as Ht.
    unfold Rsqr in Hp, Ht.
    replace ((sin phi * radius * sin theta) ^ 2 + (cos phi * radius) ^ 2
             + (sin phi * radius * cos theta) ^ 2)
      with (radius * radius
            * (sin phi * sin phi * (sin theta * sin theta + cos theta * cos theta)
               + cos phi * cos phi)) by ring.
    rewrite Ht, Rmult_1_r, Hp. ring.
Qed.

(** The sphere: every generated point lies at distance
    [10 + r3 * chaosLevel * 5] from the origin, between 10 and
    [10 + 5 * chaosLevel]. *)
Theorem sphere_points_radius rev rnd count chaosLevel k i :
  (forall n, 0 <= rnd n < 1) ->
  0 <= chaosLevel <= 1 ->
  (i < count)%nat ->
  let buf := fst (getShapePositions rev rnd SPHERE count chaosLevel k) in
  exists x y z,
    buf !! (i * 3)%nat = Some x /\
    buf !! (i * 3 + 1)%nat = Some y /\
    buf !! (i * 3 + 2)%nat = Some z /\
    sqrt (x ^ 2 + y ^ 2 + z ^ 2) = 10 + rnd (k + i * 3 + 2)%nat * chaosLevel * 5 /\
    10 <= sqrt (x ^ 2 + y ^ 2 + z ^ 2) <= 10 + 5 * chaosLevel.
Proof.
  intros Hrnd Hc Hi buf.
  set (v := mathShapes.case_SPHERE chaosLevel (rnd (k + i * 3)%nat)
              (rnd (k + i * 3 + 1)%nat) (rnd (k + i * 3 + 2)%nat)).
  exists (THREE.x v), (THREE.y v), (THREE.z v).
  pose proof (sphere_lookup rev rnd count chaosLevel k i 0 Hi ltac:(lia)) as H0.
  pose proof (sphere_lookup rev rnd count chaosLevel k i 1 Hi ltac:(lia)) as H1.
  pose proof (sphere_lookup rev rnd count chaosLevel k i 2 Hi ltac:(lia)) as H2.
  rewrite Nat.add_0_r in H0. fold v in H0, H1, H2. cbn [component] in H0, H1, H2.
  pose proof (Hrnd (k + i * 3 + 2)%nat) as Hr3.
  assert (Hrad : 0 <= 10 + rnd (k + i * 3 + 2)%nat * chaosLevel * 5) by nra.
  assert (Hnorm : sqrt (THREE.x v ^ 2 + THREE.y v ^ 2 + THREE.z v ^ 2)
                  = 10 + rnd (k + i * 3 + 2)%nat * chaosLevel * 5).
  { unfold v, mathShapes.case_SPHERE. apply spherical_norm. exact Hrad. }
  repeat split; try assumption; rewrite Hnorm; nra.
Qed.

Lemma sphere_points_radius_witness :
  0 <= 0.5 <= 1 /\
  (let buf := fst (getShapePositions First zeros SPHERE 1 0.5 0%nat) in
   exists x y z,
     buf !! 0%nat = Some x /\
     buf !! 1%nat = Some y /\
     buf !! 2%nat = Some z /\
     sqrt (x ^ 2 + y ^ 2 + z ^ 2) = 10 + zeros 2%nat * 0.5 * 5 /\
     10 <= sqrt (x ^ 2 + y ^ 2 + z ^ 2) <= 10 + 5 * 0.5).
Proof.
  assert (Hc : 0 <= 0.5 <= 1) by lra.
  split; [exact Hc|].
  exact (sphere_points_radius First zeros 1 0.5 0%nat 0%nat zeros_range Hc (Nat.lt_0_succ 0)).
Defined.



(** ** The Lorenz case of the first revision in binary64 *)

Lemma lorenz_binary64_period_small :
  forallb (fun m => Binary64.all_small (Binary64.case_LORENZ_ATTRACTOR m)) (seq 0 2000)
  = true.
Proof. vm_compute. reflexivity. Qed.

(** Evaluated in binary64 as the source evaluates it, the Lorenz case of the
    first revision gives every particle, whatever its index, three
    coordinates of magnitude at most 64: none is NaN or infinite, and none
    becomes so when stored in the [Float32Array]. *)
Theorem lorenz_binary64_finite i :
  Binary64.all_small (Binary64.case_LORENZ_ATTRACTOR i) = true.
Proof.
  assert (E : Binary64.case_LORENZ_ATTRACTOR i
              = Binary64.case_LORENZ_ATTRACTOR (i mod 2000)).
  { unfold Binary64.case_LORENZ_ATTRACTOR. rewrite Nat.Div0.mod_mod. reflexivity. }
  rewrite E.
  pose proof lorenz_binary64_period_small as H.
  rewrite forallb_forall in H. apply H.
  apply in_seq. pose proof (Nat.mod_upper_bound i 2000). lia.
Qed.

(** ** The size of the two buffers *)

Lemma typed_set_same_length dst src : length src = length dst -> typed_set dst src = src.
Proof.
  intros H. unfold typed_set. rewrite drop_ge by lia. apply app_nil_r.
Qed.

Lemma particles_length rnd ls vol tgt n :
  forall i cur k, length (fst (particles rnd ls vol tgt n i cur k)) = length cur.
Proof.
  induction n as [|n IH]; intros i cur k; [reflexivity|].
  cbn [particles]. destruct (Math.gt vol 0.8).
  - unfold bind, Math.random. rewrite IH, !length_add_at. reflexivity.
  - rewrite IH, !length_add_at. reflexivity.
Qed.

Lemma integrationStep_length rev rnd count vol s :
  length (positions (integrationStep rev rnd count vol s)) = length (positions s).
Proof.
  destruct rev; cbn [integrationStep];
    [unfold V1.updateParticles | unfold V2.updateParticles];
    destruct (pointsRef s); try reflexivity;
    try (destruct (Math.lt _ _); try reflexivity);
    unfold VisualizerScene.updateParticles;
    match goal with |- context [particles rnd ?ls vol] =>
      pose proof (particles_length rnd ls vol (targetPositionsRef s) count
                    0%nat (positions s) (seed s)) as H
    end;
    destruct (particles _ _ _ _ _ _ _ _) as [c k]; exact H.
Qed.

Lemma morphStep_target_length rev rnd count config time vol s :
  length (targetPositionsRef s) = (count * 3)%nat ->
  length (targetPositionsRef (morphStep rev rnd count config time vol s)) = (count * 3)%nat.
Proof.
  intros H.
  destruct rev; cbn [morphStep]; [unfold V1.shapeSwitching | unfold V2.shapeSwitching];
    unfold VisualizerScene.shapeSwitching;
    (destruct (Math.gt _ _); [|assumption]);
    (destruct (_ || _); [|assumption]);
    unfold Math.random.
  - pose proof (getShapePositions_length First rnd) as E. cbn [getShapePositions] in E.
    match goal with |- context [mathShapes.V1.getShapePositions rnd ?a ?b ?c ?d] =>
      specialize (E a b c d); destruct (mathShapes.V1.getShapePositions rnd a b c d) end.
    cbn [fst targetPositionsRef] in *. rewrite typed_set_same_length by lia. assumption.
  - pose proof (getShapePositions_length Second rnd) as E. cbn [getShapePositions] in E.
    match goal with |- context [mathShapes.V2.getShapePositions rnd ?a ?b ?c ?d] =>
      specialize (E a b c d); destruct (mathShapes.V2.getShapePositions rnd a b c d) end.
    cbn [fst targetPositionsRef] in *. rewrite typed_set_same_length by lia. assumption.
Qed.

(** The size invariant of the data model: a frame and a configuration effect
    keep both buffers at three coordinates per particle. *)
Theorem buffers_keep_their_size rev rnd count config time audio gesture s :
  well_formed count s ->
  well_formed count (useFrame rev rnd count config time audio gesture s) /\
  well_formed count (useEffect rev rnd count config s).
Proof.
  intros [Hp Ht]. split.
  - destruct (useFrame_morph rev rnd count config time audio gesture s) as (_ & _ & E3).
    split.
    + destruct (morphStep_frame rev rnd count config time (volume audio) s) as (M & _).
      destruct rev; cbn [useFrame]; [unfold V1.useFrame | unfold V2.useFrame];
        fold (volume audio).
      * pose proof (integrationStep_length First rnd count (volume audio)
                      (V1.shapeSwitching rnd count config time (volume audio) s)) as L.
        cbn [integrationStep morphStep] in *. rewrite L, M. exact Hp.
      * pose proof (integrationStep_length Second rnd count (volume audio)
                      (V2.gestureUpdates gesture
                         (V2.shapeSwitching rnd count config time (volume audio) s))) as L.
        destruct (gestureUpdates_frame gesture
                    (V2.shapeSwitching rnd count config time (volume audio) s)) as (G & _).
        cbn [integrationStep morphStep] in *. rewrite L, G, M. exact Hp.
    + rewrite E3. apply morphStep_target_length. exact Ht.
  - destruct (useEffect_frame rev rnd count config s) as (U1 & _ & _ & _ & _ & U6).
    split; [rewrite U1; exact Hp|].
    rewrite U6, typed_set_same_length; rewrite getShapePositions_length; [reflexivity|lia].
Qed.

Lemma buffers_keep_their_size_witness :
  well_formed 1 (one_particle 0) /\
  well_formed 1 (useFrame Second zeros 1 DEFAULT_VISUAL_CONFIG 21 loud_audio
                   (mkGestureState fist resting_hand) (one_particle 0)) /\
  well_formed 1 (useEffect Second zeros 1 DEFAULT_VISUAL_CONFIG (one_particle 0)).
Proof.
  assert (H : well_formed 1 (one_particle 0)) by (split; reflexivity).
  split; [exact H|].
  exact (buffers_keep_their_size Second zeros 1 DEFAULT_VISUAL_CONFIG 21 loud_audio
           (mkGestureState fist resting_hand) (one_particle 0) H).
Defined.

(** ** Runs of quiet frames *)

(** Over any run of frames under one configuration (so that the
    configuration effect does not run in between) that all have energy below
    the switch threshold and a clock less than the forced-switch maximum
    past the stored transition time, the current shape never changes (nor do
    the stored transition time and the target buffer).  The stored time is
    0 once the configuration effect has run, so the premise is about the
    clock itself then, not about the time since the assignment. *)
Theorem quiet_run_keeps_shape rev rnd count config ticks s :
  Forall (fun t => tick_config t = config /\
                   volume (tick_audio t) < switchThreshold rev /\
                   timeSinceLastChange (tick_time t) s < forceSwitchTime rev) ticks ->
  let s' := run rev rnd count ticks s in
  currentShapeRef s' = currentShapeRef s /\
  lastShapeChangeTime s' = lastShapeChangeTime s /\
  targetPositionsRef s' = targetPositionsRef s.
Proof.
  unfold run. revert s. induction ticks as [|t ticks IH]; intros s Hall; [simpl; auto|].
  inversion Hall as [|? ? (_ & Hv & Ht) Hrest]; subst. cbn [fold_left].
  destruct (useFrame_quiet rev rnd count (tick_config t) (tick_time t) (tick_audio t)
              (tick_gesture t) s Hv Ht) as (E1 & E2 & E3).
  set (s1 := useFrame rev rnd count (tick_config t) (tick_time t) (tick_audio t)
               (tick_gesture t) s) in *.
  destruct (IH s1) as (F1 & F2 & F3).
  - eapply Forall_impl; [exact Hrest|]. intros t' (Hc' & Hv' & Ht').
    split; [exact Hc'|]. split; [exact Hv'|].
    unfold timeSinceLastChange in *. rewrite E2. exact Ht'.
  - cbn zeta in *. rewrite F1, F2, F3. auto.
Qed.

Lemma quiet_run_keeps_shape_witness :
  let quiet time := mkTick DEFAULT_VISUAL_CONFIG time quiet_audio
                      (mkGestureState resting_hand resting_hand) in
  let s' := run First zeros 1 [quiet 1; quiet 9; quiet 19] (one_particle 0) in
  currentShapeRef s' = SPHERE /\
  lastShapeChangeTime s' = 0 /\
  targetPositionsRef s' = [1; 0; 0].
Proof.
  cbn zeta.
  apply (quiet_run_keeps_shape First zeros 1 DEFAULT_VISUAL_CONFIG _ (one_particle 0)).
  repeat constructor; cbn;
    unfold volume, timeSinceLastChange, V1.switchThreshold, V1.forceSwitchTime; cbn; lra.
Defined.

(** ** The firing condition of the morph step *)

Lemma gt_spec a b : Math.gt a b = true <-> b < a.
Proof.
  unfold Math.gt. destruct (Rlt_dec b a); split; intros H; try assumption;
    try reflexivity; try discriminate; contradiction.
Qed.

Lemma morphStep_fires rev rnd count config time vol s :
  cooldown rev < timeSinceLastChange time s ->
  switchThreshold rev < vol \/ forceSwitchTime rev < timeSinceLastChange time s ->
  let s' := morphStep rev rnd count config time vol s in
  currentShapeRef s' = picked rev rnd s /\
  lastShapeChangeTime s' = time /\
  targetPositionsRef s' =
    typed_set (targetPositionsRef s)
      (fst (getShapePositions rev rnd (picked rev rnd s) count
              (Math.min 1 (chaos config + vol * 0.2)) (S (seed s)))).
Proof.
  unfold timeSinceLastChange. intros Hcd Hor.
  assert (Hb : Math.gt vol (switchThreshold rev)
               || Math.gt (time - lastShapeChangeTime s) (forceSwitchTime rev) = true).
  { destruct Hor as [H|H]; rewrite (gt_true _ _ H); [reflexivity | apply orb_true_r]. }
  destruct rev; cbn [morphStep forceSwitchTime cooldown switchThreshold getShapePositions] in *;
    [unfold V1.shapeSwitching | unfold V2.shapeSwitching];
    unfold VisualizerScene.shapeSwitching;
    rewrite (gt_true _ _ Hcd), Hb;
    unfold Math.random, picked; cbn [allShapes];
    destruct (_ rnd _ count _ (S (seed s))) as [t k] eqn:E; simpl; auto.
Qed.

Lemma morphStep_rests rev rnd count config time vol s :
  ~ (cooldown rev < timeSinceLastChange time s /\
     (switchThreshold rev < vol \/ forceSwitchTime rev < timeSinceLastChange time s)) ->
  morphStep rev rnd count config time vol s = s.
Proof.
  unfold timeSinceLastChange. intros Hn.
  destruct rev; cbn [morphStep forceSwitchTime cooldown switchThreshold] in *;
    [unfold V1.shapeSwitching | unfold V2.shapeSwitching];
    unfold VisualizerScene.shapeSwitching;
    (destruct (Math.gt (time - lastShapeChangeTime s) _) eqn:E1; [|reflexivity]);
    (destruct (Math.gt vol _ || Math.gt _ _) eqn:E2; [|reflexivity]);
    exfalso; apply Hn; (split; [apply gt_spec, E1|]);
    apply orb_true_iff in E2; destruct E2 as [E2|E2]; [left|right|left|right];
    apply gt_spec, E2.
Qed.

Lemma useFrame_fires rev rnd count config time audio gesture s :
  0 <= rnd (seed s) < 1 ->
  cooldown rev < timeSinceLastChange time s ->
  switchThreshold rev < volume audio \/ forceSwitchTime rev < timeSinceLastChange time s ->
  let s' := useFrame rev rnd count config time audio gesture s in
  currentShapeRef s' <> currentShapeRef s /\
  currentShapeRef s' ∈ allShapes rev /\
  lastShapeChangeTime s' = time /\
  targetPositionsRef s' =
    typed_set (targetPositionsRef s)
      (fst (getShapePositions rev rnd (currentShapeRef s') count
              (Math.min 1 (chaos config + volume audio * 0.2)) (S (seed s)))).
Proof.
  intros Hrnd Hcd Hor s'.
  destruct (useFrame_morph rev rnd count config time audio gesture s) as (E1 & E2 & E3).
  fold s' in E1, E2, E3.
  destruct (morphStep_fires rev rnd count config time (volume audio) s Hcd Hor)
    as (F1 & F2 & F3).
  destruct (picked_other rev rnd s Hrnd) as [P1 P2].
  rewrite E1, E2, E3, F1, F2, F3. auto.
Qed.

(** The frame fires a transition exactly when its clock is more than the
    cooldown past the stored transition time and either the energy is above
    the switch threshold or the clock is more than the forced-switch maximum
    past the stored time.  When it fires, the new shape is another kind of
    the enumeration, the stored time becomes the frame's clock, and the
    target buffer becomes the buffer generated for the new shape with the
    chaos level [min(1, config.chaos + 0.2 * energy)]; when it does not,
    shape, stored time and target are those before the frame. *)
Theorem transition_fires_exactly_when rev rnd count config time audio gesture s :
  (forall k, 0 <= rnd k < 1) ->
  length (targetPositionsRef s) = (count * 3)%nat ->
  let s' := useFrame rev rnd count config time audio gesture s in
  let elapsed := timeSinceLastChange time s in
  let fires := cooldown rev < elapsed /\
               (switchThreshold rev < volume audio \/ forceSwitchTime rev < elapsed) in
  (fires ->
     currentShapeRef s' <> currentShapeRef s /\
     currentShapeRef s' ∈ allShapes rev /\
     lastShapeChangeTime s' = time /\
     targetPositionsRef s' =
       fst (getShapePositions rev rnd (currentShapeRef s') count
              (Math.min 1 (chaos config + volume audio * 0.2)) (S (seed s)))) /\
  (~ fires ->
     currentShapeRef s' = currentShapeRef s /\
     lastShapeChangeTime s' = lastShapeChangeTime s /\
     targetPositionsRef s' = targetPositionsRef s).
Proof.
  intros Hrnd Hlen s' elapsed fires.
  destruct (useFrame_morph rev rnd count config time audio gesture s) as (E1 & E2 & E3).
  fold s' in E1, E2, E3. split.
  - intros [Hcd Hor].
    destruct (useFrame_fires rev rnd count config time audio gesture s (Hrnd _) Hcd Hor)
      as (A & B & C & D). fold s' in A, B, C, D.
    split; [exact A|]. split; [exact B|]. split; [exact C|].
    rewrite D. apply typed_set_same_length.
    rewrite getShapePositions_length. symmetry. exact Hlen.
  - intros Hn. rewrite E1, E2, E3, (morphStep_rests _ _ _ _ _ _ _ Hn). auto.
Qed.

Lemma transition_fires_exactly_when_witness :
  (forall k, 0 <= zeros k < 1) /\
  length (targetPositionsRef (one_particle 0)) = (1 * 3)%nat /\
  (let s := one_particle 0 in
   let s' := useFrame First zeros 1 DEFAULT_VISUAL_CONFIG 9 loud_audio
               (mkGestureState resting_hand resting_hand) s in
   (cooldown First < timeSinceLastChange 9 s /\
    (switchThreshold First < volume loud_audio \/
     forceSwitchTime First < timeSinceLastChange 9 s)) /\
   currentShapeRef s' <> currentShapeRef s /\
   lastShapeChangeTime s' = 9 /\
   targetPositionsRef s' =
     fst (getShapePositions First zeros (currentShapeRef s') 1
            (Math.min 1 (chaos DEFAULT_VISUAL_CONFIG + volume loud_audio * 0.2))
            (S (seed s)))).
Proof.
  split; [exact zeros_range|]. split; [reflexivity|]. cbn zeta.
  assert (Hf : cooldown First < timeSinceLastChange 9 (one_particle 0) /\
               (switchThreshold First < volume loud_audio \/
                forceSwitchTime First < timeSinceLastChange 9 (one_particle 0))).
  { unfold timeSinceLastChange, volume; cbn; unfold V1.cooldown, V1.switchThreshold.
    split; [lra | left; lra]. }
  split; [exact Hf|].
  destruct (transition_fires_exactly_when First zeros 1 DEFAULT_VISUAL_CONFIG 9 loud_audio
              (mkGestureState resting_hand resting_hand) (one_particle 0) zeros_range
              eq_refl)
    as [Hfire _].
  destruct (Hfire Hf) as (A & _ & B & C). split; [exact A|]. split; [exact B | exact C].
Defined.

(** ** The cooldown *)

Lemma useFrame_cooldown rev rnd count config time audio gesture s :
  timeSinceLastChange time s <= cooldown rev ->
  let s' := useFrame rev rnd count config time audio gesture s in
  currentShapeRef s' = currentShapeRef s /\
  lastShapeChangeTime s' = lastShapeChangeTime s /\
  targetPositionsRef s' = targetPositionsRef s.
Proof.
  intros Hcd s'.
  destruct (useFrame_morph rev rnd count config time audio gesture s) as (E1 & E2 & E3).
  fold s' in E1, E2, E3.
  rewrite E1, E2, E3, morphStep_rests; [auto|]. intros [H _]. lra.
Qed.

(** A frame that changed the current shape set the transition time to its
    own time. *)
Lemma useFrame_changed rev rnd count config time audio gesture s :
  let s' := useFrame rev rnd count config time audio gesture s in
  currentShapeRef s' <> currentShapeRef s -> lastShapeChangeTime s' = time.
Proof.
  intros s' Hne.
  destruct (useFrame_morph rev rnd count config time audio gesture s) as (E1 & E2 & E3).
  fold s' in E1, E2, E3.
  destruct (Rlt_dec (cooldown rev) (timeSinceLastChange time s)) as [Hcd|Hcd].
  - destruct (Rlt_dec (switchThreshold rev) (volume audio)) as [Hv|Hv].
    + rewrite E2. apply morphStep_fires; [assumption | left; assumption].
    + destruct (Rlt_dec (forceSwitchTime rev) (timeSinceLastChange time s)) as [Hf|Hf].
      * rewrite E2. apply morphStep_fires; [assumption | right; assumption].
      * exfalso. apply Hne. rewrite E1, morphStep_rests; [reflexivity|]. tauto.
  - exfalso. apply Hne. rewrite E1, morphStep_rests; [reflexivity|]. tauto.
Qed.

(** After a frame that changed the shape, the shape and its target are held
    through every following frame under the same configuration (so that the
    configuration effect does not run in between) whose clock is within the
    cooldown of that frame's, however loud the audio and whatever the
    gestures. *)
Theorem shape_held_through_cooldown rev rnd count tick ticks s :
  let s1 := useFrame rev rnd count (tick_config tick) (tick_time tick)
              (tick_audio tick) (tick_gesture tick) s in
  let s2 := run rev rnd count ticks s1 in
  currentShapeRef s1 <> currentShapeRef s ->
  Forall (fun t => tick_config t = tick_config tick /\
                   tick_time t - tick_time tick <= cooldown rev) ticks ->
  currentShapeRef s2 = currentShapeRef s1 /\
  targetPositionsRef s2 = targetPositionsRef s1 /\
  lastShapeChangeTime s2 = tick_time tick.
Proof.
  intros s1 s2 Hne Hall.
  pose proof (useFrame_changed rev rnd count (tick_config tick) (tick_time tick)
                (tick_audio tick) (tick_gesture tick) s Hne) as Hlast.
  fold s1 in Hlast. subst s2. clearbody s1. clear Hne s.
  unfold run. revert s1 Hlast.
  induction ticks as [|t ticks IH]; intros s1 Hlast; [simpl; auto|].
  inversion Hall as [|? ? [_ Ht] Hrest]; subst. cbn [fold_left].
  destruct (useFrame_cooldown rev rnd count (tick_config t) (tick_time t) (tick_audio t)
              (tick_gesture t) s1) as (E1 & E2 & E3).
  { unfold timeSinceLastChange. rewrite Hlast. exact Ht. }
  destruct (IH Hrest _ ltac:(rewrite E2; exact Hlast)) as (F1 & F2 & F3).
  rewrite F1, F2, F3, E1, E3. auto.
Qed.

Lemma shape_held_through_cooldown_witness :
  let gesture := mkGestureState resting_hand resting_hand in
  let tick := mkTick DEFAULT_VISUAL_CONFIG 9 loud_audio gesture in
  let loud time := mkTick DEFAULT_VISUAL_CONFIG time loud_audio gesture in
  let s := one_particle 0 in
  let s1 := useFrame First zeros 1 (tick_config tick) (tick_time tick)
              (tick_audio tick) (tick_gesture tick) s in
  let s2 := run First zeros 1 [loud 10; loud 17] s1 in
  currentShapeRef s1 <> currentShapeRef s /\
  currentShapeRef s2 = currentShapeRef s1 /\
  targetPositionsRef s2 = targetPositionsRef s1 /\
  lastShapeChangeTime s2 = 9.
Proof.
  cbn zeta.
  assert (Hne : currentShapeRef
                  (useFrame First zeros 1 DEFAULT_VISUAL_CONFIG 9 loud_audio
                     (mkGestureState resting_hand resting_hand) (one_particle 0))
                <> currentShapeRef (one_particle 0)).
  { apply (useFrame_fires First zeros 1 DEFAULT_VISUAL_CONFIG 9 loud_audio
             (mkGestureState resting_hand resting_hand) (one_particle 0) (zeros_range _));
      unfold timeSinceLastChange, volume; cbn;
      unfold V1.cooldown, V1.switchThreshold; [lra | left; lra]. }
  split; [exact Hne|].
  apply (shape_held_through_cooldown First zeros 1
           (mkTick DEFAULT_VISUAL_CONFIG 9 loud_audio (mkGestureState resting_hand resting_hand))
           _ (one_particle 0) Hne).
  repeat constructor; cbn; unfold V1.cooldown; lra.
Defined.

(** ** The particle loop with the burst *)





(** ** Gesture smoothing over runs of frames *)

(** The material of the scene after a frame of the second revision. *)
Lemma useFrame_material rnd count config time audio gesture s :
  materialRef (useFrame Second rnd count config time audio gesture s) =
  match materialRef s with
  | Some u => Some (VisualizerScene.gestureUpdates gesture u)
  | None => None
  end.
Proof.
  cbn [useFrame]. unfold V2.useFrame. fold (volume audio).
  set (s1 := V2.shapeSwitching rnd count config time (volume audio) s).
  destruct (integrationStep_frame Second rnd count (volume audio)
              (V2.gestureUpdates gesture s1)) as (_ & _ & _ & _ & Hm).
  cbn [integrationStep] in Hm. rewrite Hm.
  destruct (morphStep_frame Second rnd count config time (volume audio) s) as (_ & _ & M).
  cbn [morphStep] in M. fold s1 in M.
  unfold V2.gestureUpdates. rewrite M.
  destruct (materialRef s) as [u|]; [reflexivity | exact M].
Qed.

Lemma gestureUpdates_in_range bound g u :
  gesture_in_range bound g -> uniforms_in_range bound u ->
  uniforms_in_range bound (VisualizerScene.gestureUpdates g u).
Proof.
  intros (Hs & Hx & Hy) (Hg & Ux & Uy).
  unfold uniforms_in_range, VisualizerScene.gestureUpdates, gripVal, THREE.lerp.
  destruct (active (rightHand g)); cbn [uHandGrip uRightHandPos THREE.set THREE.x THREE.y];
    (split; [destruct (active (leftHand g)); [destruct (isFist (leftHand g))|]; lra|]);
    split; lra.
Qed.

Lemma run_cons rev rnd count t ticks s :
  run rev rnd count (t :: ticks) s
  = run rev rnd count ticks
      (useFrame rev rnd count (tick_config t) (tick_time t) (tick_audio t)
         (tick_gesture t) s).
Proof. reflexivity. Qed.

(** The gesture uniforms keep to their ranges over any run of frames of the
    second revision whose gesture snapshots are within theirs: the smoothed
    grip stays in [-1, 1] and the smoothed hand position within the screen
    scale (30) times the bound on the hand coordinates. *)
Theorem gesture_uniforms_stay_in_range rnd count bound ticks s u :
  materialRef s = Some u ->
  uniforms_in_range bound u ->
  Forall (fun t => gesture_in_range bound (tick_gesture t)) ticks ->
  exists u', materialRef (run Second rnd count ticks s) = Some u' /\
             uniforms_in_range bound u' /\
             -1 <= smoothedGrip (run Second rnd count ticks s) <= 1.
Proof.
  intros Hm Hu Hall. revert s u Hm Hu.
  induction ticks as [|t ticks IH]; intros s u Hm Hu.
  - exists u. split; [exact Hm|]. split; [exact Hu|].
    unfold smoothedGrip, V2.handGrip. cbn [run fold_left]. rewrite Hm. apply Hu.
  - inversion Hall as [|? ? Ht Hrest]; subst. rewrite run_cons.
    apply (IH Hrest _ (VisualizerScene.gestureUpdates (tick_gesture t) u)).
    + rewrite useFrame_material, Hm. reflexivity.
    + apply gestureUpdates_in_range; assumption.
Qed.

Lemma gesture_uniforms_stay_in_range_witness :
  let g := mkGestureState fist (mkHand true false 0 1 (-1)) in
  let t := mkTick DEFAULT_VISUAL_CONFIG 1 quiet_audio g in
  let u := mkUniforms 0.9 (THREE.mkVector3 0 0 0) 0 in
  uniforms_in_range 1 u /\
  gesture_in_range 1 g /\
  exists u', materialRef (run Second zeros 1 [t; t; t] (one_particle 0.9)) = Some u' /\
             uniforms_in_range 1 u' /\
             -1 <= smoothedGrip (run Second zeros 1 [t; t; t] (one_particle 0.9)) <= 1.
Proof.
  cbn zeta.
  assert (Hu : uniforms_in_range 1 (mkUniforms 0.9 (THREE.mkVector3 0 0 0) 0))
    by (unfold uniforms_in_range; cbn; lra).
  assert (Hg : gesture_in_range 1 (mkGestureState fist (mkHand true false 0 1 (-1))))
    by (unfold gesture_in_range; cbn; lra).
  split; [exact Hu|]. split; [exact Hg|].
  apply (gesture_uniforms_stay_in_range zeros 1 1 _ (one_particle 0.9) _ eq_refl Hu).
  repeat (constructor; [exact Hg|]). constructor.
Defined.

(** The smoothed grip after a run of frames in which the left hand is not
    tracked. *)
Lemma released_grip_run rnd count ticks : forall s u,
  materialRef s = Some u ->
  Forall (fun t => active (leftHand (tick_gesture t)) = false) ticks ->
  smoothedGrip (run Second rnd count ticks s) = 0.9 ^ length ticks * uHandGrip u.
Proof.
  induction ticks as [|t ticks IH]; intros s u Hm Hall.
  - unfold smoothedGrip, V2.handGrip. cbn [run fold_left length pow]. rewrite Hm. lra.
  - inversion Hall as [|? ? Ht Hrest]; subst. rewrite run_cons.
    rewrite (IH _ (VisualizerScene.gestureUpdates (tick_gesture t) u));
      [|rewrite useFrame_material, Hm; reflexivity | exact Hrest].
    cbn [length pow].
    assert (E : uHandGrip (VisualizerScene.gestureUpdates (tick_gesture t) u)
                = 0.9 * uHandGrip u).
    { unfold VisualizerScene.gestureUpdates, gripVal, THREE.lerp. rewrite Ht.
      destruct (active (rightHand (tick_gesture t))); cbn [uHandGrip]; lra. }
    rewrite E. ring.
Qed.

Lemma pow_09_7 n : (7 <= n)%nat -> 0 < 0.9 ^ n < 0.48.
Proof.
  intros Hn. replace n with (7 + (n - 7))%nat by lia. rewrite pow_add.
  assert (H7 : 0.9 ^ 7 = 0.4782969) by (simpl; lra).
  assert (Hp : 0 < 0.9 ^ (n - 7)) by (apply pow_lt; lra).
  assert (Hq : 0.9 ^ (n - 7) <= 1).
  { rewrite <- (pow1 (n - 7)). apply pow_incr. lra. }
  rewrite H7. nra.
Qed.

(** Releasing the left hand: while it is not tracked the smoothed grip
    decays by a tenth per frame, so that from any grip of at most 1 it is
    below the strong-implosion threshold 0.5 after seven frames, and the
    particle update is no longer held back. *)
Theorem released_hand_resumes_morph rnd count ticks s u :
  materialRef s = Some u ->
  Forall (fun t => active (leftHand (tick_gesture t)) = false) ticks ->
  let s' := run Second rnd count ticks s in
  smoothedGrip s' = 0.9 ^ length ticks * uHandGrip u /\
  (uHandGrip u <= 1 -> (7 <= length ticks)%nat ->
     smoothedGrip s' < 0.5 /\ Math.lt (V2.handGrip s') 0.5 = true).
Proof.
  intros Hm Hall s'.
  pose proof (released_grip_run rnd count ticks s u Hm Hall) as E. fold s' in E.
  split; [exact E|]. intros Hu Hn.
  assert (Hlt : smoothedGrip s' < 0.5).
  { rewrite E. pose proof (pow_09_7 _ Hn). nra. }
  split; [exact Hlt|]. apply lt_true. exact Hlt.
Qed.

Lemma released_hand_resumes_morph_witness :
  let t := mkTick DEFAULT_VISUAL_CONFIG 1 quiet_audio
             (mkGestureState resting_hand resting_hand) in
  let s' := run Second zeros 1 [t; t; t; t; t; t; t] (one_particle 0.9) in
  smoothedGrip s' < 0.5 /\ Math.lt (V2.handGrip s') 0.5 = true.
Proof.
  cbn zeta.
  set (t := mkTick DEFAULT_VISUAL_CONFIG 1 quiet_audio
              (mkGestureState resting_hand resting_hand)).
  assert (Hall : Forall (fun t => active (leftHand (tick_gesture t)) = false)
                   [t; t; t; t; t; t; t]) by (repeat constructor).
  destruct (released_hand_resumes_morph zeros 1 [t; t; t; t; t; t; t] (one_particle 0.9)
              (mkUniforms 0.9 (THREE.mkVector3 0 0 0) 0) eq_refl Hall) as [_ H].
  apply H; [cbn; lra | cbn; lia].
Defined.

(** ** The treble of a spectrum with bins, in binary64 *)

Section AudioFacts.
Import Floats Uint63.
#[local] Set Warnings "-inexact-float".
Open Scope float_scope.

(** Every partial sum up to 77 * 255 and every byte: the addition is exact. *)
Lemma add_exact_true :
  Table.all_from (Z.to_nat Table.max_sum + 1) 0%uint63
    (fun a => Table.all_from 256 0%uint63 (Table.add_is_exact a)) = true.
Proof. vm_compute. reflexivity. Qed.

(** Every length from 1 to 256. *)
Lemma treble_table_true : Table.all_from 256 1%uint63 Table.treble_ok = true.
Proof. vm_compute. reflexivity. Qed.


Lemma same_eq x y : Table.same x y = true -> x = y.
Proof.
  unfold Table.same. intros H. apply FloatAxioms.Prim2SF_inj.
  destruct (FloatOps.Prim2SF x) as [s|s| |s m e], (FloatOps.Prim2SF y) as [s'|s'| |s' m' e'];
    try discriminate.
  - apply Bool.eqb_prop in H. congruence.
  - apply Bool.eqb_prop in H. congruence.
  - reflexivity.
  - apply andb_prop in H as [H He]. apply andb_prop in H as [Hs Hm].
    apply Bool.eqb_prop in Hs. apply Pos.eqb_eq in Hm. apply Z.eqb_eq in He. congruence.
Qed.

Lemma equal_eq x y : Table.equal x y = true -> x = y.
Proof.
  unfold Table.equal.
  destruct (PrimFloat.ltb 0 x && PrimFloat.eqb x y)%bool eqn:E; [|apply same_eq].
  intros _. apply andb_prop in E as [Hpos Heq].
  rewrite FloatAxioms.ltb_spec in Hpos. rewrite FloatAxioms.eqb_spec in Heq.
  apply FloatAxioms.Prim2SF_inj.
  change (FloatOps.Prim2SF 0) with (SpecFloat.S754_zero false) in Hpos.
  unfold SpecFloat.SFltb, SpecFloat.SFeqb, SpecFloat.SFcompare in *.
  destruct (FloatOps.Prim2SF x) as [s|s| |s m e], (FloatOps.Prim2SF y) as [s'|s'| |s' m' e'];
    try discriminate; try (destruct s; discriminate);
    destruct s, s'; try discriminate; try reflexivity.
  destruct (e ?= e')%Z eqn:Ce; try discriminate. apply Z.compare_eq in Ce.
  destruct (Pos.compare_cont Eq m m') eqn:Cm; try discriminate.
  apply Pcompare_Eq_eq in Cm. congruence.
Qed.

Lemma wB_large : (100000 < Uint63.wB)%Z.
Proof. vm_compute. reflexivity. Qed.

Lemma of_Z_small z : (0 <= z < 100000)%Z -> Uint63.to_Z (Uint63.of_Z z) = z.
Proof.
  intros [H0 H1]. rewrite Uint63.of_Z_spec. apply Z.mod_small.
  split; [exact H0|]. apply Z.lt_trans with 100000%Z; [exact H1 | exact wB_large].
Qed.

Lemma of_Z_add a b :
  (0 <= a)%Z -> (0 <= b)%Z -> (a + b < 100000)%Z ->
  Uint63.add (Uint63.of_Z a) (Uint63.of_Z b) = Uint63.of_Z (a + b).
Proof.
  intros Ha Hb Hab. apply Uint63.to_Z_inj.
  rewrite Uint63.add_spec, !of_Z_small by lia. apply Z.mod_small.
  split; [lia|]. apply Z.lt_trans with 100000%Z; [exact Hab | exact wB_large].
Qed.

Lemma to_Z_succ z :
  (Uint63.to_Z z < 100000)%Z -> Uint63.to_Z (Uint63.add z 1) = (Uint63.to_Z z + 1)%Z.
Proof.
  intros H. pose proof (Uint63.to_Z_bounded z) as [H0 _].
  rewrite Uint63.add_spec. change (Uint63.to_Z 1) with 1%Z. apply Z.mod_small.
  split; [lia|]. apply Z.le_lt_trans with 100000%Z; [lia | exact wB_large].
Qed.

Lemma all_from_spec n : forall z p,
  (Uint63.to_Z z + Z.of_nat n < 100000)%Z ->
  Table.all_from n z p = true ->
  forall x, (Uint63.to_Z z <= x < Uint63.to_Z z + Z.of_nat n)%Z -> p (Uint63.of_Z x) = true.
Proof.
  induction n as [|n IH]; intros z p Hn H x Hx; [lia|].
  cbn [Table.all_from] in H. apply andb_prop in H as [H0 H1].
  destruct (Z.eq_dec x (Uint63.to_Z z)) as [->|Hne]; [rewrite Uint63.of_to_Z; exact H0|].
  apply (IH _ p) with (x := x) in H1; [exact H1 | |]; rewrite to_Z_succ by lia; lia.
Qed.

Lemma byte_range b : (0 <= Z.of_N (Byte.to_N b) <= 255)%Z.
Proof. pose proof (Byte.to_N_bounded b). lia. Qed.

Lemma byte_sum_range d n : forall i, (0 <= byte_sum d n i <= 255 * Z.of_nat n)%Z.
Proof.
  induction n as [|n IH]; intros i; cbn [byte_sum]; [lia|].
  pose proof (IH (S i)). pose proof (byte_range (nth i d Byte.x00)). lia.
Qed.

Lemma add_exact_spec a b :
  (0 <= a <= Table.max_sum)%Z -> (0 <= b <= 255)%Z ->
  PrimFloat.add (PrimFloat.of_uint63 (Uint63.of_Z a)) (PrimFloat.of_uint63 (Uint63.of_Z b))
  = PrimFloat.of_uint63 (Uint63.of_Z (a + b)).
Proof.
  intros Ha Hb.
  assert (Hmax : Table.max_sum = 19635%Z) by reflexivity.
  pose proof add_exact_true as T.
  apply all_from_spec with (x := a) in T;
    change (Uint63.to_Z 0) with 0%Z; [|rewrite Hmax; lia | rewrite Hmax in *; lia].
  apply all_from_spec with (x := b) in T;
    change (Uint63.to_Z 0) with 0%Z; [|lia | lia].
  unfold Table.add_is_exact in T. apply equal_eq in T.
  rewrite of_Z_add in T by (rewrite Hmax in Ha; lia). exact T.
Qed.

(** The loop computes the integer sum exactly, as long as it stays within
    the table. *)
Lemma sum_exact d n : forall i a,
  (0 <= a)%Z -> (a + 255 * Z.of_nat n <= Table.max_sum)%Z ->
  AudioFeatures.sum d n i (PrimFloat.of_uint63 (Uint63.of_Z a))
  = PrimFloat.of_uint63 (Uint63.of_Z (a + byte_sum d n i)).
Proof.
  induction n as [|n IH]; intros i a Ha Hn; cbn [AudioFeatures.sum byte_sum].
  - rewrite Z.add_0_r. reflexivity.
  - pose proof (byte_range (nth i d Byte.x00)) as Hb.
    unfold AudioFeatures.of_byte.
    rewrite add_exact_spec by lia.
    rewrite IH by lia. f_equal. f_equal. lia.
Qed.

(** With between 1 and 256 bins (an analyser of [ANALYSER_FFT_SIZE = 512]
    gives 256), the treble the frame computes in binary64 is a number of
    [0, 1], whatever the bins hold: the lower bound [floor(length * 0.7)] is
    below the length, so the mean is taken over at least one bin. *)
Theorem treble_of_bins_in_range dataArray :
  (1 <= length dataArray <= 256)%nat ->
  AudioFeatures.in_unit (AudioFeatures.treble dataArray) = true /\
  PrimFloat.is_nan (AudioFeatures.treble dataArray) = false.
Proof.
  intros Hlen.
  pose proof treble_table_true as T.
  apply all_from_spec with (x := Z.of_nat (length dataArray)) in T;
    change (Uint63.to_Z 1) with 1%Z; [|lia | lia].
  rename T into Tn. unfold Table.treble_ok in Tn. cbv beta zeta in Tn.
  rewrite of_Z_small in Tn by lia.
  unfold AudioFeatures.treble, AudioFeatures.of_nat.
  set (n := length dataArray) in *.
  set (lb := AudioFeatures.floor
               (PrimFloat.mul (PrimFloat.of_uint63 (Uint63.of_Z (Z.of_nat n))) 0.7)) in *.
  apply andb_prop in Tn as [Tn Ts]. apply andb_prop in Tn as [Tn Hmax].
  apply andb_prop in Tn as [Hlb Hbins].
  apply Z.leb_le in Hlb, Hbins, Hmax.
  cbv zeta.
  rewrite Z2Nat.id by exact Hlb.
  assert (Hm : Z.of_nat (n - Z.to_nat lb) = (Z.of_nat n - lb)%Z) by lia.
  change 0 with (PrimFloat.of_uint63 (Uint63.of_Z 0)).
  rewrite sum_exact by (unfold Table.max_sum, Table.max_bins in *; lia).
  rewrite Z.add_0_l.
  pose proof (byte_sum_range dataArray (n - Z.to_nat lb) (Z.to_nat lb)) as Hs.
  apply all_from_spec
    with (x := byte_sum dataArray (n - Z.to_nat lb) (Z.to_nat lb)) in Ts;
    change (Uint63.to_Z 0) with 0%Z; [|unfold Table.max_bins in *; lia | lia].
  rename Ts into R.
  cbv beta zeta in R. apply andb_prop in R as [R1 R2].
  split; [exact R1|]. apply negb_true_iff in R2. exact R2.
Qed.

End AudioFacts.

Lemma treble_of_bins_in_range_witness :
  (1 <= length (frequencyData loud_audio) <= 256)%nat /\
  AudioFeatures.in_unit (AudioFeatures.treble (frequencyData loud_audio)) = true /\
  PrimFloat.is_nan (AudioFeatures.treble (frequencyData loud_audio)) = false.
Proof.
  assert (H : (1 <= length (frequencyData loud_audio) <= 256)%nat) by (cbn; lia).
  split; [exact H|]. exact (treble_of_bins_in_range (frequencyData loud_audio) H).
Defined.

(** ** The loop of [getShapePositions], whatever the body draws *)

Section FillPoints.
Context {L : Type}.
Variable body : nat -> L -> State nat (THREE.Vector3 * L).

Lemma fill_untouched n : forall i l ps k j,
  (j < i * 3)%nat ->
  fst (mathShapes.fill body n i l ps k) !! j = ps !! j.
Proof.
  induction n as [|n IH]; intros i l ps k j Hj; simpl; [reflexivity|].
  unfold bind. destruct (body i l k) as [[d l'] k']. simpl.
  rewrite IH by lia.
  rewrite !list_lookup_insert_ne by lia. reflexivity.
Qed.

(** [Inv] holds of the loop's variables before every iteration, and [P i]
    of the value iteration [i] leaves in [dummy]. *)
Variable count : nat.
Variable Inv : L -> Prop.
Variable P : nat -> THREE.Vector3 -> Prop.
Hypothesis body_ok : forall i l k,
  (i < count)%nat -> Inv l ->
  P i (fst (fst (body i l k))) /\ Inv (snd (fst (body i l k))).

Lemma fill_points n : forall i l ps k,
  (i + n <= count)%nat -> Inv l -> ((i + n) * 3 <= length ps)%nat ->
  forall j, (i <= j < i + n)%nat ->
  exists v, P j v /\ particle_at (fst (mathShapes.fill body n i l ps k)) j v.
Proof.
  induction n as [|n IH]; intros i l ps k Hc Hinv Hlen j Hj; [lia|].
  simpl. unfold bind.
  destruct (body_ok i l k ltac:(lia) Hinv) as [HP HI].
  destruct (body i l k) as [[d l'] k']. cbn [fst snd] in *.
  destruct (decide (j = i)) as [->|Hne].
  - exists d. split; [exact HP|]. unfold particle_at.
    rewrite !fill_untouched by lia.
    rewrite list_lookup_insert_ne by lia.
    rewrite list_lookup_insert_ne by lia.
    rewrite list_lookup_insert_eq by lia.
    rewrite list_lookup_insert_ne by lia.
    rewrite list_lookup_insert_eq by (rewrite length_insert; lia).
    rewrite list_lookup_insert_eq by (rewrite !length_insert; lia).
    auto.
  - apply IH; [lia | exact HI | rewrite !length_insert; lia | lia].
Qed.
End FillPoints.

(** Two bodies that leave the same value in [dummy] and draw the same
    numbers fill the same buffer, whatever variables they carry along. *)
Lemma fill_simulation {L1 L2 : Type}
    (body1 : nat -> L1 -> State nat (THREE.Vector3 * L1))
    (body2 : nat -> L2 -> State nat (THREE.Vector3 * L2)) :
  (forall i l1 l2 k, fst (fst (body2 i l2 k)) = fst (fst (body1 i l1 k)) /\
                     snd (body2 i l2 k) = snd (body1 i l1 k)) ->
  forall n i l1 l2 ps k,
    mathShapes.fill body2 n i l2 ps k = mathShapes.fill body1 n i l1 ps k.
Proof.
  intros H. induction n as [|n IH]; intros i l1 l2 ps k; [reflexivity|].
  simpl. unfold bind.
  destruct (H i l1 l2 k) as [Hv Hk].
  destruct (body1 i l1 k) as [[d1 l1'] k1], (body2 i l2 k) as [[d2 l2'] k2].
  cbn [fst snd] in *. subst. apply IH.
Qed.

(** ** The kinds both revisions generate alike *)

Lemma eqb_false_of_notin (type tag : VisualShape) (l : list VisualShape) :
  type ∉ l -> tag ∈ l -> (type === tag) = false.
Proof.
  intros Hn Hin. apply String.eqb_neq. intros ->. contradiction.
Qed.

Lemma V2_body_shared rnd type count chaosLevel i a k :
  type ∉ integrated ->
  fst (fst (mathShapes.V2.body rnd type count chaosLevel i a k))
  = fst (fst (mathShapes.V1.body rnd type count chaosLevel i tt k)) /\
  snd (fst (mathShapes.V2.body rnd type count chaosLevel i a k)) = a /\
  snd (mathShapes.V2.body rnd type count chaosLevel i a k)
  = snd (mathShapes.V1.body rnd type count chaosLevel i tt k).
Proof.
  intros Hn.
  assert (EL : (type === LORENZ_ATTRACTOR) = false)
    by (apply (eqb_false_of_notin _ _ integrated Hn), list_elem_of_In; simpl; tauto).
  assert (EA : (type === AIZAWA_ATTRACTOR) = false)
    by (apply (eqb_false_of_notin _ _ integrated Hn), list_elem_of_In; simpl; tauto).
  assert (ET : (type === THOMAS_ATTRACTOR) = false)
    by (apply (eqb_false_of_notin _ _ integrated Hn), list_elem_of_In; simpl; tauto).
  assert (EC : (type === CLIFFORD_ATTRACTOR) = false)
    by (apply (eqb_false_of_notin _ _ integrated Hn), list_elem_of_In; simpl; tauto).
  unfold mathShapes.V2.body, mathShapes.V1.body, bind, Math.random, ret.
  rewrite EL, EA, ET, EC.
  repeat match goal with
         | |- context [if ?t === ?c then _ else _] => destruct (t === c)
         end;
    repeat match goal with
           | |- context [let (_, _) := ?m in _] => destruct m
           end;
    cbn [fst snd]; auto.
Qed.

Lemma getShapePositions_shared rnd type count chaosLevel k :
  type ∉ integrated ->
  mathShapes.V2.getShapePositions rnd type count chaosLevel k
  = mathShapes.V1.getShapePositions rnd type count chaosLevel k.
Proof.
  intros Hn. unfold mathShapes.V2.getShapePositions, mathShapes.V1.getShapePositions.
  apply fill_simulation. intros i [] a k'.
  destruct (V2_body_shared rnd type count chaosLevel i a k' Hn) as (H1 & _ & H3). auto.
Qed.

(** Refactoring the generator for the attractors left every other kind as
    it was: for a kind that is none of the four integrated ones (a kind
    outside the enumeration included), the second revision returns the same
    buffer as the first and leaves the random stream at the same position. *)
Theorem revisions_agree_on_shared_kinds rnd type count chaosLevel k :
  type ∉ integrated ->
  mathShapes.V2.getShapePositions rnd type count chaosLevel k
  = mathShapes.V1.getShapePositions rnd type count chaosLevel k.
Proof. exact (getShapePositions_shared rnd type count chaosLevel k). Qed.

Lemma revisions_agree_on_shared_kinds_witness :
  (TORUS ∉ integrated) /\
  mathShapes.V2.getShapePositions zeros TORUS 2 0.5 0%nat
  = mathShapes.V1.getShapePositions zeros TORUS 2 0.5 0%nat.
Proof.
  assert (H : TORUS ∉ integrated)
    by (rewrite list_elem_of_In; simpl; intuition discriminate).
  split; [exact H|].
  exact (revisions_agree_on_shared_kinds zeros TORUS 2 0.5 0%nat H).
Defined.

(** ** What every particle of a kind satisfies *)

(** A property of the value the first revision's body leaves in [dummy] is a
    property of every particle of the buffer, in both revisions, for the
    kinds they share. *)
Lemma shared_kind_points rev rnd type count chaosLevel k (P : nat -> THREE.Vector3 -> Prop) :
  type ∉ integrated ->
  (forall i k', (i < count)%nat ->
     P i (fst (fst (mathShapes.V1.body rnd type count chaosLevel i tt k')))) ->
  forall i, (i < count)%nat ->
  exists v, P i v /\ particle_at (fst (getShapePositions rev rnd type count chaosLevel k)) i v.
Proof.
  intros Hn HP i Hi.
  assert (E : getShapePositions rev rnd type count chaosLevel k
              = mathShapes.V1.getShapePositions rnd type count chaosLevel k).
  { destruct rev; [reflexivity|]. apply getShapePositions_shared. exact Hn. }
  rewrite E. unfold mathShapes.V1.getShapePositions.
  apply (fill_points _ count (fun _ => True) P) with (n := count) (i := 0%nat);
    try lia; try exact I.
  - intros i' [] k' Hi' _. split; [apply HP; assumption | exact I].
  - rewrite length_replicate. lia.
Qed.

Ltac not_integrated := rewrite list_elem_of_In; simpl; intuition discriminate.

(** Scaling a vector by [s >= 0] scales its norm by [s]. *)
Lemma norm_multiplyScalar v s : 0 <= s -> norm (THREE.multiplyScalar v s) = s * norm v.
Proof.
  intros Hs. unfold norm, THREE.multiplyScalar. cbn [THREE.x THREE.y THREE.z].
  apply distance_scaled; [assumption | ring | ring | ring].
Qed.

Lemma norm_spherical radius phi theta :
  0 <= radius -> norm (THREE.setFromSphericalCoords radius phi theta) = radius.
Proof. intros H. apply spherical_norm. exact H. Qed.

(** A point at angle [t] of a circle of radius [a >= 0]. *)
Lemma circle_radius a t : 0 <= a -> sqrt ((a * cos t) ^ 2 + (a * sin t) ^ 2) = a.
Proof.
  intros Ha. pose proof (sin2_cos2 t) as H. unfold Rsqr in H.
  replace ((a * cos t) ^ 2 + (a * sin t) ^ 2)
    with (a ^ 2 * (sin t * sin t + cos t * cos t)) by ring.
  rewrite H, Rmult_1_r. apply sqrt_pow2. exact Ha.
Qed.

(** *** The torus *)

(** Every particle of the torus lies on the torus of major radius 15 and
    minor radius [5 + 3 * chaosLevel] around the z axis. *)
Theorem torus_points_on_surface rev rnd count chaosLevel k i :
  0 <= chaosLevel <= 1 ->
  (i < count)%nat ->
  exists v,
    particle_at (fst (getShapePositions rev rnd TORUS count chaosLevel k)) i v /\
    (sqrt (THREE.x v ^ 2 + THREE.y v ^ 2) - 15) ^ 2 + THREE.z v ^ 2
    = (5 + chaosLevel * 3) ^ 2.
Proof.
  intros Hc Hi.
  destruct (shared_kind_points rev rnd TORUS count chaosLevel k
              (fun _ v => (sqrt (THREE.x v ^ 2 + THREE.y v ^ 2) - 15) ^ 2 + THREE.z v ^ 2
                          = (5 + chaosLevel * 3) ^ 2)) with (i := i)
    as (v & Hv & Hat); [not_integrated| |exact Hi|exists v; auto].
  intros i' k' _.
  change (fst (fst (mathShapes.V1.body rnd TORUS count chaosLevel i' tt k')))
    with (mathShapes.case_TORUS chaosLevel (rnd k') (rnd (S k'))).
  unfold mathShapes.case_TORUS. cbn [THREE.x THREE.y THREE.z].
  set (u := rnd k' * PI * 2). set (w := rnd (S k') * PI * 2).
  set (r := 5 + chaosLevel * 3).
  pose proof (COS_bound w) as [Hw1 Hw2].
  assert (HA : 0 <= 15 + r * cos w) by (unfold r; nra).
  replace (((15 + r * cos w) * cos u) ^ 2 + ((15 + r * cos w) * sin u) ^ 2)
    with (((15 + r * cos w) * cos u) ^ 2 + ((15 + r * cos w) * sin u) ^ 2) by reflexivity.
  rewrite (circle_radius _ u HA).
  pose proof (sin2_cos2 w) as H. unfold Rsqr in H.
  replace ((15 + r * cos w - 15) ^ 2 + (r * sin w) ^ 2)
    with (r ^ 2 * (sin w * sin w + cos w * cos w)) by ring.
  rewrite H. ring.
Qed.

Lemma torus_points_on_surface_witness :
  0 <= 0.5 <= 1 /\
  exists v,
    particle_at (fst (getShapePositions Second zeros TORUS 2 0.5 0%nat)) 1 v /\
    (sqrt (THREE.x v ^ 2 + THREE.y v ^ 2) - 15) ^ 2 + THREE.z v ^ 2
    = (5 + 0.5 * 3) ^ 2.
Proof.
  assert (Hc : 0 <= 0.5 <= 1) by lra.
  split; [exact Hc|].
  exact (torus_points_on_surface Second zeros 2 0.5 0%nat 1 Hc ltac:(lia)).
Defined.

(** *** The flower *)

(** Every particle of the flower lies between 5 and 25 from the origin,
    except every tenth one (the core), which lies between 1 and 5. *)
Theorem flower_points_radius rev rnd count chaosLevel k i :
  (i < count)%nat ->
  exists v,
    particle_at (fst (getShapePositions rev rnd CYBER_FLOWER count chaosLevel k)) i v /\
    if (i mod 10 =? 0)%nat then 1 <= norm v <= 5 else 5 <= norm v <= 25.
Proof.
  intros Hi.
  destruct (shared_kind_points rev rnd CYBER_FLOWER count chaosLevel k
              (fun i v => if (i mod 10 =? 0)%nat then 1 <= norm v <= 5
                          else 5 <= norm v <= 25)) with (i := i)
    as (v & Hv & Hat); [not_integrated| |exact Hi|exists v; auto].
  intros i' k' _.
  change (fst (fst (mathShapes.V1.body rnd CYBER_FLOWER count chaosLevel i' tt k')))
    with (mathShapes.case_CYBER_FLOWER i' chaosLevel (rnd k') (rnd (S k'))).
  unfold mathShapes.case_CYBER_FLOWER.
  set (theta := rnd k' * PI * 2). set (phi := rnd (S k') * PI).
  set (kk := 4 + IZR (Math.floor (chaosLevel * 3))).
  pose proof (SIN_bound (kk * theta)) as [A1 A2].
  pose proof (SIN_bound (kk * phi)) as [B1 B2].
  assert (Hr : 5 <= 15 + 10 * sin (kk * theta) * sin (kk * phi) <= 25) by nra.
  destruct (i' mod 10 =? 0)%nat.
  - rewrite norm_multiplyScalar, norm_spherical by lra. lra.
  - rewrite norm_spherical by lra. lra.
Qed.

(** *** The black hole *)

Lemma fifth_of_count i count :
  Math.lt (INR i) (INR count * 0.2) = bool_decide (5 * i < count)%nat.
Proof.
  destruct (decide (5 * i < count)%nat) as [H|H].
  - rewrite bool_decide_eq_true_2 by assumption. apply lt_true.
    apply lt_INR in H. rewrite mult_INR in H. simpl in H. lra.
  - rewrite bool_decide_eq_false_2 by assumption. apply lt_false.
    assert (H' : (count <= 5 * i)%nat) by lia.
    apply le_INR in H'. rewrite mult_INR in H'. simpl in H'. lra.
Qed.

(** Rotating a point of the plane about the origin keeps its distance to
    it. *)
Lemma rotation_radius x z t :
  (x * cos t - z * sin t) ^ 2 + (x * sin t + z * cos t) ^ 2 = x ^ 2 + z ^ 2.
Proof.
  pose proof (sin2_cos2 t) as H. unfold Rsqr in H.
  replace ((x * cos t - z * sin t) ^ 2 + (x * sin t + z * cos t) ^ 2)
    with ((x ^ 2 + z ^ 2) * (sin t * sin t + cos t * cos t)) by ring.
  rewrite H. ring.
Qed.

(** The black hole: the first fifth of the particles (the event horizon)
    lies between 5 and 6 from the origin; the others (the accretion disk) lie
    between 8 and 33 from the y axis, within [5 / distance] of the plane
    [y = 0], hence within 0.625 of it. *)
Theorem black_hole_core_and_disk rev rnd count chaosLevel k i :
  (forall n, 0 <= rnd n < 1) ->
  (i < count)%nat ->
  exists v,
    particle_at (fst (getShapePositions rev rnd PULSING_BLACK_HOLE count chaosLevel k)) i v /\
    if bool_decide (5 * i < count)%nat
    then 5 <= norm v < 6
    else 8 <= sqrt (THREE.x v ^ 2 + THREE.z v ^ 2) < 33 /\
         Rabs (THREE.y v) * sqrt (THREE.x v ^ 2 + THREE.z v ^ 2) <= 5 /\
         Rabs (THREE.y v) <= 0.625.
Proof.
  intros Hrnd Hi.
  destruct (shared_kind_points rev rnd PULSING_BLACK_HOLE count chaosLevel k
              (fun i v => if bool_decide (5 * i < count)%nat
                          then 5 <= norm v < 6
                          else 8 <= sqrt (THREE.x v ^ 2 + THREE.z v ^ 2) < 33 /\
                               Rabs (THREE.y v) * sqrt (THREE.x v ^ 2 + THREE.z v ^ 2) <= 5 /\
                               Rabs (THREE.y v) <= 0.625)) with (i := i)
    as (v & Hv & Hat); [not_integrated| |exact Hi|exists v; auto].
  intros i' k' _.
  assert (E : fst (fst (mathShapes.V1.body rnd PULSING_BLACK_HOLE count chaosLevel i' tt k'))
              = fst (mathShapes.case_PULSING_BLACK_HOLE rnd i' count (rnd k') (rnd (S k'))
                       (S (S (S k'))))).
  { unfold mathShapes.V1.body, bind, Math.random, ret. cbn [String.eqb Ascii.eqb Bool.eqb
      PULSING_BLACK_HOLE SPHERE GALAXY_SPIRAL LORENZ_ATTRACTOR MOBIUS_STRIP CARDIOID_HEART
      DNA_HELIX MENGER_SPONGE_APPROX PENROSE_TRIANGLE_APPROX TORUS KLEIN_BOTTLE VOXEL_GRID
      CYBER_FLOWER LIQUID_WAVE].
    destruct (mathShapes.case_PULSING_BLACK_HOLE rnd i' count (rnd k') (rnd (S k'))
                (S (S (S k')))); reflexivity. }
  rewrite E. clear E.
  unfold mathShapes.case_PULSING_BLACK_HOLE. rewrite fifth_of_count.
  destruct (bool_decide (5 * i' < count)%nat).
  - unfold bind, Math.random, ret. cbn [fst].
    pose proof (Hrnd (S (S (S (S (S k')))))) as Hc.
    rewrite norm_spherical by lra. lra.
  - unfold bind, Math.random, ret. cbn [fst THREE.x THREE.y THREE.z].
    pose proof (Hrnd (S k')) as H2. pose proof (Hrnd (S (S (S k')))) as Hc.
    set (angle := rnd k' * PI * 2). set (dist := 8 + rnd (S k') * 25).
    set (c := rnd (S (S (S k')))) in *.
    assert (Hd : 8 <= dist < 33) by (unfold dist; lra).
    rewrite rotation_radius.
    replace ((cos angle * dist) ^ 2 + (sin angle * dist) ^ 2)
      with ((dist * cos angle) ^ 2 + (dist * sin angle) ^ 2) by ring.
    rewrite circle_radius by lra.
    assert (Hq : 0 < / dist) by (apply Rinv_0_lt_compat; lra).
    assert (Hqd : / dist * dist = 1) by (apply Rinv_l; lra).
    assert (Eh : 1.0 / dist * 10.0 = 10 * / dist) by (unfold Rdiv; lra).
    rewrite Eh.
    assert (Ha : Rabs (c - 0.5) <= 0.5) by (apply Rabs_le; lra).
    pose proof (Rabs_pos (c - 0.5)) as Hp.
    rewrite Rabs_mult, (Rabs_pos_eq (10 * / dist)) by lra.
    assert (Hy : Rabs (c - 0.5) * (10 * / dist) * dist <= 5).
    { replace (Rabs (c - 0.5) * (10 * / dist) * dist)
        with (10 * Rabs (c - 0.5) * (/ dist * dist)) by ring.
      rewrite Hqd. lra. }
    split; [exact Hd|]. split; [exact Hy|].
    assert (0 <= Rabs (c - 0.5) * (10 * / dist)) by nra.
    nra.
Qed.

Lemma black_hole_core_and_disk_witness :
  (forall n, 0 <= zeros n < 1) /\
  exists v,
    particle_at (fst (getShapePositions First zeros PULSING_BLACK_HOLE 10 0.5 0%nat)) 7 v /\
    if bool_decide (5 * 7 < 10)%nat
    then 5 <= norm v < 6
    else 8 <= sqrt (THREE.x v ^ 2 + THREE.z v ^ 2) < 33 /\
         Rabs (THREE.y v) * sqrt (THREE.x v ^ 2 + THREE.z v ^ 2) <= 5 /\
         Rabs (THREE.y v) <= 0.625.
Proof.
  split; [exact zeros_range|].
  exact (black_hole_core_and_disk First zeros 10 0.5 0%nat 7 zeros_range ltac:(lia)).
Defined.

Lemma flower_points_radius_witness :
  exists v,
    particle_at (fst (getShapePositions First zeros CYBER_FLOWER 20 0.5 0%nat)) 10 v /\
    if (10 mod 10 =? 0)%nat then 1 <= norm v <= 5 else 5 <= norm v <= 25.
Proof.
  exact (flower_points_radius First zeros 20 0.5 0%nat 10 ltac:(lia)).
Defined.

(** *** The helix *)

(** The normalized index of a particle lies in [0, 1). *)
Lemma t_range i count : (i < count)%nat -> 0 <= mathShapes.t i count < 1.
Proof.
  intros Hi. unfold mathShapes.t.
  assert (Hc : 0 < INR count) by (apply lt_0_INR; lia).
  pose proof (pos_INR i) as H0. apply lt_INR in Hi.
  split.
  - apply Rmult_le_pos; [assumption|]. apply Rlt_le, Rinv_0_lt_compat. assumption.
  - apply (Rmult_lt_reg_r (INR count)); [assumption|].
    unfold Rdiv. rewrite Rmult_assoc, Rinv_l by lra. lra.
Qed.

(** The helix: the height of particle [i] is [60 * i / count - 30], whatever
    is drawn; around the vertical axis the particle lies on the circle of
    radius 6, displaced by the same noise, of magnitude at most the chaos
    level, along x and along z. *)
Theorem helix_height_and_radius rev rnd count chaosLevel k i :
  (forall n, 0 <= rnd n < 1) ->
  0 <= chaosLevel ->
  (i < count)%nat ->
  exists v,
    particle_at (fst (getShapePositions rev rnd DNA_HELIX count chaosLevel k)) i v /\
    THREE.y v = 60 * (INR i / INR count) - 30 /\
    -30 <= THREE.y v < 30 /\
    exists noise, Rabs noise <= chaosLevel /\
                  (THREE.x v - noise) ^ 2 + (THREE.z v - noise) ^ 2 = 36.
Proof.
  intros Hrnd Hc Hi.
  destruct (shared_kind_points rev rnd DNA_HELIX count chaosLevel k
              (fun i v => THREE.y v = 60 * (INR i / INR count) - 30 /\
                          -30 <= THREE.y v < 30 /\
                          exists noise, Rabs noise <= chaosLevel /\
                            (THREE.x v - noise) ^ 2 + (THREE.z v - noise) ^ 2 = 36))
    with (i := i) as (v & Hv & Hat); [not_integrated| |exact Hi|exists v; auto].
  intros i' k' Hi'.
  change (fst (fst (mathShapes.V1.body rnd DNA_HELIX count chaosLevel i' tt k')))
    with (mathShapes.case_DNA_HELIX i' count chaosLevel (rnd (S (S k')))).
  unfold mathShapes.case_DNA_HELIX, mathShapes.map. cbn [THREE.x THREE.y THREE.z].
  pose proof (t_range i' count Hi') as Ht. fold (mathShapes.t i' count).
  set (t := mathShapes.t i' count) in *.
  pose proof (Hrnd (S (S k'))) as Hr.
  split; [unfold t, mathShapes.t; lra|]. split; [lra|].
  exists ((rnd (S (S k')) - 0.5) * chaosLevel * 2). split; [apply Rabs_le; nra|].
  set (a := t * PI * 2 * 5 + (if (i' mod 2 =? 0)%nat then 0 else PI)).
  pose proof (sin2_cos2 a) as H. unfold Rsqr in H.
  replace ((cos a * 6 + (rnd (S (S k')) - 0.5) * chaosLevel * 2
            - (rnd (S (S k')) - 0.5) * chaosLevel * 2) ^ 2
           + (sin a * 6 + (rnd (S (S k')) - 0.5) * chaosLevel * 2
              - (rnd (S (S k')) - 0.5) * chaosLevel * 2) ^ 2)
    with (36 * (sin a * sin a + cos a * cos a)) by ring.
  rewrite H. ring.
Qed.

Lemma helix_height_and_radius_witness :
  (forall n, 0 <= zeros n < 1) /\
  0 <= 0.5 /\
  exists v,
    particle_at (fst (getShapePositions Second zeros DNA_HELIX 4 0.5 0%nat)) 3 v /\
    THREE.y v = 60 * (INR 3 / INR 4) - 30 /\
    -30 <= THREE.y v < 30 /\
    exists noise, Rabs noise <= 0.5 /\
                  (THREE.x v - noise) ^ 2 + (THREE.z v - noise) ^ 2 = 36.
Proof.
  assert (Hc : 0 <= 0.5) by lra.
  split; [exact zeros_range|]. split; [exact Hc|].
  exact (helix_height_and_radius Second zeros 4 0.5 0%nat 3 zeros_range Hc ltac:(lia)).
Defined.

(** *** The galaxy *)



(** *** The voxel grid *)

Lemma round_range w a b :
  IZR a - / 2 <= w < IZR b + / 2 -> (a <= Math.round w <= b)%Z.
Proof.
  intros [Hlo Hhi]. unfold Math.round.
  destruct (base_Int_part (w + / 2)) as [H1 H2].
  split.
  - assert (H : (a - 1 < Int_part (w + / 2))%Z).
    { apply lt_IZR. rewrite minus_IZR. lra. }
    lia.
  - assert (H : (Int_part (w + / 2) < b + 1)%Z).
    { apply lt_IZR. rewrite plus_IZR. lra. }
    lia.
Qed.

Lemma voxel_snap r jitter chaosLevel :
  0 <= r < 1 -> 0 <= jitter < 1 -> 0 <= chaosLevel ->
  near_grid (25 / 3) 3 chaosLevel
    (IZR (Math.round (mathShapes.map r (- 25) 25 / (25 * 2 / 6))) * (25 * 2 / 6)
     + (jitter - 0.5) * chaosLevel * 2).
Proof.
  intros Hr Hj Hc.
  exists (Math.round (mathShapes.map r (- 25) 25 / (25 * 2 / 6))). split.
  - apply round_range. unfold mathShapes.map.
    replace ((- 25 + r * (25 - - 25)) / (25 * 2 / 6)) with (-3 + 6 * r) by (field; lra).
    rewrite opp_IZR. lra.
  - set (m := IZR (Math.round (mathShapes.map r (- 25) 25 / (25 * 2 / 6)))).
    replace (m * (25 * 2 / 6) + (jitter - 0.5) * chaosLevel * 2 - m * (25 / 3))
      with ((jitter - 0.5) * chaosLevel * 2) by (field; lra).
    apply Rabs_le. nra.
Qed.

(** The voxel grid: every coordinate of every particle is within the chaos
    level of one of the seven grid values [m * 25 / 3], [-3 <= m <= 3]; at
    chaos level 0 the particles sit exactly on the grid. *)
Theorem voxel_points_near_grid rev rnd count chaosLevel k i :
  (forall n, 0 <= rnd n < 1) ->
  0 <= chaosLevel ->
  (i < count)%nat ->
  exists v,
    particle_at (fst (getShapePositions rev rnd VOXEL_GRID count chaosLevel k)) i v /\
    near_grid (25 / 3) 3 chaosLevel (THREE.x v) /\
    near_grid (25 / 3) 3 chaosLevel (THREE.y v) /\
    near_grid (25 / 3) 3 chaosLevel (THREE.z v).
Proof.
  intros Hrnd Hc Hi.
  destruct (shared_kind_points rev rnd VOXEL_GRID count chaosLevel k
              (fun _ v => near_grid (25 / 3) 3 chaosLevel (THREE.x v) /\
                          near_grid (25 / 3) 3 chaosLevel (THREE.y v) /\
                          near_grid (25 / 3) 3 chaosLevel (THREE.z v)))
    with (i := i) as (v & Hv & Hat); [not_integrated| |exact Hi|exists v; auto].
  intros i' k' _.
  change (fst (fst (mathShapes.V1.body rnd VOXEL_GRID count chaosLevel i' tt k')))
    with (fst (fst (let (d, k2) := mathShapes.case_VOXEL_GRID rnd chaosLevel (rnd k')
                                     (rnd (S k')) (rnd (S (S k'))) (S (S (S k')))
                    in ((d, tt), k2)))).
  unfold mathShapes.case_VOXEL_GRID, bind, Math.random, ret.
  cbn [fst THREE.x THREE.y THREE.z].
  repeat split; apply voxel_snap; auto.
Qed.

Lemma voxel_points_near_grid_witness :
  (forall n, 0 <= zeros n < 1) /\
  0 <= 0 /\
  exists v,
    particle_at (fst (getShapePositions First zeros VOXEL_GRID 2 0 0%nat)) 1 v /\
    near_grid (25 / 3) 3 0 (THREE.x v) /\
    near_grid (25 / 3) 3 0 (THREE.y v) /\
    near_grid (25 / 3) 3 0 (THREE.z v).
Proof.
  assert (Hc : 0 <= 0) by lra.
  split; [exact zeros_range|]. split; [exact Hc|].
  exact (voxel_points_near_grid First zeros 2 0 0%nat 1 zeros_range Hc ltac:(lia)).
Defined.

(** *** The wave *)

(** The number of columns of the wave's grid: at least one for a non-empty
    field, and the largest whose square does not exceed the count. *)
Lemma wave_cols count :
  (1 <= count)%nat ->
  let cols := Z.to_nat (Math.floor (sqrt (INR count))) in
  (1 <= cols)%nat /\ (cols * cols <= count < (cols + 1) * (cols + 1))%nat.
Proof.
  intros Hc cols. unfold Math.floor in cols.
  set (s := sqrt (INR count)) in *.
  assert (H1 : 1 <= INR count) by (apply (le_INR 1); lia).
  assert (Hs1 : 1 <= s).
  { unfold s. rewrite <- sqrt_1. apply sqrt_le_1; lra. }
  assert (Hss : s * s = INR count) by (apply sqrt_sqrt; lra).
  destruct (base_Int_part s) as [B1 B2].
  assert (Hz : (1 <= Int_part s)%Z).
  { assert (0 < Int_part s)%Z by (apply lt_IZR; lra). lia. }
  assert (Hcols : INR cols = IZR (Int_part s)).
  { unfold cols. rewrite INR_IZR_INZ, Z2Nat.id by lia. reflexivity. }
  assert (Hpos : 1 <= INR cols) by (rewrite Hcols; apply IZR_le in Hz; lra).
  split; [unfold cols; lia|]. split.
  - apply INR_le. rewrite mult_INR, <- Hss, Hcols. nra.
  - apply INR_lt. rewrite mult_INR, plus_INR, <- Hss, Hcols. simpl. nra.
Qed.

Lemma fst_keep {A : Type} (m : A * nat) :
  fst (fst (let (d, k) := m in ((d, tt), k))) = fst m.
Proof. destruct m. reflexivity. Qed.

Lemma wave_point rnd i count k :
  (forall n, 0 <= rnd n < 1) ->
  (i < count)%nat ->
  let cols := Z.to_nat (Math.floor (sqrt (INR count))) in
  let v := fst (mathShapes.case_LIQUID_WAVE rnd i count k) in
  THREE.y v = 0 /\ -41 <= THREE.x v < 41 /\
  -41 <= THREE.z v < 41 + 80 / INR cols /\ (1 <= cols)%nat.
Proof.
  intros Hrnd Hi cols.
  destruct (wave_cols count ltac:(lia)) as (Hc1 & Hc2 & Hc3). fold cols in Hc1, Hc2, Hc3.
  unfold mathShapes.case_LIQUID_WAVE, bind, Math.random, ret, mathShapes.map.
  fold cols. cbn [fst THREE.x THREE.y THREE.z].
  pose proof (Hrnd k) as Hx. pose proof (Hrnd (S k)) as Hz.
  assert (Hcols : 1 <= INR cols) by (apply (le_INR 1); exact Hc1).
  assert (Hinv : 0 < / INR cols) by (apply Rinv_0_lt_compat; lra).
  assert (Hone : INR cols * / INR cols = 1) by (apply Rinv_r; lra).
  assert (Hcol : 0 <= INR (i mod cols) / INR cols < 1).
  { pose proof (Nat.mod_upper_bound i cols ltac:(lia)) as Hm.
    apply lt_INR in Hm. pose proof (pos_INR (i mod cols)).
    unfold Rdiv. split; [nra|]. nra. }
  assert (Hrow : 0 <= INR (i / cols) / INR cols <= 1 + / INR cols).
  { assert (Hr : (i / cols <= cols + 1)%nat).
    { assert (i / cols < cols + 2)%nat; [|lia].
      apply Nat.Div0.div_lt_upper_bound. nia. }
    apply le_INR in Hr. rewrite plus_INR in Hr. simpl in Hr.
    pose proof (pos_INR (i / cols)).
    unfold Rdiv. split; [nra|]. nra. }
  split; [reflexivity|]. split; [lra|]. split; [|exact Hc1].
  unfold Rdiv in *. lra.
Qed.

(** The wave is flat: every particle has height 0 (the shader animates it).
    Across, the particles stay within 41 of the centre; along, the rows run
    past the square, up to [41 + 80 / cols], since the count need not be a
    square. *)
Theorem wave_is_flat rev rnd count chaosLevel k i :
  (forall n, 0 <= rnd n < 1) ->
  (i < count)%nat ->
  let cols := Z.to_nat (Math.floor (sqrt (INR count))) in
  exists v,
    particle_at (fst (getShapePositions rev rnd LIQUID_WAVE count chaosLevel k)) i v /\
    THREE.y v = 0 /\
    -41 <= THREE.x v < 41 /\
    -41 <= THREE.z v < 41 + 80 / INR cols /\
    (1 <= cols)%nat.
Proof.
  intros Hrnd Hi cols.
  destruct (shared_kind_points rev rnd LIQUID_WAVE count chaosLevel k
              (fun _ v => THREE.y v = 0 /\ -41 <= THREE.x v < 41 /\
                          -41 <= THREE.z v < 41 + 80 / INR cols /\ (1 <= cols)%nat))
    with (i := i) as (v & Hv & Hat); [not_integrated| |exact Hi|exists v; auto].
  intros i' k' Hi'.
  change (fst (fst (mathShapes.V1.body rnd LIQUID_WAVE count chaosLevel i' tt k')))
    with (fst (fst (let (d, k2) := mathShapes.case_LIQUID_WAVE rnd i' count (S (S (S k')))
                    in ((d, tt), k2)))).
  rewrite fst_keep. apply wave_point; assumption.
Qed.

Lemma wave_is_flat_witness :
  (forall n, 0 <= zeros n < 1) /\
  (let cols := Z.to_nat (Math.floor (sqrt (INR 3))) in
   exists v,
     particle_at (fst (getShapePositions First zeros LIQUID_WAVE 3 0.5 0%nat)) 2 v /\
     THREE.y v = 0 /\
     -41 <= THREE.x v < 41 /\
     -41 <= THREE.z v < 41 + 80 / INR cols /\
     (1 <= cols)%nat).
Proof.
  split; [exact zeros_range|].
  exact (wave_is_flat First zeros 3 0.5 0%nat 2 zeros_range ltac:(lia)).
Defined.

(** *** The Thomas attractor *)

(** Adds the bounds of every sine of the goal to the context. *)
Ltac sin_bounds :=
  repeat match goal with
         | |- context [sin ?x] =>
             lazymatch goal with
             | _ : sin x <= 1 |- _ => fail
             | _ => let H := fresh in pose proof (SIN_bound x) as H; destruct H
             end
         end.

Lemma V2_getShapePositions_points rnd type count chaosLevel k
    (Inv : mathShapes.V2.Attractor -> Prop) (P : nat -> THREE.Vector3 -> Prop) :
  Inv (0.1, 0, 0) ->
  (forall i a k', (i < count)%nat -> Inv a ->
     P i (fst (fst (mathShapes.V2.body rnd type count chaosLevel i a k'))) /\
     Inv (snd (fst (mathShapes.V2.body rnd type count chaosLevel i a k')))) ->
  forall i, (i < count)%nat ->
  exists v, P i v /\
    particle_at (fst (mathShapes.V2.getShapePositions rnd type count chaosLevel k)) i v.
Proof.
  intros H0 Hbody i Hi. unfold mathShapes.V2.getShapePositions.
  apply (fill_points _ count Inv P Hbody) with (n := count) (i := 0%nat);
    try lia; try exact H0.
  rewrite length_replicate. lia.
Qed.

Lemma thomas_points rnd count chaosLevel k i :
  (forall n, 0 <= rnd n < 1) ->
  (i < count)%nat ->
  exists v,
    particle_at
      (fst (mathShapes.V2.getShapePositions rnd THOMAS_ATTRACTOR count chaosLevel k)) i v /\
    within 160 v.
Proof.
  intros Hrnd Hi.
  destruct (V2_getShapePositions_points rnd THOMAS_ATTRACTOR count chaosLevel k
              (fun '(ax, ay, az) => Rabs ax <= 5 /\ Rabs ay <= 5 /\ Rabs az <= 5)
              (fun _ v => within 160 v)) with (i := i)
    as (v & Hv & Hat); [| |exact Hi|exists v; auto].
  - repeat split; apply Rabs_le; lra.
  - intros i' a k' _ Ha.
    change (mathShapes.V2.body rnd THOMAS_ATTRACTOR count chaosLevel i' a k')
      with (mathShapes.V2.case_THOMAS_ATTRACTOR rnd i' a (S (S (S k')))).
    unfold mathShapes.V2.case_THOMAS_ATTRACTOR, bind, Math.random, ret.
    destruct a as [[ax ay] az]. destruct Ha as (Hx & Hy & Hz).
    assert (Hx' : -5 <= ax <= 5) by (unfold Rabs in Hx; destruct (Rcase_abs ax); lra).
    assert (Hy' : -5 <= ay <= 5) by (unfold Rabs in Hy; destruct (Rcase_abs ay); lra).
    assert (Hz' : -5 <= az <= 5) by (unfold Rabs in Hz; destruct (Rcase_abs az); lra).
    pose proof (Hrnd (S (S (S k')))) as Hr.
    destruct (i' mod 1000 =? 0)%nat; cbv beta iota; cbn [fst snd];
      unfold within, THREE.multiplyScalar, THREE.set; cbn [THREE.x THREE.y THREE.z];
      sin_bounds; repeat split; apply Rabs_le; lra.
Qed.

(** The Thomas attractor of the second revision stays in a box: the
    integrated state never leaves the cube of half-side 5 (each step adds at
    most 0.05 and removes 0.0104 of the coordinate), so every coordinate of
    every particle is at most 160 in magnitude. *)
Theorem thomas_attractor_bounded rnd count chaosLevel k i :
  (forall n, 0 <= rnd n < 1) ->
  (i < count)%nat ->
  exists v,
    particle_at
      (fst (mathShapes.V2.getShapePositions rnd THOMAS_ATTRACTOR count chaosLevel k)) i v /\
    within 160 v.
Proof. exact (thomas_points rnd count chaosLevel k i). Qed.

Lemma thomas_attractor_bounded_witness :
  (forall n, 0 <= zeros n < 1) /\
  exists v,
    particle_at
      (fst (mathShapes.V2.getShapePositions zeros THOMAS_ATTRACTOR 3 0.5 0%nat)) 2 v /\
    within 160 v.
Proof.
  split; [exact zeros_range|].
  exact (thomas_attractor_bounded zeros 3 0.5 0%nat 2 zeros_range ltac:(lia)).
Defined.

(** ** A bound on every generated coordinate *)

Lemma abs_add a b A B : Rabs a <= A -> Rabs b <= B -> Rabs (a + b) <= A + B.
Proof. intros Ha Hb. pose proof (Rabs_triang a b). lra. Qed.

Lemma abs_sub a b A B : Rabs a <= A -> Rabs b <= B -> Rabs (a - b) <= A + B.
Proof.
  intros Ha Hb. unfold Rminus. pose proof (Rabs_triang a (- b)) as H.
  rewrite Rabs_Ropp in H. lra.
Qed.

Lemma abs_mul a b A B : Rabs a <= A -> Rabs b <= B -> Rabs (a * b) <= A * B.
Proof.
  intros Ha Hb. rewrite Rabs_mult.
  pose proof (Rabs_pos a). pose proof (Rabs_pos b). nra.
Qed.

Lemma abs_opp a A : Rabs a <= A -> Rabs (- a) <= A.
Proof. rewrite Rabs_Ropp. auto. Qed.

Lemma abs_pow a n A : Rabs a <= A -> Rabs (a ^ n) <= A ^ n.
Proof.
  intros Ha. rewrite <- RPow_abs. apply pow_incr. split; [apply Rabs_pos | exact Ha].
Qed.

Lemma abs_sin x : Rabs (sin x) <= 1.
Proof. apply Rabs_le. pose proof (SIN_bound x). lra. Qed.

Lemma abs_cos x : Rabs (cos x) <= 1.
Proof. apply Rabs_le. pose proof (COS_bound x). lra. Qed.

Lemma abs_nonneg c : 0 <= c -> Rabs c <= c.
Proof. intros H. rewrite Rabs_pos_eq by assumption. lra. Qed.

Lemma abs_nonpos c : c <= 0 -> Rabs c <= - c.
Proof. intros H. rewrite Rabs_left1 by assumption. lra. Qed.

Lemma abs_unit r : 0 <= r < 1 -> Rabs r <= 1.
Proof. intros H. apply Rabs_le. lra. Qed.

(** Bounds the magnitude of an expression by the sum and product of the
    bounds of its parts. *)
Ltac absb :=
  lazymatch goal with
  | |- Rabs (?a + ?b) <= _ => eapply abs_add; absb
  | |- Rabs (?a - ?b) <= _ => eapply abs_sub; absb
  | |- Rabs (?a * ?b) <= _ => eapply abs_mul; absb
  | |- Rabs (- ?a) <= _ => eapply abs_opp; absb
  | |- Rabs (?a ^ ?n) <= _ => eapply abs_pow; absb
  | |- Rabs (sin _) <= _ => apply abs_sin
  | |- Rabs (cos _) <= _ => apply abs_cos
  | |- Rabs ?c <= _ =>
      first [ eassumption
            | match goal with H : forall n, Rabs (_ n) <= 1 |- _ => apply H end
            | apply abs_nonneg; lra
            | apply abs_nonpos; lra ]
  end.

(** Proves [Rabs e <= bound] for a numeral [bound]. *)
Ltac bounded := eapply Rle_trans; [absb | cbn [pow]; lra].

Section CaseBounds.
Variable rnd : nat -> R.
Hypothesis rnd_range : forall n, 0 <= rnd n < 1.
Variable chaosLevel : R.
Hypothesis chaos_range : 0 <= chaosLevel <= 1.

Lemma rnd_abs : forall n, Rabs (rnd n) <= 1.
Proof. intros n. apply abs_unit, rnd_range. Qed.

Lemma chaos_abs : Rabs chaosLevel <= 1.
Proof. apply Rabs_le. lra. Qed.

Ltac start :=
  pose proof rnd_abs as Hrnd_abs; pose proof chaos_abs as Hchaos_abs;
  unfold within, THREE.setFromSphericalCoords, THREE.multiplyScalar, THREE.set,
    mathShapes.map, Rdiv;
  cbn [THREE.x THREE.y THREE.z].

Lemma within_SPHERE k1 k2 k3 :
  within 160 (mathShapes.case_SPHERE chaosLevel (rnd k1) (rnd k2) (rnd k3)).
Proof. unfold mathShapes.case_SPHERE. start. repeat split; bounded. Qed.

Lemma within_GALAXY_SPIRAL i count k1 k2 k3 :
  within 160 (mathShapes.case_GALAXY_SPIRAL i count chaosLevel (rnd k1) (rnd k2) (rnd k3)).
Proof.
  unfold mathShapes.case_GALAXY_SPIRAL. start.
  assert (Hs : Rabs (sqrt (rnd k1)) <= 1).
  { pose proof (rnd_range k1). apply Rabs_le. pose proof (sqrt_pos (rnd k1)).
    assert (sqrt (rnd k1) < 1) by (rewrite <- sqrt_1; apply sqrt_lt_1; lra). lra. }
  repeat split; bounded.
Qed.

Lemma within_MOBIUS_STRIP k1 k2 :
  within 160 (mathShapes.case_MOBIUS_STRIP (rnd k1) (rnd k2)).
Proof. unfold mathShapes.case_MOBIUS_STRIP. start. repeat split; bounded. Qed.

Lemma within_CARDIOID_HEART k1 k2 :
  within 160 (mathShapes.case_CARDIOID_HEART (rnd k1) (rnd k2)).
Proof. unfold mathShapes.case_CARDIOID_HEART. start. repeat split; bounded. Qed.

Lemma within_DNA_HELIX i count k3 :
  (i < count)%nat ->
  within 160 (mathShapes.case_DNA_HELIX i count chaosLevel (rnd k3)).
Proof.
  intros Hi. unfold mathShapes.case_DNA_HELIX.
  assert (Ht : Rabs (mathShapes.t i count) <= 1) by (apply abs_unit, t_range, Hi).
  set (t := mathShapes.t i count) in *.
  start. repeat split; bounded.
Qed.

Lemma within_TORUS k1 k2 :
  within 160 (mathShapes.case_TORUS chaosLevel (rnd k1) (rnd k2)).
Proof. unfold mathShapes.case_TORUS. start. repeat split; bounded. Qed.

Lemma within_KLEIN_BOTTLE k1 k2 :
  within 160 (mathShapes.case_KLEIN_BOTTLE (rnd k1) (rnd k2)).
Proof. unfold mathShapes.case_KLEIN_BOTTLE. start. repeat split; bounded. Qed.

Lemma within_CYBER_FLOWER i k1 k2 :
  within 160 (mathShapes.case_CYBER_FLOWER i chaosLevel (rnd k1) (rnd k2)).
Proof.
  unfold mathShapes.case_CYBER_FLOWER. destruct (i mod 10 =? 0)%nat; start;
    repeat split; bounded.
Qed.

Lemma within_default k1 k2 k3 :
  within 160 (mathShapes.case_default (rnd k1) (rnd k2) (rnd k3)).
Proof. unfold mathShapes.case_default. start. repeat split; bounded. Qed.

Lemma round_abs3 w : -3 <= w < 3 -> Rabs (IZR (Math.round w)) <= 3.
Proof.
  intros Hw. destruct (round_range w (-3) 3) as [H1 H2]; [simpl; lra|].
  apply IZR_le in H1, H2. simpl in H1, H2. apply Rabs_le. lra.
Qed.

Lemma within_MENGER_SPONGE_APPROX k1 k2 k3 k :
  within 160 (fst (mathShapes.case_MENGER_SPONGE_APPROX rnd chaosLevel
                     (rnd k1) (rnd k2) (rnd k3) k)).
Proof.
  unfold mathShapes.case_MENGER_SPONGE_APPROX, bind, Math.random, ret. cbv zeta.
  assert (Hround : forall n,
            Rabs (IZR (Math.round (mathShapes.map (rnd n) (- (20)) 20 / (20 / 3)))) <= 3).
  { intros n. apply round_abs3. pose proof (rnd_range n). unfold mathShapes.map.
    replace ((- (20) + rnd n * (20 - - (20))) / (20 / 3)) with (-3 + 6 * rnd n)
      by (field; lra).
    lra. }
  pose proof (Hround k1) as R1. pose proof (Hround k2) as R2. pose proof (Hround k3) as R3.
  set (m1 := IZR (Math.round (mathShapes.map (rnd k1) (- (20)) 20 / (20 / 3)))) in *.
  set (m2 := IZR (Math.round (mathShapes.map (rnd k2) (- (20)) 20 / (20 / 3)))) in *.
  set (m3 := IZR (Math.round (mathShapes.map (rnd k3) (- (20)) 20 / (20 / 3)))) in *.
  clear Hround.
  repeat (match goal with
          | |- context [Math.gt ?a ?b] => destruct (Math.gt a b)
          end; cbv beta iota);
    cbn [fst]; start; repeat split; bounded.
Qed.

Lemma within_PENROSE_TRIANGLE_APPROX i k :
  within 160 (fst (mathShapes.case_PENROSE_TRIANGLE_APPROX rnd i chaosLevel k)).
Proof.
  unfold mathShapes.case_PENROSE_TRIANGLE_APPROX, bind, Math.random, ret. cbv zeta.
  destruct (i mod 3 =? 0)%nat; [|destruct (i mod 3 =? 1)%nat];
    cbv beta iota; cbn [fst]; start; repeat split; bounded.
Qed.

Lemma near_grid_abs c tolerance :
  near_grid (25 / 3) 3 tolerance c -> Rabs c <= 25 + tolerance.
Proof.
  intros (m & [H1 H2] & Hc). apply IZR_le in H1, H2. rewrite opp_IZR in H1.
  assert (Hm : Rabs (IZR m * (25 / 3)) <= 25) by (apply Rabs_le; lra).
  replace c with ((c - IZR m * (25 / 3)) + IZR m * (25 / 3)) by ring.
  pose proof (Rabs_triang (c - IZR m * (25 / 3)) (IZR m * (25 / 3))). lra.
Qed.

Lemma within_VOXEL_GRID k1 k2 k3 k :
  within 160 (fst (mathShapes.case_VOXEL_GRID rnd chaosLevel (rnd k1) (rnd k2) (rnd k3) k)).
Proof.
  unfold mathShapes.case_VOXEL_GRID, bind, Math.random, ret.
  cbn [fst]. unfold within. cbn [THREE.x THREE.y THREE.z].
  repeat split;
    (eapply Rle_trans; [apply near_grid_abs, voxel_snap; auto; lra | lra]).
Qed.

Lemma within_LIQUID_WAVE i count k :
  (i < count)%nat ->
  within 160 (fst (mathShapes.case_LIQUID_WAVE rnd i count k)).
Proof.
  intros Hi.
  destruct (wave_point rnd i count k rnd_range Hi) as (Hy & Hx & Hz & Hc).
  set (cols := Z.to_nat (Math.floor (sqrt (INR count)))) in *.
  assert (Hcols : 1 <= INR cols) by (apply (le_INR 1); exact Hc).
  assert (H80 : 80 / INR cols <= 80).
  { unfold Rdiv. assert (/ INR cols <= 1); [|lra].
    rewrite <- Rinv_1. apply Rinv_le_contravar; lra. }
  unfold within. rewrite Hy. repeat split; apply Rabs_le; lra.
Qed.

Lemma within_PULSING_BLACK_HOLE i count k1 k2 k :
  within 160 (fst (mathShapes.case_PULSING_BLACK_HOLE rnd i count (rnd k1) (rnd k2) k)).
Proof.
  unfold mathShapes.case_PULSING_BLACK_HOLE, bind, Math.random, ret. cbv zeta.
  destruct (Math.lt (INR i) (INR count * 0.2)); cbv beta iota; cbn [fst].
  - start. repeat split; bounded.
  - assert (Hinv : Rabs (/ (8 + rnd k2 * 25)) <= / 8).
    { pose proof (rnd_range k2).
      assert (0 < / (8 + rnd k2 * 25)) by (apply Rinv_0_lt_compat; lra).
      assert (/ (8 + rnd k2 * 25) <= / 8) by (apply Rinv_le_contravar; lra).
      apply Rabs_le. lra. }
    start. repeat split; bounded.
Qed.
End CaseBounds.

Lemma V1_body_within rnd type count chaosLevel i k :
  (forall n, 0 <= rnd n < 1) ->
  0 <= chaosLevel <= 1 ->
  type <> LORENZ_ATTRACTOR ->
  (i < count)%nat ->
  within 160 (fst (fst (mathShapes.V1.body rnd type count chaosLevel i tt k))).
Proof.
  intros Hrnd Hc Hn Hi.
  assert (EL : (type === LORENZ_ATTRACTOR) = false) by (apply String.eqb_neq; exact Hn).
  unfold mathShapes.V1.body, bind, Math.random, ret. rewrite EL.
  repeat match goal with
         | |- context [if ?t === ?c then _ else _] => destruct (t === c)
         end;
    cbn [fst snd]; rewrite ?fst_keep;
    first [ eapply within_SPHERE | eapply within_GALAXY_SPIRAL | eapply within_MOBIUS_STRIP
          | eapply within_CARDIOID_HEART | eapply within_DNA_HELIX
          | eapply within_MENGER_SPONGE_APPROX | eapply within_PENROSE_TRIANGLE_APPROX
          | eapply within_TORUS | eapply within_KLEIN_BOTTLE | eapply within_VOXEL_GRID
          | eapply within_CYBER_FLOWER | eapply within_LIQUID_WAVE
          | eapply within_PULSING_BLACK_HOLE | eapply within_default ];
    eassumption.
Qed.

(** In exact arithmetic every coordinate the generator returns is at most
    160 in magnitude, for every kind but the three whose trajectories are
    not bounded here (Lorenz, Aizawa and Halvorsen): a kind outside the
    enumeration included, for draws in [0, 1), a chaos level in [0, 1] and
    any count, in both revisions. *)
Theorem generated_coordinates_bounded rev rnd type count chaosLevel k i :
  (forall n, 0 <= rnd n < 1) ->
  0 <= chaosLevel <= 1 ->
  type ∉ without_bound ->
  (i < count)%nat ->
  exists v,
    particle_at (fst (getShapePositions rev rnd type count chaosLevel k)) i v /\
    within 160 v.
Proof.
  intros Hrnd Hc Hn Hi.
  assert (HL : type <> LORENZ_ATTRACTOR).
  { intros ->. apply Hn, list_elem_of_In. simpl. tauto. }
  assert (HV1 : exists v,
            particle_at (fst (mathShapes.V1.getShapePositions rnd type count chaosLevel k)) i v
            /\ within 160 v).
  { unfold mathShapes.V1.getShapePositions.
    destruct (fill_points (mathShapes.V1.body rnd type count chaosLevel) count
                (fun _ => True) (fun _ v => within 160 v)) with
      (n := count) (i := 0%nat) (l := tt) (ps := replicate (count * 3) 0) (k := k) (j := i)
      as (v & Hv & Hat); try lia; try exact I.
    - intros i' [] k' Hi' _. split; [|exact I]. apply V1_body_within; assumption.
    - rewrite length_replicate. lia.
    - exists v. auto. }
  destruct rev; cbn [getShapePositions]; [exact HV1|].
  destruct (decide (type = THOMAS_ATTRACTOR)) as [->|HT].
  - apply thomas_points; assumption.
  - rewrite getShapePositions_shared; [exact HV1|].
    rewrite list_elem_of_In. simpl. intros [<-|[<-|[<-|[<-|[]]]]];
      try (apply Hn, list_elem_of_In; simpl; tauto); congruence.
Qed.

Lemma generated_coordinates_bounded_witness :
  (forall n, 0 <= zeros n < 1) /\
  0 <= 0.5 <= 1 /\
  (KLEIN_BOTTLE ∉ without_bound) /\
  exists v,
    particle_at (fst (getShapePositions Second zeros KLEIN_BOTTLE 3 0.5 0%nat)) 2 v /\
    within 160 v.
Proof.
  assert (Hc : 0 <= 0.5 <= 1) by lra.
  assert (Hn : KLEIN_BOTTLE ∉ without_bound)
    by (rewrite list_elem_of_In; simpl; intuition discriminate).
  split; [exact zeros_range|]. split; [exact Hc|]. split; [exact Hn|].
  exact (generated_coordinates_bounded Second zeros KLEIN_BOTTLE 3 0.5 0%nat 2
           zeros_range Hc Hn ltac:(lia)).
Defined.

(** ** The sponge and the chaos level *)

(** A body that draws [stride] numbers per particle, keeps the loop's
    variables and leaves [g i k] in [dummy]. *)
Lemma fill_lookup_stride {L : Type} (body : nat -> L -> State nat (THREE.Vector3 * L))
    (g : nat -> nat -> THREE.Vector3) (stride : nat) :
  (forall i l k, body i l k = ((g i k, l), (k + stride)%nat)) ->
  forall n i l ps k j,
    ((i + n) * 3 <= length ps)%nat -> (i <= j < i + n)%nat ->
    particle_at (fst (mathShapes.fill body n i l ps k)) j (g j (k + (j - i) * stride)%nat).
Proof.
  intros body_g. induction n as [|n IH]; intros i l ps k j Hlen Hj; [lia|].
  simpl. unfold bind. rewrite body_g. simpl.
  destruct (decide (j = i)) as [->|Hne].
  - replace (k + (i - i) * stride)%nat with k by lia.
    unfold particle_at. rewrite !fill_untouched by lia.
    rewrite list_lookup_insert_ne by lia.
    rewrite list_lookup_insert_ne by lia.
    rewrite list_lookup_insert_eq by lia.
    rewrite list_lookup_insert_ne by lia.
    rewrite list_lookup_insert_eq by (rewrite length_insert; lia).
    rewrite list_lookup_insert_eq by (rewrite !length_insert; lia).
    auto.
  - specialize (IH (S i) l
      (<[(i * 3 + 2)%nat:=THREE.z (g i k)]>
         (<[(i * 3 + 1)%nat:=THREE.y (g i k)]> (<[(i * 3)%nat:=THREE.x (g i k)]> ps)))
      (k + stride)%nat j).
    replace (k + stride + (j - S i) * stride)%nat with (k + (j - i) * stride)%nat in IH by nia.
    apply IH; [rewrite !length_insert; lia | lia].
Qed.

Lemma V1_body_menger_full_chaos rnd count chaosLevel i l k :
  (forall n, 0 <= rnd n < 1) -> 1 <= chaosLevel ->
  mathShapes.V1.body rnd MENGER_SPONGE_APPROX count chaosLevel i l k
  = ((THREE.mkVector3 (mathShapes.map (rnd k) (- (20)) 20)
        (mathShapes.map (rnd (k + 1)%nat) (- (20)) 20)
        (mathShapes.map (rnd (k + 2)%nat) (- (20)) 20), l), (k + 6)%nat).
Proof.
  intros Hrnd Hc. destruct l.
  change (mathShapes.V1.body rnd MENGER_SPONGE_APPROX count chaosLevel i tt k)
    with (let (d, k2) := mathShapes.case_MENGER_SPONGE_APPROX rnd chaosLevel (rnd k)
                           (rnd (S k)) (rnd (S (S k))) (S (S (S k)))
          in ((d, tt), k2)).
  unfold mathShapes.case_MENGER_SPONGE_APPROX, bind, Math.random, ret. cbv zeta.
  repeat (match goal with
          | |- context [Math.gt (rnd ?a) chaosLevel] =>
              rewrite (gt_false (rnd a) chaosLevel)
                by (pose proof (Hrnd a); lra)
          end; cbv beta iota).
  replace (k + 1)%nat with (S k) by lia. replace (k + 2)%nat with (S (S k)) by lia.
  replace (k + 6)%nat with (S (S (S (S (S (S k)))))) by lia.
  reflexivity.
Qed.

(** At chaos level 1 (which the frame passes whenever [config.chaos] plus a
    fifth of the energy reaches 1) no coordinate of the sponge is snapped,
    since no draw exceeds the level: the sponge is a plain cube fill, entry
    [c] of particle [i] being [map r (-20) 20] for [r] the draw number
    [6 * i + c] of the call. *)
Theorem sponge_is_a_cube_at_full_chaos rev rnd count chaosLevel k i c :
  (forall n, 0 <= rnd n < 1) ->
  1 <= chaosLevel ->
  (i < count)%nat -> (c < 3)%nat ->
  fst (getShapePositions rev rnd MENGER_SPONGE_APPROX count chaosLevel k) !! (i * 3 + c)%nat
  = Some (mathShapes.map (rnd (k + i * 6 + c)%nat) (- (20)) 20) /\
  -20 <= mathShapes.map (rnd (k + i * 6 + c)%nat) (- (20)) 20 < 20.
Proof.
  intros Hrnd Hc Hi Hlt. split.
  - assert (E : getShapePositions rev rnd MENGER_SPONGE_APPROX count chaosLevel k
                = mathShapes.V1.getShapePositions rnd MENGER_SPONGE_APPROX count chaosLevel k).
    { destruct rev; [reflexivity|]. apply getShapePositions_shared. not_integrated. }
    rewrite E. unfold mathShapes.V1.getShapePositions.
    pose proof (fill_lookup_stride (mathShapes.V1.body rnd MENGER_SPONGE_APPROX count chaosLevel)
                  (fun _ n => THREE.mkVector3 (mathShapes.map (rnd n) (- (20)) 20)
                                (mathShapes.map (rnd (n + 1)%nat) (- (20)) 20)
                                (mathShapes.map (rnd (n + 2)%nat) (- (20)) 20)) 6
                  (fun i l k => V1_body_menger_full_chaos rnd count chaosLevel i l k Hrnd Hc)
                  count 0%nat tt (replicate (count * 3) 0) k i) as H.
    destruct H as (Hx & Hy & Hz); [rewrite length_replicate; lia | lia |].
    cbn [THREE.x THREE.y THREE.z] in Hx, Hy, Hz.
    replace (k + (i - 0) * 6)%nat with (k + i * 6)%nat in * by lia.
    destruct c as [|[|[|?]]]; [| | |lia].
    + rewrite !Nat.add_0_r. exact Hx.
    + exact Hy.
    + exact Hz.
  - pose proof (Hrnd (k + i * 6 + c)%nat). unfold mathShapes.map. lra.
Qed.

Lemma sponge_is_a_cube_at_full_chaos_witness :
  (forall n, 0 <= zeros n < 1) /\
  1 <= 1 /\
  fst (getShapePositions Second zeros MENGER_SPONGE_APPROX 2 1 0%nat) !! (1 * 3 + 2)%nat
  = Some (mathShapes.map (zeros (0 + 1 * 6 + 2)%nat) (- (20)) 20) /\
  -20 <= mathShapes.map (zeros (0 + 1 * 6 + 2)%nat) (- (20)) 20 < 20.
Proof.
  assert (Hc : 1 <= 1) by lra.
  split; [exact zeros_range|]. split; [exact Hc|].
  exact (sponge_is_a_cube_at_full_chaos Second zeros 2 1 0%nat 1 2 zeros_range Hc
           ltac:(lia) ltac:(lia)).
Defined.

(** ** The attribute buffers *)

Lemma main_loop_untouched rnd n : forall i rs cs ss k,
  let r := MainBuffers.loop rnd n i rs cs ss k in
  (forall j, (j < i)%nat -> fst (fst (fst r)) !! j = rs !! j /\ snd (fst r) !! j = ss !! j) /\
  (forall j, (j < i * 3)%nat -> snd (fst (fst r)) !! j = cs !! j).
Proof.
  induction n as [|n IH]; intros i rs cs ss k; cbn [MainBuffers.loop].
  - unfold ret. cbn [fst snd]. auto.
  - unfold bind, Math.random. cbv beta iota zeta.
    match goal with |- context [MainBuffers.loop rnd n (S i) ?a ?b ?c ?d] =>
      destruct (IH (S i) a b c d) as [H1 H2] end.
    split.
    + intros j Hj. destruct (H1 j ltac:(lia)) as [A B]. rewrite A, B.
      rewrite !list_lookup_insert_ne by lia. auto.
    + intros j Hj. rewrite H2 by lia. rewrite !list_lookup_insert_ne by lia. reflexivity.
Qed.

Lemma main_loop_spec rnd n : forall i rs cs ss k,
  (i + n <= length rs)%nat -> ((i + n) * 3 <= length cs)%nat -> (i + n <= length ss)%nat ->
  let r := MainBuffers.loop rnd n i rs cs ss k in
  snd r = (k + 4 * n)%nat /\
  length (fst (fst (fst r))) = length rs /\
  length (snd (fst (fst r))) = length cs /\
  length (snd (fst r)) = length ss /\
  forall j, (i <= j < i + n)%nat ->
    let d := (k + 4 * (j - i))%nat in
    fst (fst (fst r)) !! j = Some (rnd d * 0.5 + 0.5) /\
    snd (fst (fst r)) !! (j * 3)%nat = Some (rnd (d + 1)%nat) /\
    snd (fst (fst r)) !! (j * 3 + 1)%nat = Some (rnd (d + 2)%nat * 0.5) /\
    snd (fst (fst r)) !! (j * 3 + 2)%nat = Some 0 /\
    snd (fst r) !! j = Some (0.5 + rnd (d + 3)%nat * 2.0).
Proof.
  induction n as [|n IH]; intros i rs cs ss k Hr Hc Hs; cbn [MainBuffers.loop].
  - unfold ret. cbn [fst snd]. repeat split; try lia.
  - unfold bind, Math.random. cbv beta iota zeta.
    match goal with |- context [MainBuffers.loop rnd n (S i) ?a ?b ?c ?d] =>
      pose proof (main_loop_untouched rnd n (S i) a b c d) as [U1 U2];
      destruct (IH (S i) a b c d) as (Ek & L1 & L2 & L3 & Hj);
        [rewrite ?length_insert; lia ..|]
    end.
    repeat rewrite length_insert in L1. repeat rewrite length_insert in L2.
    repeat rewrite length_insert in L3.
    split; [rewrite Ek; lia|]. split; [exact L1|]. split; [exact L2|]. split; [exact L3|].
    intros j Hjr. destruct (decide (j = i)) as [->|Hne].
    + replace (k + 4 * (i - i))%nat with k by lia. cbv zeta.
      destruct (U1 i ltac:(lia)) as [A B]. rewrite A, B.
      rewrite !U2 by lia.
      replace (k + 1)%nat with (S k) by lia. replace (k + 2)%nat with (S (S k)) by lia.
      replace (k + 3)%nat with (S (S (S k))) by lia.
      repeat split.
      * apply list_lookup_insert_eq. lia.
      * rewrite !list_lookup_insert_ne by lia. apply list_lookup_insert_eq. lia.
      * rewrite list_lookup_insert_ne by lia. apply list_lookup_insert_eq.
        rewrite length_insert. lia.
      * apply list_lookup_insert_eq. rewrite !length_insert. lia.
      * apply list_lookup_insert_eq. lia.
    + specialize (Hj j ltac:(lia)). cbv zeta in Hj |- *.
      replace (S (S (S (S k))) + 4 * (j - S i))%nat with (k + 4 * (j - i))%nat in Hj by lia.
      exact Hj.
Qed.

(** The attribute buffers of the main shape: the rendered buffer starts
    with every particle at the origin; the scale of a particle lies in
    [0.5, 1), its two colour mix factors in [0, 1) and [0, 0.5) (the third
    entry is 0), its flash speed in [0.5, 2.5); the loop draws four numbers
    per particle. *)
Theorem attribute_buffers_ranges rnd count k i :
  (forall n, 0 <= rnd n < 1) ->
  (i < count)%nat ->
  let b := fst (MainBuffers.useMemo rnd count k) in
  MainBuffers.positions b = replicate (count * 3) 0 /\
  length (MainBuffers.randoms b) = count /\
  length (MainBuffers.colorMix b) = (count * 3)%nat /\
  length (MainBuffers.flashSpeeds b) = count /\
  snd (MainBuffers.useMemo rnd count k) = (k + 4 * count)%nat /\
  exists scale mix1 mix2 speed,
    MainBuffers.randoms b !! i = Some scale /\ 0.5 <= scale < 1 /\
    MainBuffers.colorMix b !! (i * 3)%nat = Some mix1 /\ 0 <= mix1 < 1 /\
    MainBuffers.colorMix b !! (i * 3 + 1)%nat = Some mix2 /\ 0 <= mix2 < 0.5 /\
    MainBuffers.colorMix b !! (i * 3 + 2)%nat = Some 0 /\
    MainBuffers.flashSpeeds b !! i = Some speed /\ 0.5 <= speed < 2.5.
Proof.
  intros Hrnd Hi b. subst b. unfold MainBuffers.useMemo, bind, ret. cbv zeta.
  destruct (main_loop_spec rnd count 0%nat (replicate count 0) (replicate (count * 3) 0)
              (replicate count 0) k) as (Ek & L1 & L2 & L3 & Hj);
    [rewrite length_replicate; lia ..|].
  destruct (MainBuffers.loop rnd count 0 (replicate count 0) (replicate (count * 3) 0)
              (replicate count 0) k) as [[[rs cs] ss] k'].
  cbn [fst snd MainBuffers.positions MainBuffers.randoms MainBuffers.colorMix
       MainBuffers.flashSpeeds] in *.
  rewrite length_replicate in L1, L2, L3.
  split; [reflexivity|]. split; [exact L1|]. split; [exact L2|]. split; [exact L3|].
  split; [exact Ek|].
  destruct (Hj i ltac:(lia)) as (A & B & C & D & E).
  set (d := (k + 4 * (i - 0))%nat) in *.
  pose proof (Hrnd d). pose proof (Hrnd (d + 1)%nat). pose proof (Hrnd (d + 2)%nat).
  pose proof (Hrnd (d + 3)%nat).
  exists (rnd d * 0.5 + 0.5), (rnd (d + 1)%nat), (rnd (d + 2)%nat * 0.5),
    (0.5 + rnd (d + 3)%nat * 2.0).
  repeat split; try assumption; lra.
Qed.

Lemma attribute_buffers_ranges_witness :
  (forall n, 0 <= zeros n < 1) /\
  (let b := fst (MainBuffers.useMemo zeros 2 0%nat) in
   MainBuffers.positions b = replicate (2 * 3) 0 /\
   length (MainBuffers.randoms b) = 2%nat /\
   length (MainBuffers.colorMix b) = (2 * 3)%nat /\
   length (MainBuffers.flashSpeeds b) = 2%nat /\
   snd (MainBuffers.useMemo zeros 2 0%nat) = (0 + 4 * 2)%nat /\
   exists scale mix1 mix2 speed,
     MainBuffers.randoms b !! 1%nat = Some scale /\ 0.5 <= scale < 1 /\
     MainBuffers.colorMix b !! (1 * 3)%nat = Some mix1 /\ 0 <= mix1 < 1 /\
     MainBuffers.colorMix b !! (1 * 3 + 1)%nat = Some mix2 /\ 0 <= mix2 < 0.5 /\
     MainBuffers.colorMix b !! (1 * 3 + 2)%nat = Some 0 /\
     MainBuffers.flashSpeeds b !! 1%nat = Some speed /\ 0.5 <= speed < 2.5).
Proof.
  split; [exact zeros_range|].
  exact (attribute_buffers_ranges zeros 2 0%nat 1 zeros_range ltac:(lia)).
Defined.

(** ** The background star field *)

Lemma bg_loop_untouched star n : forall i pos sz off k,
  let r := BackgroundParticles.loop star n i pos sz off k in
  (forall j, (j < i * 3)%nat -> fst (fst (fst r)) !! j = pos !! j) /\
  (forall j, (j < i)%nat -> snd (fst (fst r)) !! j = sz !! j /\ snd (fst r) !! j = off !! j).
Proof.
  induction n as [|n IH]; intros i pos sz off k; cbn [BackgroundParticles.loop].
  - unfold ret. cbn [fst snd]. auto.
  - unfold bind. destruct (star k) as [s k']. cbv beta iota zeta.
    match goal with |- context [BackgroundParticles.loop star n (S i) ?a ?b ?c ?d] =>
      destruct (IH (S i) a b c d) as [H1 H2] end.
    split.
    + intros j Hj. rewrite H1 by lia. rewrite !list_lookup_insert_ne by lia. reflexivity.
    + intros j Hj. destruct (H2 j ltac:(lia)) as [A B]. rewrite A, B.
      rewrite !list_lookup_insert_ne by lia. auto.
Qed.

Lemma bg_loop_points star (P : BackgroundParticles.Star -> Prop) :
  (forall k, P (fst (star k))) ->
  forall n i pos sz off k,
    ((i + n) * 3 <= length pos)%nat -> (i + n <= length sz)%nat -> (i + n <= length off)%nat ->
    let r := BackgroundParticles.loop star n i pos sz off k in
    length (fst (fst (fst r))) = length pos /\
    length (snd (fst (fst r))) = length sz /\
    length (snd (fst r)) = length off /\
    forall j, (i <= j < i + n)%nat ->
      exists s, P s /\
        fst (fst (fst r)) !! (j * 3)%nat = Some (BackgroundParticles.star_x s) /\
        fst (fst (fst r)) !! (j * 3 + 1)%nat = Some (BackgroundParticles.star_y s) /\
        fst (fst (fst r)) !! (j * 3 + 2)%nat = Some (BackgroundParticles.star_z s) /\
        snd (fst (fst r)) !! j = Some (BackgroundParticles.star_size s) /\
        snd (fst r) !! j = Some (BackgroundParticles.star_offset s).
Proof.
  intros HP. induction n as [|n IH]; intros i pos sz off k Hp Hs Ho;
    cbn [BackgroundParticles.loop].
  - unfold ret. cbn [fst snd]. repeat split; try lia.
  - unfold bind. pose proof (HP k) as Hs0. destruct (star k) as [s k']. cbn [fst] in Hs0.
    cbv beta iota zeta.
    match goal with |- context [BackgroundParticles.loop star n (S i) ?a ?b ?c ?d] =>
      pose proof (bg_loop_untouched star n (S i) a b c d) as [U1 U2];
      destruct (IH (S i) a b c d) as (L1 & L2 & L3 & Hj);
        [rewrite ?length_insert; lia ..|]
    end.
    repeat rewrite length_insert in L1. repeat rewrite length_insert in L2.
    repeat rewrite length_insert in L3.
    split; [exact L1|]. split; [exact L2|]. split; [exact L3|].
    intros j Hjr. destruct (decide (j = i)) as [->|Hne].
    + exists s. split; [exact Hs0|].
      destruct (U2 i ltac:(lia)) as [A B]. rewrite A, B. rewrite !U1 by lia.
      repeat split.
      * rewrite !list_lookup_insert_ne by lia. apply list_lookup_insert_eq. lia.
      * rewrite list_lookup_insert_ne by lia. apply list_lookup_insert_eq.
        rewrite length_insert. lia.
      * apply list_lookup_insert_eq. rewrite !length_insert. lia.
      * apply list_lookup_insert_eq. lia.
      * apply list_lookup_insert_eq. lia.
    + apply Hj. lia.
Qed.

Lemma sqrt_between lo hi v :
  0 <= lo -> lo ^ 2 <= v -> v <= hi ^ 2 -> 0 <= hi -> lo <= sqrt v <= hi.
Proof.
  intros Hlo H1 H2 Hhi. split.
  - rewrite <- (sqrt_pow2 lo Hlo). apply sqrt_le_1_alt. exact H1.
  - rewrite <- (sqrt_pow2 hi Hhi). apply sqrt_le_1_alt. exact H2.
Qed.

Lemma star_V1 rnd k :
  (forall n, 0 <= rnd n < 1) ->
  let s := fst (BackgroundParticles.V1.star rnd k) in
  80 <= sqrt (BackgroundParticles.star_x s ^ 2 + BackgroundParticles.star_y s ^ 2
              + BackgroundParticles.star_z s ^ 2) < 300 /\
  1 <= BackgroundParticles.star_size s < 5 /\
  0 <= BackgroundParticles.star_offset s < 100.
Proof.
  intros Hrnd. unfold BackgroundParticles.V1.star, bind, Math.random, ret.
  cbn [fst BackgroundParticles.star_x BackgroundParticles.star_y BackgroundParticles.star_z
       BackgroundParticles.star_size BackgroundParticles.star_offset].
  pose proof (Hrnd k) as Ha. pose proof (Hrnd (S (S (S k)))) as Hd.
  pose proof (Hrnd (S (S (S (S k))))) as He.
  set (r := 80 + rnd k * 220). set (theta := rnd (S k) * PI * 2).
  set (phi := acos (2 * rnd (S (S k)) - 1)).
  assert (Hr : 80 <= r < 300) by (unfold r; lra).
  assert (E : (r * sin phi * cos theta) ^ 2 + (r * sin phi * sin theta) ^ 2
              + (r * cos phi) ^ 2 = r ^ 2).
  { pose proof (sin2_cos2 phi) as Hp. pose proof (sin2_cos2 theta) as Ht.
    unfold Rsqr in Hp, Ht.
    replace ((r * sin phi * cos theta) ^ 2 + (r * sin phi * sin theta) ^ 2
             + (r * cos phi) ^ 2)
      with (r ^ 2 * (sin phi * sin phi * (sin theta * sin theta + cos theta * cos theta)
                     + cos phi * cos phi)) by ring.
    rewrite Ht, Rmult_1_r, Hp. ring. }
  rewrite E, sqrt_pow2 by lra. lra.
Qed.

Lemma star_V2 rnd k :
  (forall n, 0 <= rnd n < 1) ->
  let s := fst (BackgroundParticles.V2.star rnd k) in
  24 <= sqrt (BackgroundParticles.star_x s ^ 2 + BackgroundParticles.star_y s ^ 2
              + BackgroundParticles.star_z s ^ 2) < 300 /\
  0.5 <= BackgroundParticles.star_size s < 3.5 /\
  0 <= BackgroundParticles.star_offset s < 100.
Proof.
  intros Hrnd. unfold BackgroundParticles.V2.star, bind, Math.random, ret.
  cbn [fst BackgroundParticles.star_x BackgroundParticles.star_y BackgroundParticles.star_z
       BackgroundParticles.star_size BackgroundParticles.star_offset].
  pose proof (Hrnd k) as Ha. pose proof (Hrnd (S (S (S k)))) as Hm.
  pose proof (Hrnd (S (S (S (S k))))) as Hd.
  pose proof (Hrnd (S (S (S (S (S k)))))) as He.
  assert (Hp15 : 0 <= BackgroundParticles.V2.pow15 (rnd k) < 1).
  { unfold BackgroundParticles.V2.pow15. pose proof (sqrt_pos (rnd k)) as H0.
    assert (sqrt (rnd k) < 1) by (rewrite <- sqrt_1; apply sqrt_lt_1; lra).
    split; nra. }
  set (r := 40 + BackgroundParticles.V2.pow15 (rnd k) * 260).
  set (theta := rnd (S k) * PI * 2). set (phi := acos (2 * rnd (S (S k)) - 1)).
  set (m := 0.6 + rnd (S (S (S k))) * 0.4).
  assert (Hr : 40 <= r < 300) by (unfold r; lra).
  assert (Hmr : 0.6 <= m < 1) by (unfold m; lra).
  pose proof (sin2_cos2 phi) as Hp. pose proof (sin2_cos2 theta) as Ht.
  unfold Rsqr in Hp, Ht.
  set (a := sin phi) in *. set (b := cos phi) in *.
  set (c := cos theta) in *. set (d := sin theta) in *.
  assert (Hup : (r * a * c) ^ 2 + (r * a * d * m) ^ 2 + (r * b) ^ 2 <= r ^ 2).
  { replace (r ^ 2) with (r ^ 2 * (a * a * (d * d + c * c) + b * b))
      by (rewrite Ht, Rmult_1_r, Hp; ring).
    assert (0 <= (r * a * d) ^ 2 * (1 - m * m))
      by (apply Rmult_le_pos; [apply pow2_ge_0 | nra]).
    nra. }
  assert (Hlow : 0.36 * r ^ 2 <= (r * a * c) ^ 2 + (r * a * d * m) ^ 2 + (r * b) ^ 2).
  { replace (0.36 * r ^ 2) with (0.36 * r ^ 2 * (a * a * (d * d + c * c) + b * b))
      by (rewrite Ht, Rmult_1_r, Hp; ring).
    assert (0 <= (r * a * d) ^ 2 * (m * m - 0.36))
      by (apply Rmult_le_pos; [apply pow2_ge_0 | nra]).
    pose proof (pow2_ge_0 (r * a * c)). pose proof (pow2_ge_0 (r * b)).
    nra. }
  destruct (sqrt_between 24 r
              ((r * a * c) ^ 2 + (r * a * d * m) ^ 2 + (r * b) ^ 2)) as [S1 S2];
    try lra; try nra.
Qed.

(** The background stars form a shell around the scene: in the first
    revision every star lies between 80 and 300 from the origin, in the
    second (whose heights are squashed) between 24 and 300; sizes lie in
    [1, 5), respectively [0.5, 3.5), and offsets in [0, 100). *)
Theorem background_stars_shell rev rnd k i :
  (forall n, 0 <= rnd n < 1) ->
  (i < BackgroundParticles.COUNT rev)%nat ->
  let b := fst (BackgroundParticles.useMemo rev rnd k) in
  length (BackgroundParticles.positions b) = (BackgroundParticles.COUNT rev * 3)%nat /\
  exists x y z size offset,
    BackgroundParticles.positions b !! (i * 3)%nat = Some x /\
    BackgroundParticles.positions b !! (i * 3 + 1)%nat = Some y /\
    BackgroundParticles.positions b !! (i * 3 + 2)%nat = Some z /\
    BackgroundParticles.sizes b !! i = Some size /\
    BackgroundParticles.offsets b !! i = Some offset /\
    match rev with First => 80 | Second => 24 end <= sqrt (x ^ 2 + y ^ 2 + z ^ 2) < 300 /\
    match rev with First => 1 <= size < 5 | Second => 0.5 <= size < 3.5 end /\
    0 <= offset < 100.
Proof.
  intros Hrnd Hi b. subst b.
  destruct rev; cbn [BackgroundParticles.useMemo BackgroundParticles.COUNT] in *;
    [unfold BackgroundParticles.V1.useMemo | unfold BackgroundParticles.V2.useMemo];
    unfold BackgroundParticles.create, bind, ret; cbv zeta.
  - set (n := BackgroundParticles.V1.COUNT) in *. clearbody n.
    destruct (bg_loop_points (BackgroundParticles.V1.star rnd)
                (fun s => 80 <= sqrt (BackgroundParticles.star_x s ^ 2
                                      + BackgroundParticles.star_y s ^ 2
                                      + BackgroundParticles.star_z s ^ 2) < 300 /\
                          1 <= BackgroundParticles.star_size s < 5 /\
                          0 <= BackgroundParticles.star_offset s < 100)
                (fun k => star_V1 rnd k Hrnd) n 0%nat
                (replicate (n * 3) 0) (replicate n 0) (replicate n 0) k)
      as (L1 & _ & _ & Hj); [rewrite length_replicate; lia ..|].
    destruct (BackgroundParticles.loop _ n 0 _ _ _ k) as [[[pos sz] off] k'].
    cbn [fst snd BackgroundParticles.positions BackgroundParticles.sizes
         BackgroundParticles.offsets] in *.
    rewrite length_replicate in L1. split; [exact L1|].
    destruct (Hj i ltac:(lia)) as (s & (P1 & P2 & P3) & A & B & C & D & E).
    exists (BackgroundParticles.star_x s), (BackgroundParticles.star_y s),
      (BackgroundParticles.star_z s), (BackgroundParticles.star_size s),
      (BackgroundParticles.star_offset s). auto 10.
  - set (n := BackgroundParticles.V2.COUNT) in *. clearbody n.
    destruct (bg_loop_points (BackgroundParticles.V2.star rnd)
                (fun s => 24 <= sqrt (BackgroundParticles.star_x s ^ 2
                                      + BackgroundParticles.star_y s ^ 2
                                      + BackgroundParticles.star_z s ^ 2) < 300 /\
                          0.5 <= BackgroundParticles.star_size s < 3.5 /\
                          0 <= BackgroundParticles.star_offset s < 100)
                (fun k => star_V2 rnd k Hrnd) n 0%nat
                (replicate (n * 3) 0) (replicate n 0) (replicate n 0) k)
      as (L1 & _ & _ & Hj); [rewrite length_replicate; lia ..|].
    destruct (BackgroundParticles.loop _ n 0 _ _ _ k) as [[[pos sz] off] k'].
    cbn [fst snd BackgroundParticles.positions BackgroundParticles.sizes
         BackgroundParticles.offsets] in *.
    rewrite length_replicate in L1. split; [exact L1|].
    destruct (Hj i ltac:(lia)) as (s & (P1 & P2 & P3) & A & B & C & D & E).
    exists (BackgroundParticles.star_x s), (BackgroundParticles.star_y s),
      (BackgroundParticles.star_z s), (BackgroundParticles.star_size s),
      (BackgroundParticles.star_offset s). auto 10.
Qed.

Lemma first_star_exists : (0 < BackgroundParticles.COUNT Second)%nat.
Proof. apply Nat.ltb_lt. vm_compute. reflexivity. Qed.

Lemma background_stars_shell_witness :
  (forall n, 0 <= zeros n < 1) /\
  (0 < BackgroundParticles.COUNT Second)%nat /\
  (let b := fst (BackgroundParticles.useMemo Second zeros 0%nat) in
   length (BackgroundParticles.positions b) = (BackgroundParticles.COUNT Second * 3)%nat /\
   exists x y z size offset,
     BackgroundParticles.positions b !! (0 * 3)%nat = Some x /\
     BackgroundParticles.positions b !! (0 * 3 + 1)%nat = Some y /\
     BackgroundParticles.positions b !! (0 * 3 + 2)%nat = Some z /\
     BackgroundParticles.sizes b !! 0%nat = Some size /\
     BackgroundParticles.offsets b !! 0%nat = Some offset /\
     24 <= sqrt (x ^ 2 + y ^ 2 + z ^ 2) < 300 /\
     0.5 <= size < 3.5 /\
     0 <= offset < 100).
Proof.
  split; [exact zeros_range|]. split; [exact first_star_exists|].
  exact (background_stars_shell Second zeros 0%nat 0 zeros_range first_star_exists).
Defined.

(** ** The offline fallback *)

(** When the mood service gives no answer, the configuration set is the
    default one but for its description and its shape, and the shape is
    one of the enumeration (never an absent entry), drawn without regard
    to the shape shown; an answer of the service is set unchanged. *)
Theorem offline_fallback_is_valid rev rnd k :
  0 <= rnd k < 1 ->
  let next := fst (App.setVisualConfig rnd (allShapes rev) None k) in
  shape next ∈ allShapes rev /\
  colors next = colors DEFAULT_VISUAL_CONFIG /\
  speed next = speed DEFAULT_VISUAL_CONFIG /\
  chaos next = chaos DEFAULT_VISUAL_CONFIG /\
  description next = "AI Offline - Random Gen"%string /\
  forall config, fst (App.setVisualConfig rnd (allShapes rev) (Some config) k) = config.
Proof.
  intros Hr next. subst next.
  cbn [App.setVisualConfig]. unfold App.fallback, bind, Math.random, ret.
  cbn [fst shape colors speed chaos description].
  split; [|auto 10].
  destruct (NoDup_allShapes rev) as [_ Hlen].
  destruct (floor_index (rnd k) (length (allShapes rev)) Hr ltac:(lia)) as [H0 Hlt].
  unfold item.
  destruct (Z.ltb_spec (Math.floor (rnd k * INR (length (allShapes rev)))) 0) as [|_];
    [lia|].
  apply list_elem_of_In, nth_In. exact Hlt.
Qed.

Lemma offline_fallback_is_valid_witness :
  0 <= zeros 0%nat < 1 /\
  shape (fst (App.setVisualConfig zeros (allShapes First) None 0%nat)) ∈ allShapes First.
Proof.
  split; [exact (zeros_range 0%nat)|].
  exact (proj1 (offline_fallback_is_valid First zeros 0%nat (zeros_range 0%nat))).
Defined.

(** ** The overlay *)

Section Overlay.
Import Strings.Ascii.

Lemma formatShapeName_length s :
  String.length (UIOverlay.formatShapeName s) = String.length s.
Proof. induction s as [|c s IH]; cbn; [reflexivity | now rewrite IH]. Qed.

Lemma formatShapeName_no_underscore s :
  occurs "_"%char (UIOverlay.formatShapeName s) = false.
Proof.
  induction s as [|c s IH]; cbn; [reflexivity|].
  destruct (Ascii.eqb_spec c "_"%char) as [->|Hc].
  - cbn. exact IH.
  - destruct (Ascii.eqb_spec c "_"%char) as [E|_]; [contradiction | exact IH].
Qed.

Lemma formatShapeName_fixes s :
  occurs "_"%char s = false -> UIOverlay.formatShapeName s = s.
Proof.
  induction s as [|c s IH]; cbn; [reflexivity|].
  destruct (Ascii.eqb_spec c "_"%char) as [->|Hc]; [discriminate|].
  intros H. now rewrite IH.
Qed.

(** The name the overlay prints has the length of the shape's name and no
    underscore, differs from it only where it had one, and formatting it
    again changes nothing. *)
Theorem formatShapeName_replaces_underscores s :
  String.length (UIOverlay.formatShapeName s) = String.length s /\
  occurs "_"%char (UIOverlay.formatShapeName s) = false /\
  (forall n c, String.get n s = Some c ->
     String.get n (UIOverlay.formatShapeName s)
       = Some (if Ascii.eqb c "_"%char then " "%char else c)) /\
  UIOverlay.formatShapeName (UIOverlay.formatShapeName s) = UIOverlay.formatShapeName s.
Proof.
  split; [apply formatShapeName_length|].
  split; [apply formatShapeName_no_underscore|].
  split; [|apply formatShapeName_fixes, formatShapeName_no_underscore].
  induction s as [|d s IH]; intros n c; cbn.
  - discriminate.
  - destruct n as [|n]; [intros [= ->]; reflexivity | apply IH].
Qed.

End Overlay.

Lemma formatShapeName_injective rev a b :
  a ∈ allShapes rev -> b ∈ allShapes rev ->
  UIOverlay.formatShapeName a = UIOverlay.formatShapeName b -> a = b.
Proof.
  assert (H : Forall (fun a => Forall (fun b =>
                UIOverlay.formatShapeName a = UIOverlay.formatShapeName b -> a = b)
                (allShapes rev)) (allShapes rev)).
  { destruct rev; cbn [allShapes].
    - apply (bool_decide_unpack _). vm_compute. exact I.
    - apply (bool_decide_unpack _). vm_compute. exact I. }
  intros Ha Hb. rewrite Forall_forall in H. specialize (H a Ha).
  rewrite Forall_forall in H. exact (H b Hb).
Qed.

(** The overlay prints the shape of the configuration the application
    holds, whatever the analysis flag; a transition the frame fires by
    itself changes the shape shown but not the configuration, so after it
    the MODE line names a shape that is no longer the one on screen. *)
Theorem overlay_mode_not_updated_by_transition
    rev rnd count config time audio gesture s isAnalysing :
  0 <= rnd (seed s) < 1 ->
  shape config ∈ allShapes rev ->
  currentShapeRef s = shape config ->
  cooldown rev < timeSinceLastChange time s ->
  switchThreshold rev < volume audio \/ forceSwitchTime rev < timeSinceLastChange time s ->
  let s' := useFrame rev rnd count config time audio gesture s in
  UIOverlay.mode (App.overlayConfig isAnalysing config)
    = ("MODE: " ++ UIOverlay.formatShapeName (currentShapeRef s))%string /\
  UIOverlay.mode (App.overlayConfig isAnalysing config)
    <> ("MODE: " ++ UIOverlay.formatShapeName (currentShapeRef s'))%string.
Proof.
  intros Hrnd Hin Hcur Hcd Hor s'.
  destruct (useFrame_fires rev rnd count config time audio gesture s Hrnd Hcd Hor)
    as (Hne & Hin' & _). fold s' in Hne, Hin'.
  unfold UIOverlay.mode, App.overlayConfig. cbn [shape]. rewrite Hcur.
  split; [reflexivity|].
  intros E. apply Hne. rewrite Hcur.
  cbn in E. injection E as E.
  symmetry. apply (formatShapeName_injective rev); assumption.
Qed.

Lemma overlay_mode_not_updated_by_transition_witness :
  let s := one_particle 0 in
  let gesture := mkGestureState resting_hand resting_hand in
  let s' := useFrame First zeros 1 DEFAULT_VISUAL_CONFIG 9 loud_audio gesture s in
  0 <= zeros (seed s) < 1 /\
  shape DEFAULT_VISUAL_CONFIG ∈ allShapes First /\
  currentShapeRef s = shape DEFAULT_VISUAL_CONFIG /\
  cooldown First < timeSinceLastChange 9 s /\
  (switchThreshold First < volume loud_audio \/
   forceSwitchTime First < timeSinceLastChange 9 s) /\
  UIOverlay.mode (App.overlayConfig false DEFAULT_VISUAL_CONFIG) = "MODE: SPHERE"%string /\
  UIOverlay.mode (App.overlayConfig false DEFAULT_VISUAL_CONFIG)
    <> ("MODE: " ++ UIOverlay.formatShapeName (currentShapeRef s'))%string.
Proof.
  cbn zeta.
  assert (H1 : 0 <= zeros (seed (one_particle 0)) < 1) by apply zeros_range.
  assert (H2 : shape DEFAULT_VISUAL_CONFIG ∈ allShapes First)
    by (apply list_elem_of_In; simpl; tauto).
  assert (H3 : currentShapeRef (one_particle 0) = shape DEFAULT_VISUAL_CONFIG)
    by reflexivity.
  assert (H4 : cooldown First < timeSinceLastChange 9 (one_particle 0))
    by (unfold timeSinceLastChange; cbn; unfold V1.cooldown; lra).
  assert (H5 : switchThreshold First < volume loud_audio \/
               forceSwitchTime First < timeSinceLastChange 9 (one_particle 0))
    by (left; unfold volume; cbn; unfold V1.switchThreshold; lra).
  destruct (overlay_mode_not_updated_by_transition First zeros 1 DEFAULT_VISUAL_CONFIG 9
              loud_audio (mkGestureState resting_hand resting_hand) (one_particle 0)
              false H1 H2 H3 H4 H5) as [A B].
  split; [exact H1|]. split; [exact H2|]. split; [exact H3|]. split; [exact H4|].
  split; [exact H5|]. split; [exact A | exact B].
Defined.
